(** * txwinrm.krb5: the KRB5_CONFIG manager and the kinit driver

    A shallow embedding of [src/txwinrm/krb5.py] (Python 2, Twisted).

    - Python byte strings are [string]; a character is an [ascii] (one byte).
    - [set] is [gset string]; [dict] is [gmap string _]; the
      [collections.defaultdict(set)] of realms inserts the empty set when a
      missing key is read, and that insertion is modelled.
    - Python leaves the iteration order of a [set] and of a [dict]
      unspecified; the model iterates in stdpp's canonical order
      ([elements], [map_to_list]), one order for each value.  In the code
      the order belongs to the object: two renderings of an object that
      was not changed in between agree, as they do here, but [add_kdc]
      builds a new set for the realm on every merge.  No statement below
      says in which order KDC lines or realm blocks are written, and where
      a set is rebuilt between two writes the text of the second write is
      left open.
    - Exceptions and mutation are modelled by a state-and-exception monad
      over a [world]: the [config] singleton, the file system, [os.environ]
      and the log of observable effects. *)

From Stdlib Require Import Ascii String.
From stdpp Require Import gmap strings list fin_maps.

Local Open Scope string_scope.
Local Open Scope list_scope.

(* [set_solver] clears hypotheses it has already consumed. *)
Set Warnings "-clear-no-such-hyp".

(** ** Python string primitives *)

Module PyStr.

Definition nl_char : ascii := Ascii.ascii_of_nat 10.
Definition nl : string := String nl_char "".

(** [str.isspace] on one byte, C locale: space, \t, \n, \v, \f, \r.
    The same six bytes are the class [\s] of [re] on byte strings. *)
Definition isspace (c : ascii) : bool :=
  let n := Ascii.nat_of_ascii c in
  Nat.eqb n 32 || (Nat.leb 9 n && Nat.leb n 13).

Fixpoint lstrip (s : string) : string :=
  match s with
  | String c s' => if isspace c then lstrip s' else s
  | "" => ""
  end.

(** [s.rstrip(chars)], the characters to drop given as a predicate *)
Fixpoint rstrip_by (p : ascii -> bool) (s : string) : string :=
  match s with
  | String c s' =>
      match rstrip_by p s' with
      | "" => if p c then "" else String c ""
      | r => String c r
      end
  | "" => ""
  end.

Definition rstrip : string -> string := rstrip_by isspace.

(** [s.strip()] *)
Definition strip (s : string) : string := rstrip (lstrip s).

(** [s.split(sep)] for a one-character separator: never the empty list. *)
Fixpoint split (sep : ascii) (s : string) : list string :=
  match s with
  | "" => [""]
  | String c s' =>
      if Ascii.eqb c sep then "" :: split sep s'
      else match split sep s' with
           | h :: t => String c h :: t
           | [] => [String c ""]
           end
  end.

(** [s.startswith(pre)] *)
Fixpoint startswith (s pre : string) : bool :=
  match pre, s with
  | "", _ => true
  | String p pre', String c s' => Ascii.eqb p c && startswith s' pre'
  | String _ _, "" => false
  end.

(** [s.endswith(suf)] *)
Fixpoint endswith (s suf : string) : bool :=
  String.eqb s suf ||
  match s with
  | String _ s' => endswith s' suf
  | "" => false
  end.

(** [sub in s] *)
Fixpoint contains (sub s : string) : bool :=
  startswith s sub ||
  match s with
  | String _ s' => contains sub s'
  | "" => false
  end.

Definition upper_char (c : ascii) : ascii :=
  let n := Ascii.nat_of_ascii c in
  if Nat.leb 97 n && Nat.leb n 122 then Ascii.ascii_of_nat (n - 32) else c.

Definition lower_char (c : ascii) : ascii :=
  let n := Ascii.nat_of_ascii c in
  if Nat.leb 65 n && Nat.leb n 90 then Ascii.ascii_of_nat (n + 32) else c.

Fixpoint map_chars (f : ascii -> ascii) (s : string) : string :=
  match s with
  | String c s' => String (f c) (map_chars f s')
  | "" => ""
  end.

(** [s.upper()], [s.lower()] on byte strings in the C locale *)
Definition upper : string -> string := map_chars upper_char.
Definition lower : string -> string := map_chars lower_char.

(** [sep.join(l)] *)
Fixpoint join (sep : string) (l : list string) : string :=
  match l with
  | [] => ""
  | [x] => x
  | x :: l' => x +:+ sep +:+ join sep l'
  end.

(** [''.join(l)] *)
Definition concat (l : list string) : string := foldr String.append "" l.

(** Iterating a file object yields its lines, each with its terminating
    newline (the last one has none when the file does not end in one). *)
Fixpoint lines_from (cur : string -> string) (s : string) : list string :=
  match s with
  | "" => match cur "" with "" => [] | l => [l] end
  | String c s' =>
      if Ascii.eqb c nl_char then cur nl :: lines_from (fun x => x) s'
      else lines_from (fun x => cur (String c x)) s'
  end.

Definition readlines (s : string) : list string := lines_from (fun x => x) s.

(** A value is falsy in a condition when it is [None] or the empty string. *)
Definition truthy (o : option string) : bool :=
  match o with
  | Some (String _ _) => true
  | _ => false
  end.

End PyStr.

(** ** The fragment of [re] the module uses

    Every pattern of the source is a sequence of one-character classes,
    each taken once, or repeated greedily by [+] or [*]; every group wraps
    exactly one such piece.  The matcher backtracks as [re] does: a
    repetition first takes the longest run and gives characters back one by
    one while the rest of the pattern fails. *)

Module Re.

Inductive cclass :=
  | Lit (c : ascii)          (* a literal character *)
  | Space                    (* \s *)
  | NonSpace                 (* \S *)
  | Dot                      (* .  (no DOTALL: anything but newline) *)
  | OneOf (l : list ascii).  (* [...] *)

Inductive quant := One | Plus | Star.

Record piece := Piece { p_class : cclass; p_quant : quant; p_group : bool }.

Definition regex := list piece.

Definition cmatch (k : cclass) (c : ascii) : bool :=
  match k with
  | Lit a => Ascii.eqb a c
  | Space => PyStr.isspace c
  | NonSpace => negb (PyStr.isspace c)
  | Dot => negb (Ascii.eqb c PyStr.nl_char)
  | OneOf l => existsb (Ascii.eqb c) l
  end.

(** Greedy repetition: [k taken rest] is tried with the longest [taken]
    first. *)
Fixpoint greedy {A} (p : ascii -> bool) (k : string -> string -> option A)
    (s : string) : option A :=
  match s with
  | String c s' =>
      if p c then
        match greedy p (fun taken rest => k (String c taken) rest) s' with
        | Some r => Some r
        | None => k "" s
        end
      else k "" s
  | "" => k "" s
  end.

Definition emit (grp : bool) (taken : string) (r : option (list string))
    : option (list string) :=
  if grp then cons taken <$> r else r.

(** Match the pattern at the start of [s]; the result lists the groups. *)
Fixpoint match_here (r : regex) (s : string) : option (list string) :=
  match r with
  | [] => Some []
  | Piece cl q grp :: r' =>
      match q with
      | One =>
          match s with
          | String c s' =>
              if cmatch cl c then emit grp (String c "") (match_here r' s')
              else None
          | "" => None
          end
      | Plus =>
          match s with
          | String c s' =>
              if cmatch cl c then
                greedy (cmatch cl)
                  (fun taken rest =>
                     emit grp (String c taken) (match_here r' rest)) s'
              else None
          | "" => None
          end
      | Star =>
          greedy (cmatch cl)
            (fun taken rest => emit grp taken (match_here r' rest)) s
      end
  end.

(** [re.match(r, s)]: at position 0 only. *)
Definition re_match (r : regex) (s : string) : option (list string) :=
  match_here r s.

(** [re.search(r, s)]: the leftmost position where the pattern matches. *)
Fixpoint re_search (r : regex) (s : string) : option (list string) :=
  match match_here r s with
  | Some g => Some g
  | None =>
      match s with
      | String _ s' => re_search r s'
      | "" => None
      end
  end.

Fixpoint lit (s : string) : regex :=
  match s with
  | String c s' => Piece (Lit c) One false :: lit s'
  | "" => []
  end.

Definition spaces : regex := [Piece Space Plus false].
Definition word_group : regex := [Piece NonSpace Plus true].

(** [match.group(i)]; group 1 is the first. *)
Definition group (i : nat) (m : list string) : string :=
  nth (i - 1) m "".

End Re.

(** ** [os.path] (posixpath) *)

Module OsPath.

Definition slash : ascii := "/"%char.

(** [os.path.join(a, b)]: an absolute [b] discards [a]. *)
Definition join2 (path b : string) : string :=
  if PyStr.startswith b "/" then b
  else if String.eqb path "" || PyStr.endswith path "/" then path +:+ b
  else path +:+ "/" +:+ b.

(** [os.path.join(a, *p)] *)
Definition join (a : string) (p : list string) : string := fold_left join2 p a.

(** [p[:p.rfind('/') + 1]] *)
Fixpoint head_of (p : string) : string :=
  match p with
  | "" => ""
  | String c p' =>
      if PyStr.contains "/" p' then String c (head_of p')
      else if Ascii.eqb c slash then "/" else ""
  end.

Fixpoint all_slashes (s : string) : bool :=
  match s with
  | "" => true
  | String c s' => Ascii.eqb c slash && all_slashes s'
  end.

(** [os.path.dirname(p)] *)
Definition dirname (p : string) : string :=
  let head := head_of p in
  if negb (String.eqb head "") && negb (all_slashes head)
  then PyStr.rstrip_by (Ascii.eqb slash) head
  else head.

End OsPath.

(** ** The world: the [config] singleton, files, environment, effects *)

Inductive exn :=
  | KeyError (key : string)
  | ValueError
  | TypeError
  | OSError (what : string)
  | Exception (msg : string).

(** [class Config]: its four attributes.  A value of [admin_servers] is
    [None] where Python stores [None]. *)
Record Config := mkConfig {
  path : string;
  includedirs : gset string;
  realms : gmap string (gset string);
  admin_servers : gmap string (option string)
}.

(** What the module does to the outside, in order. *)
Inductive event :=
  | Wrote (file text : string)                (* open(file, 'w').write(text) *)
  | MadeDirs (dir : string)                   (* os.makedirs(dir) *)
  | Spawned (exe : option string) (args : list (option string))
            (env : list (string * string))    (* reactor.spawnProcess *)
  | StdinWrite (data : string)                (* transport.write *)
  | Signal (name : string).                   (* transport.signalProcess *)

Record world := mkWorld {
  config : Config;
  files : gmap string string;     (* regular files and their contents *)
  dirs : gset string;             (* directories *)
  environ : gmap string string;   (* os.environ *)
  log : list event
}.

Inductive outcome (A : Type) :=
  | Ret (a : A)
  | Raise (e : exn).
Arguments Ret {A} a.
Arguments Raise {A} e.

(** A computation may read and change the world and may raise; what it
    changed before raising stays changed, as in Python. *)
Definition M (A : Type) : Type := world -> outcome A * world.

Definition ret {A} (a : A) : M A := fun w => (Ret a, w).
Definition raise {A} (e : exn) : M A := fun w => (Raise e, w).
Definition bind {A B} (m : M A) (k : A -> M B) : M B :=
  fun w => match m w with
           | (Ret a, w') => k a w'
           | (Raise e, w') => (Raise e, w')
           end.

#[global] Instance M_ret : MRet M := @ret.
#[global] Instance M_bind : MBind M := fun A B k m => bind m k.

Definition get_world : M world := fun w => (Ret w, w).
Definition get_config : M Config := fun w => (Ret (config w), w).
Definition set_config (c : Config) : M unit :=
  fun w => (Ret tt, mkWorld c (files w) (dirs w) (environ w) (log w)).
Definition emit_event (e : event) : M unit :=
  fun w => (Ret tt, mkWorld (config w) (files w) (dirs w) (environ w) (log w ++ [e])).

Definition set_includedirs (s : gset string) : M unit :=
  c ← get_config;
  set_config (mkConfig (path c) s (realms c) (admin_servers c)).
Definition set_realms (r : gmap string (gset string)) : M unit :=
  c ← get_config;
  set_config (mkConfig (path c) (includedirs c) r (admin_servers c)).
Definition set_admin_servers (a : gmap string (option string)) : M unit :=
  c ← get_config;
  set_config (mkConfig (path c) (includedirs c) (realms c) a).

(** [self.realms[realm]] on the [defaultdict(set)]: a missing key is
    inserted with the empty set. *)
Definition realms_getitem (realm : string) : M (gset string) :=
  c ← get_config;
  match realms c !! realm with
  | Some s => ret s
  | None => set_realms (<[realm := ∅]> (realms c));; ret ∅
  end.

(** [self.admin_servers[realm]] on the plain [dict] *)
Definition admin_servers_getitem (realm : string) : M (option string) :=
  c ← get_config;
  match admin_servers c !! realm with
  | Some a => ret a
  | None => raise (KeyError realm)
  end.

(** The file system is idealised: [os.path.isfile] and [os.path.isdir]
    look the path up, [os.makedirs] refuses only the empty path, and
    writing a file succeeds.  Permissions and disk errors are outside the
    model. *)
Definition isfile (p : string) : M bool :=
  fun w => (Ret (bool_decide (is_Some (files w !! p))), w).
Definition isdir (p : string) : M bool :=
  fun w => (Ret (bool_decide (p ∈ dirs w)), w).
Definition makedirs (p : string) : M unit :=
  if String.eqb p "" then raise (OSError "makedirs")
  else fun w =>
    (Ret tt, mkWorld (config w) (files w) ({[p]} ∪ dirs w) (environ w)
               (log w ++ [MadeDirs p])).
(** [if not os.path.isdir(p): os.makedirs(p)] *)
Definition ensure_dir (p : string) : M unit :=
  d ← isdir p;
  if (d : bool) then ret tt else makedirs p.
Definition write_file (p text : string) : M unit :=
  fun w =>
    (Ret tt, mkWorld (config w) (<[p := text]> (files w)) (dirs w) (environ w)
               (log w ++ [Wrote p text])).

(** ** Templates *)

Import PyStr.

Definition KRB5_CONF_TEMPLATE (includedir realms_text domain_realm_text : string)
    : string :=
  "# This file is managed by the txwinrm python module." +:+ nl +:+
  "# NOTE: Any changes to the logging, libdefaults, domain_realm" +:+
  "# sections of this file will be overwritten." +:+ nl +:+
  "#" +:+ nl +:+
  nl +:+
  includedir +:+ nl +:+
  "[logging]" +:+ nl +:+
  " default = FILE:/var/log/krb5libs.log" +:+ nl +:+
  " kdc = FILE:/var/log/krb5kdc.log" +:+ nl +:+
  " admin_server = FILE:/var/log/kadmind.log" +:+ nl +:+
  nl +:+
  "[libdefaults]" +:+ nl +:+
  " default_realm = EXAMPLE.COM" +:+ nl +:+
  " dns_lookup_realm = false" +:+ nl +:+
  " dns_lookup_kdc = false" +:+ nl +:+
  " ticket_lifetime = 24h" +:+ nl +:+
  " renew_lifetime = 7d" +:+ nl +:+
  " forwardable = true" +:+ nl +:+
  nl +:+
  "[realms]" +:+ nl +:+
  realms_text +:+
  nl +:+
  "[domain_realm]" +:+ nl +:+
  domain_realm_text.

Definition INCLUDEDIR_TEMPLATE (includedir : string) : string :=
  "includedir " +:+ includedir +:+ nl.

Definition KDC_TEMPLATE (kdc : string) : string := "  kdc = " +:+ kdc.

Definition REALM_TEMPLATE (realm kdcs admin_server : string) : string :=
  " " +:+ realm +:+ " = {" +:+ nl +:+
  kdcs +:+ nl +:+
  "  admin_server = " +:+ admin_server +:+ nl +:+
  " }" +:+ nl.

Definition DOMAIN_REALM_TEMPLATE (domain realm : string) : string :=
  " ." +:+ domain +:+ " = " +:+ realm +:+ nl +:+
  " " +:+ domain +:+ " = " +:+ realm +:+ nl.

(** [str.format] of a value that may be [None] *)
Definition format_value (v : option string) : string :=
  match v with
  | Some s => s
  | None => "None"
  end.

(** ** [Config.save] *)

(** The loop over [self.realms.iteritems()]: the realm blocks and the
    domain lines, or the [KeyError] of [self.admin_servers[realm.upper()]]. *)
Fixpoint save_realms (adm : gmap string (option string))
    (l : list (string * gset string)) : outcome (list string * list string) :=
  match l with
  | [] => Ret ([], [])
  | (realm, kdcs) :: l' =>
      if bool_decide (kdcs = ∅) then save_realms adm l'
      else
        let kdc_list := KDC_TEMPLATE <$> elements kdcs in
        match adm !! upper realm with
        | None => Raise (KeyError (upper realm))
        | Some a =>
            match save_realms adm l' with
            | Raise e => Raise e
            | Ret (realms_list, domain_realm_list) =>
                Ret (REALM_TEMPLATE (upper realm) (join nl kdc_list)
                       (format_value a) :: realms_list,
                     DOMAIN_REALM_TEMPLATE (lower realm) (upper realm)
                       :: domain_realm_list)
            end
        end
  end.

Definition lift {A} (o : outcome A) : M A := fun w => (o, w).

Definition save : M unit :=
  c ← get_config;
  '(realms_list, domain_realm_list) ←
    lift (save_realms (admin_servers c) (map_to_list (realms c)));
  let dirname := OsPath.dirname (path c) in
  ensure_dir dirname;;
  (* create config dir for user supplied options *)
  let includedir := OsPath.join dirname ["config"] in
  ensure_dir includedir;;
  set_includedirs ({[includedir]} ∪ includedirs c);;
  c ← get_config;
  let includedir_list := INCLUDEDIR_TEMPLATE <$> elements (includedirs c) in
  write_file (path c)
    (KRB5_CONF_TEMPLATE (concat includedir_list) (concat realms_list)
       (concat domain_realm_list)).

(** ** [Config.load] *)

Record load_state := mkLoad {
  in_realms_section : bool;
  in_realm : option string;
  realm_kdcs : gmap string (gset string);
  realm_adminservers : gmap string (option string);
  seen_includedirs : gset string
}.

(** [r'includedir (\S+)'] *)
Definition includedir_re : Re.regex := Re.lit "includedir " ++ Re.word_group.
(** [r'(\S+)\s+=\s+{'] *)
Definition realm_open_re : Re.regex :=
  Re.word_group ++ Re.spaces ++ Re.lit "=" ++ Re.spaces ++ Re.lit "{".
(** [r'kdc\s+=\s+(\S+)'] *)
Definition kdc_re : Re.regex :=
  Re.lit "kdc" ++ Re.spaces ++ Re.lit "=" ++ Re.spaces ++ Re.word_group.
(** [r'admin_server\s+=\s+(\S+)'] *)
Definition admin_server_re : Re.regex :=
  Re.lit "admin_server" ++ Re.spaces ++ Re.lit "=" ++ Re.spaces ++ Re.word_group.

(** [realm_kdcs[in_realm].add(kdc)] on the [defaultdict(set)] *)
Definition kdcs_add (realm kdc : string) (m : gmap string (gset string))
    : gmap string (gset string) :=
  <[realm := {[kdc]} ∪ default ∅ (m !! realm)]> m.

(** The body of [for line in krb5_conf]. *)
Definition load_line (st : load_state) (line : string) : load_state :=
  let '(mkLoad sec realm ks ads incs) := st in
  if startswith (strip line) "[realms]" then mkLoad true realm ks ads incs
  else if startswith (strip line) "[" then mkLoad false realm ks ads incs
  else if startswith (strip line) "includedir" then
    match Re.re_search includedir_re line with
    | Some m => mkLoad sec realm ks ads ({[Re.group 1 m]} ∪ incs)
    | None => st
    end
  else if sec then
    let line := strip line in
    if String.eqb line "" then st
    else
      match Re.re_search realm_open_re line with
      | Some m => mkLoad sec (Some (Re.group 1 m)) ks ads incs
      | None =>
          match realm with
          | Some (String _ _ as r) =>
              let ks' :=
                match Re.re_search kdc_re line with
                | Some m => kdcs_add r (Re.group 1 m) ks
                | None => ks
                end in
              let ads' :=
                match Re.re_search admin_server_re line with
                | Some m => <[r := Some (Re.group 1 m)]> ads
                | None => ads
                end in
              mkLoad sec realm ks' ads' incs
          | _ => st
          end
      end
  else st.

(** The scan of the whole text. *)
Definition load_text (incs : gset string) (text : string) : load_state :=
  fold_left load_line (readlines text) (mkLoad false None ∅ ∅ incs).

Definition load : M (gmap string (gset string) * gmap string (option string)) :=
  c ← get_config;
  w ← get_world;
  match files w !! path c with
  | None => ret (∅, ∅)
  | Some text =>
      let st := load_text (includedirs c) text in
      set_includedirs (seen_includedirs st);;
      ret (realm_kdcs st, realm_adminservers st)
  end.

(** ** [Config.get_path], [Config.get_ccname], [Config.__init__] *)

Definition get_path (env : gmap string string) : string :=
  match env !! "KRB5_CONFIG" with
  | Some p => p
  | None =>
      match env !! "ZENHOME" with
      | Some z => OsPath.join z ["var"; "krb5.conf"]
      | None =>
          match env !! "HOME" with
          | Some h => OsPath.join h [".txwinrm"; "krb5.conf"]
          | None => OsPath.join "/etc" ["krb5.conf"]
          end
      end
  end.

Definition get_ccname (env : gmap string string) (username : string) : string :=
  match env !! "ZENHOME" with
  | Some z => OsPath.join z ["var"; "krb5cc"; username]
  | None =>
      match env !! "HOME" with
      | Some h => OsPath.join h [".txwinrm"; "krb5cc"; username]
      | None => ""
      end
  end.

(** [os.environ[key] = value] *)
Definition environ_setitem (key value : string) : M unit :=
  fun w => (Ret tt, mkWorld (config w) (files w) (dirs w)
                      (<[key := value]> (environ w)) (log w)).

(** [Config()]: the singleton made when the module is imported. *)
Definition Config_init : M unit :=
  w ← get_world;
  let p := get_path (environ w) in
  set_config (mkConfig p ∅ ∅ ∅);;
  '(realm_kdcs, realm_adminservers) ← load;
  c ← get_config;
  set_config (mkConfig p (includedirs c) realm_kdcs realm_adminservers);;
  (* For further usage by kerberos python module. *)
  environ_setitem "KRB5_CONFIG" p.

(** ** [Config.add_kdc] *)

Record delta := mkDelta {
  valid_kdcs : list string;
  remove_kdcs : list string;
  admin_server : option string
}.

(** The pattern of [re.match]: anchored at the start, group 1 is one of
    the signs [+], [-] and [*], group 2 is the rest of the token up to a
    newline (dot-star). *)
Definition delta_re : Re.regex :=
  [Re.Piece (Re.OneOf ["+"; "-"; "*"]%char) Re.One true;
   Re.Piece Re.Dot Re.Star true].

Definition group1_is (m : option (list string)) (c : string) : bool :=
  match m with
  | Some g => String.eqb (Re.group 1 g) c
  | None => false
  end.

Definition group2 (m : option (list string)) : string :=
  match m with
  | Some g => Re.group 2 g
  | None => ""
  end.

(** The body of [for kdc in kdcs.split(',')]. *)
Definition delta_step (d : delta) (kdc : string) : delta :=
  let kdc := strip kdc in
  let m := Re.re_match delta_re kdc in
  if group1_is m "+" then
    mkDelta (valid_kdcs d ++ [strip (group2 m)]) (remove_kdcs d) (admin_server d)
  else if group1_is m "-" then
    mkDelta (valid_kdcs d) (remove_kdcs d ++ [strip (group2 m)]) (admin_server d)
  else if group1_is m "*" then
    let a := strip (group2 m) in
    mkDelta (valid_kdcs d ++ [a]) (remove_kdcs d) (Some a)
  else if negb (String.eqb kdc "") then
    mkDelta (valid_kdcs d ++ [kdc]) (remove_kdcs d) (admin_server d)
  else d.

Definition parse_delta (kdcs : string) : delta :=
  fold_left delta_step (split "," kdcs) (mkDelta [] [] None).

(** [if not admin_server and valid_kdcs: admin_server = valid_kdcs[0]] *)
Definition choose_admin (d : delta) : option string :=
  if truthy (admin_server d) then admin_server d
  else match valid_kdcs d with
       | first :: _ => Some first
       | [] => admin_server d
       end.

Definition symmetric_difference (a b : gset string) : gset string :=
  (a ∖ b) ∪ (b ∖ a).

Definition is_empty (s : gset string) : bool := bool_decide (s = ∅).

Definition add_kdc (realm kdcs : string) : M unit :=
  if String.eqb kdcs "" || String.eqb (strip kdcs) "" then ret tt
  else
    let d := parse_delta kdcs in
    let admin_server := choose_admin d in
    cur ← realms_getitem realm;
    let new_kdcs := symmetric_difference cur (list_to_set (valid_kdcs d)) in
    cur ← realms_getitem realm;
    let bad_kdcs := cur ∩ list_to_set (remove_kdcs d) in
    nothing_to_do ←
      (if is_empty new_kdcs && is_empty bad_kdcs then
         a ← admin_servers_getitem realm;
         ret (bool_decide (admin_server = a))
       else ret false);
    if (nothing_to_do : bool) then ret tt
    else
      cur ← realms_getitem realm;
      c ← get_config;
      set_realms (<[realm := (cur ∪ new_kdcs) ∖ bad_kdcs]> (realms c));;
      c ← get_config;
      set_admin_servers (<[realm := admin_server]> (admin_servers c));;
      save.

(** ** The process protocols *)

(** [class KlistProcessProtocol]: [self._error]. *)
Module Klist.

Record protocol := mkProtocol { _error : string }.

Definition init : protocol := mkProtocol "".

Definition marker : string :=
  "Included profile file could not be read while initializing krb5".

Definition errReceived (data : string) (p : protocol) : protocol :=
  if contains marker data then mkProtocol data else p.

(** The value [processEnded] hands to [self.d.callback]. *)
Definition processEnded (p : protocol) : option string :=
  if negb (String.eqb (_error p) "") then Some (_error p) else None.

End Klist.

(** [class KinitProcessProtocol]: [self._password], [self._data],
    [self._error]. *)
Module Kinit.

Record protocol := mkProtocol {
  _password : string;
  _data : string;
  _error : string
}.

Definition init (password : string) : protocol := mkProtocol password "" "".

Definition errReceived (data : string) (p : protocol) : protocol :=
  mkProtocol (_password p) (_data p) (_error p +:+ data).

(** [outReceived] and what it does to the transport. *)
Definition outReceived (data : string) (p : protocol) : protocol * list event :=
  let buffered := _data p +:+ data in
  if contains "Password for" buffered && contains ":" buffered then
    (mkProtocol (_password p) "" (_error p),
     [StdinWrite (_password p +:+ nl)])
  else if contains "Password expired" data then
    (* strip off '\nEnter new password:' *)
    (mkProtocol (_password p) buffered (hd "" (split nl_char data)),
     [Signal "KILL"])
  else (mkProtocol (_password p) buffered (_error p), []).

(** The value [processEnded] hands to [self.d.callback]. *)
Definition processEnded (p : protocol) : option string :=
  if negb (String.eqb (_error p) "") then Some (_error p) else None.

End Kinit.

(** ** The reactor

    What a spawned program prints is not the module's business: the
    reactor is a parameter.  Asked to spawn, it either raises or runs the
    program, whose output reaches the protocol chunk by chunk before
    [processEnded].  [add_includedir] and [kinit] are [inlineCallbacks]
    generators: their [Raise] is the failure of the Deferred they return,
    their [Ret] its result. *)

Inductive chunk :=
  | Out (data : string)     (* outReceived *)
  | Err (data : string).    (* errReceived *)

Inductive spawned :=
  | Refused (e : exn)
  | Ran (output : list chunk).

Definition reactor_model : Type :=
  world -> option string -> list (option string) -> list (string * string)
  -> spawned.

(** [for path in (...): if os.path.isfile(path): prog = path; break] *)
Fixpoint find_program (candidates : list string) : M (option string) :=
  match candidates with
  | [] => ret None
  | p :: rest =>
      f ← isfile p;
      if (f : bool) then ret (Some p) else find_program rest
  end.

Definition emit_events (es : list event) : M unit :=
  fun w => (Ret tt, mkWorld (config w) (files w) (dirs w) (environ w) (log w ++ es)).

Section Reactor.

Variable reactor : reactor_model.

(** [reactor.spawnProcess(protocol, executable, args, env)], up to the
    output the protocol will be fed. *)
Definition spawnProcess (exe : option string) (args : list (option string))
    (env : list (string * string)) : M (list chunk) :=
  emit_event (Spawned exe args env);;
  w ← get_world;
  match reactor w exe args env with
  | Refused e => raise e
  | Ran output => ret output
  end.

Definition klist_feed (p : Klist.protocol) (c : chunk) : Klist.protocol :=
  match c with
  | Out _ => p
  | Err data => Klist.errReceived data p
  end.

Fixpoint kinit_feed (p : Kinit.protocol) (output : list chunk)
    : M Kinit.protocol :=
  match output with
  | [] => ret p
  | Out data :: rest =>
      let '(p', es) := Kinit.outReceived data p in
      emit_events es;; kinit_feed p' rest
  | Err data :: rest => kinit_feed (Kinit.errReceived data p) rest
  end.

(** [Config.add_includedir] *)
Definition add_includedir (includedir : string) : M unit :=
  c ← get_config;
  if bool_decide (includedir ∈ includedirs c) then ret tt
  else
    set_includedirs ({[includedir]} ∪ includedirs c);;
    save;;
    (* test for valid directory *)
    klist ← find_program ["/usr/bin/klist"; "/usr/kerberos/bin/klist"];
    let klist_args := [klist] in
    c ← get_config;
    let klist_env := [("KRB5_CONFIG", path c)] in
    output ← spawnProcess klist klist_args klist_env;
    let results := Klist.processEnded (fold_left klist_feed output Klist.init) in
    if truthy results then
      c ← get_config;
      set_includedirs (includedirs c ∖ {[includedir]});;
      save
    else ret tt.

(** [kinit(username, password, kdc, includedir=None)] *)
Definition kinit (username password kdc : string) (includedir : option string)
    : M (option string) :=
  kinit ← find_program ["/usr/bin/kinit"; "/usr/kerberos/bin/kinit"];
  match kinit with
  | None => raise (Exception "krb5-workstation is not installed")
  | Some kinit =>
      match split "@" username with
      | [user; realm] =>
          let realm := upper realm in
          match includedir with
          | Some (String _ _ as dir) => add_includedir dir
          | _ => ret tt
          end;;
          add_kdc realm kdc;;
          w ← get_world;
          let ccname := get_ccname (environ w) username in
          let dirname := OsPath.dirname ccname in
          ensure_dir dirname;;
          let kinit_args := [Some kinit; Some (user +:+ "@" +:+ realm)] in
          c ← get_config;
          let kinit_env := [("KRB5_CONFIG", path c); ("KRB5CCNAME", ccname)] in
          output ← spawnProcess (Some kinit) kinit_args kinit_env;
          p ← kinit_feed (Kinit.init password) output;
          ret (Kinit.processEnded p)
      | _ => raise (Exception "kerberos username must be in user@domain format")
      end
  end.

End Reactor.

(** [ccname(username)] *)
Definition ccname (username : string) : M string :=
  w ← get_world; ret (get_ccname (environ w) username).


(** * The vocabulary of the properties *)

(** A string that is empty or made of whitespace only. *)
Fixpoint all_space (s : string) : bool :=
  match s with
  | "" => true
  | String c s' => isspace c && all_space s'
  end.

(** The longest run of characters of a class, and what follows it. *)
Fixpoint span (p : ascii → bool) (s : string) : string * string :=
  match s with
  | String c s' =>
      if p c then let '(run, rest) := span p s' in (String c run, rest)
      else ("", s)
  | "" => ("", "")
  end.

(** The world with another configuration. *)
Definition with_config (c : Config) (w : world) : world :=
  mkWorld c (files w) (dirs w) (environ w) (log w).

(** The KDCs of a realm, read without touching the mapping. *)
Definition kdcs_of (c : Config) (realm : string) : gset string :=
  default ∅ (realms c !! realm).

(** The configuration once [self.realms[realm]] has been read. *)
Definition touched (realm : string) (c : Config) : Config :=
  mkConfig (path c) (includedirs c)
    (match realms c !! realm with
     | Some _ => realms c
     | None => <[realm := ∅]> (realms c)
     end)
    (admin_servers c).

(** [new_kdcs] and [bad_kdcs] of [add_kdc]. *)
Definition new_kdcs_of (c : Config) (realm : string) (d : delta) : gset string :=
  symmetric_difference (kdcs_of c realm) (list_to_set (valid_kdcs d)).

Definition bad_kdcs_of (c : Config) (realm : string) (d : delta) : gset string :=
  kdcs_of c realm ∩ list_to_set (remove_kdcs d).

(** The configuration [add_kdc] hands to [save]. *)
Definition merged (realm : string) (d : delta) (c : Config) : Config :=
  mkConfig (path c) (includedirs c)
    (<[realm := (kdcs_of c realm ∪ new_kdcs_of c realm d) ∖ bad_kdcs_of c realm d]>
       (realms c))
    (<[realm := choose_admin d]> (admin_servers c)).

(** The directory [save] creates beside the file for user supplied
    options. *)
Definition config_dir (c : Config) : string :=
  OsPath.join (OsPath.dirname (path c)) ["config"].

(** The text [save] writes for the realm blocks [rl] and domain lines [dl]. *)
Definition rendered (c : Config) (rl dl : list string) : string :=
  KRB5_CONF_TEMPLATE
    (concat (INCLUDEDIR_TEMPLATE <$> elements ({[config_dir c]} ∪ includedirs c)))
    (concat rl) (concat dl).

(** The configuration after [save]: the directory above is registered. *)
Definition saved (c : Config) : Config :=
  mkConfig (path c) ({[config_dir c]} ∪ includedirs c) (realms c)
    (admin_servers c).

(** A world with the given configuration and nothing else: no file, no
    directory, an empty environment and an empty log. *)
Definition example_world (c : Config) : world := mkWorld c ∅ ∅ ∅ [].

(** The realm of the spec's example: KDCs A and B, admin server A. *)
Definition realm_AB : Config :=
  mkConfig "/opt/zenoss/var/krb5.conf" ∅ {["R" := {["A"; "B"]}]}
    {["R" := Some "A"]}.

(** A configuration with no realm at all. *)
Definition no_realm : Config := mkConfig "/opt/zenoss/var/krb5.conf" ∅ ∅ ∅.

(** The invariant of the data model: a realm with KDCs has an admin server
    that is one of them. *)
Definition admin_among_kdcs (c : Config) : Prop :=
  ∀ realm, kdcs_of c realm ≠ ∅ →
    ∃ a, admin_servers c !! realm = Some (Some a) ∧ a ∈ kdcs_of c realm.

(** The directory of the credential caches under a home directory. *)
Definition private_root (home sub : string) : string :=
  OsPath.join home [sub; "krb5cc"].



(** The configuration with one more include directory. *)
Definition registered (dir : string) (c : Config) : Config :=
  mkConfig (path c) ({[dir]} ∪ includedirs c) (realms c) (admin_servers c).

(** A reactor that, like Twisted, refuses an argument list holding a value
    that is not a string. *)
Definition strict_reactor : reactor_model :=
  λ _ exe args _,
    if forallb (λ a : option string, bool_decide (is_Some a)) args
    then Ran [] else Refused TypeError.

(** No whitespace at all. *)
Fixpoint all_nonspace (s : string) : bool :=
  match s with
  | "" => true
  | String c s' => negb (isspace c) && all_nonspace s'
  end.

(** A word: what the class [\S+] takes whole. *)
Definition word (s : string) : Prop := s ≠ "" ∧ all_nonspace s = true.

(** No newline. *)
Fixpoint no_nl (s : string) : bool :=
  match s with
  | "" => true
  | String c s' => negb (Ascii.eqb c nl_char) && no_nl s'
  end.

(** A pattern with a whitespace piece that must match. *)
Fixpoint needs_space (r : Re.regex) : bool :=
  match r with
  | [] => false
  | Re.Piece Re.Space Re.One _ :: _ => true
  | Re.Piece Re.Space Re.Plus _ :: _ => true
  | _ :: r' => needs_space r'
  end.

(** A property of every suffix of a string, the string itself first. *)
Fixpoint forall_suffix (P : string → Prop) (s : string) : Prop :=
  P s ∧ match s with
        | "" => True
        | String _ s' => forall_suffix P s'
        end.

(** The common tail of the two key-value patterns and the tail of the
    realm-open pattern. *)
Definition kv_tail : Re.regex :=
  Re.spaces ++ Re.lit "=" ++ Re.spaces ++ Re.word_group.
Definition open_tail : Re.regex :=
  Re.spaces ++ Re.lit "=" ++ Re.spaces ++ Re.lit "{".

(** The scan of [load] with the line under construction made explicit. *)
Definition scan (cur : string → string) (st : load_state) (text : string)
    : load_state :=
  fold_left load_line (lines_from cur text) st.

(** A realm name [save] can write and [load] reads back as it is: a word in
    upper case that does not start a section header. *)
Definition safe_realm_name (name : string) : Prop :=
  word name ∧ upper name = name ∧ startswith name "[" = false.

(** A host [load] reads back as it is: a word that does not look like the
    opening brace of a realm block. *)
Definition safe_host (h : string) : Prop :=
  word h ∧ startswith h "{" = false.

(** Text made of whole lines, none of which opens the realms section:
    outside that section the scan passes over it. *)
Definition quiet_text (t : string) : Prop :=
  ∀ old ks ads incs R, ∃ incs',
    scan (λ x, x) (mkLoad false old ks ads incs) (t +:+ R) =
    scan (λ x, x) (mkLoad false old ks ads incs') R.

(** An entry of [self.realms] that [save] writes is written so that [load]
    reads it back: its name and hosts are safe and its admin server is one
    of its KDCs. *)
Definition safe_entry (adm : gmap string (option string))
    (e : string * gset string) : Prop :=
  e.2 ≠ ∅ →
  safe_realm_name e.1 ∧ (∀ k, k ∈ e.2 → safe_host k) ∧
  ∃ a, adm !! e.1 = Some (Some a) ∧ a ∈ e.2.

(** The last character is a newline. *)
Fixpoint ends_nl (s : string) : bool :=
  match s with
  | "" => false
  | String c "" => Ascii.eqb c nl_char
  | String _ s' => ends_nl s'
  end.

(** The text in front of the include directives, the text between them and
    the realm blocks, and the text between the realm blocks and the domain
    lines. *)
Definition preamble : string :=
  "# This file is managed by the txwinrm python module." +:+ nl +:+
  "# NOTE: Any changes to the logging, libdefaults, domain_realm" +:+
  "# sections of this file will be overwritten." +:+ nl +:+
  "#" +:+ nl +:+
  nl.

Definition boilerplate : string :=
  nl +:+
  "[logging]" +:+ nl +:+
  " default = FILE:/var/log/krb5libs.log" +:+ nl +:+
  " kdc = FILE:/var/log/krb5kdc.log" +:+ nl +:+
  " admin_server = FILE:/var/log/kadmind.log" +:+ nl +:+
  nl +:+
  "[libdefaults]" +:+ nl +:+
  " default_realm = EXAMPLE.COM" +:+ nl +:+
  " dns_lookup_realm = false" +:+ nl +:+
  " dns_lookup_kdc = false" +:+ nl +:+
  " ticket_lifetime = 24h" +:+ nl +:+
  " renew_lifetime = 7d" +:+ nl +:+
  " forwardable = true" +:+ nl +:+
  nl +:+
  "[realms]" +:+ nl.

Definition realms_end : string := nl +:+ "[domain_realm]" +:+ nl.

(** What the codec carries through unchanged. *)
Definition round_trip_safe (c : Config) : Prop :=
  no_nl (path c) = true ∧
  (∀ d, d ∈ includedirs c → no_nl d = true) ∧
  ∀ realm kdcs, realms c !! realm = Some kdcs → kdcs ≠ ∅ →
    safe_realm_name realm ∧ ∀ k, k ∈ kdcs → safe_host k.

(** A realm whose only KDC, and admin server, has a blank inside. *)
Definition blank_host : Config :=
  mkConfig "/opt/zenoss/var/krb5.conf" ∅ {["R" := {["a b"]}]}
    {["R" := Some "a b"]}.

(** A realm as the documentation of [add_kdc] has it. *)
Definition example_realm : Config :=
  mkConfig "/opt/zenoss/var/krb5.conf" ∅
    {["EXAMPLE.COM" := {["10.10.10.10"; "kdc2.example.com"]}]}
    {["EXAMPLE.COM" := Some "10.10.10.10"]}.

(** ** The vocabulary of the further properties *)

(** Every realm that has KDCs has an admin-server entry under its
    upper-case name: what the loop of [save] looks up. *)
Definition saveable (c : Config) : Prop :=
  ∀ realm kdcs, realms c !! realm = Some kdcs → kdcs ≠ ∅ →
    is_Some (admin_servers c !! upper realm).

(** The file holds what [save] writes for the configuration in memory. *)
Definition persisted (w : world) : Prop :=
  ∃ rl dl,
    save_realms (admin_servers (config w)) (map_to_list (realms (config w)))
      = Ret (rl, dl) ∧
    files w !! path (config w) = Some (rendered (config w) rl dl).

(** A configuration read from a hand-written file with a lower-case realm. *)
Definition lower_case_realm : Config :=
  mkConfig "/opt/zenoss/var/krb5.conf" ∅ {["example.com" := {["10.10.10.10"]}]}
    {["example.com" := Some "10.10.10.10"]}.

(** The lines of a text none of which opens the realms section. *)
Definition no_realms_header (text : string) : Prop :=
  Forall (λ line, startswith (strip line) "[realms]" = false) (readlines text).

(** A file of key-value lines and a brace block, with no section header. *)
Definition headerless_text : string :=
  " EXAMPLE.COM = {" +:+ nl +:+ "  kdc = 10.10.10.10" +:+ nl +:+
  "  admin_server = 10.10.10.10" +:+ nl +:+ " }" +:+ nl.

(** Every character of a string is in a class. *)
Fixpoint all_chars (p : ascii → bool) (s : string) : bool :=
  match s with
  | "" => true
  | String c s' => p c && all_chars p s'
  end.

(** The number of groups of a pattern. *)
Fixpoint group_count (r : Re.regex) : nat :=
  match r with
  | [] => 0
  | Re.Piece _ _ true :: r' => S (group_count r')
  | _ :: r' => group_count r'
  end.

(** Every group of the pattern is [(\S+)]. *)
Fixpoint groups_are_words (r : Re.regex) : bool :=
  match r with
  | [] => true
  | Re.Piece Re.NonSpace Re.Plus true :: r' => groups_are_words r'
  | Re.Piece _ _ true :: _ => false
  | _ :: r' => groups_are_words r'
  end.

(** The state of the scan holds words only. *)
Definition holds_words (known : gset string) (st : load_state) : Prop :=
  (∀ r, in_realm st = Some r → word r) ∧
  (∀ r ks, realm_kdcs st !! r = Some ks → word r ∧ ∀ k, k ∈ ks → word k) ∧
  (∀ r a, realm_adminservers st !! r = Some a →
          word r ∧ ∃ s, a = Some s ∧ word s) ∧
  (∀ d, d ∈ seen_includedirs st → d ∈ known ∨ word d).

(** A file whose values have blanks and trailing text. *)
Definition untidy_text : string :=
  "includedir /etc/krb5.d  # extra" +:+ nl +:+
  "[realms]" +:+ nl +:+
  "  EXAMPLE.COM   =   {" +:+ nl +:+
  "    kdc = 10.10.10.10 backup" +:+ nl +:+
  "    admin_server =   10.10.10.10" +:+ nl +:+
  "  }" +:+ nl.

(** The world with that file at the path of the configuration. *)
Definition untidy_world : world :=
  mkWorld no_realm {["/opt/zenoss/var/krb5.conf" := untidy_text]} ∅ ∅ [].

(** The two maps a [load] returned, empty if it raised. *)
Definition loaded {A B} `{Empty A, Empty B} (o : outcome (A * B)) : A * B :=
  match o with
  | Ret r => r
  | Raise _ => (∅, ∅)
  end.

(** The standard-error chunks that carry the marker, in order. *)
Definition marked_errs (output : list chunk) : list string :=
  omap (λ c, match c with
             | Err data => if contains Klist.marker data then Some data else None
             | Out _ => None
             end) output.

(** A reactor under which every program prints the same output. *)
Definition printing (output : list chunk) : reactor_model :=
  λ _ _ _ _, Ran output.

(** What the program printed on standard output and on standard error. *)
Definition stdout_of (output : list chunk) : string :=
  concat (omap (λ c, match c with Out d => Some d | Err _ => None end) output).
Definition stderr_of (output : list chunk) : string :=
  concat (omap (λ c, match c with Err d => Some d | Out _ => None end) output).

(** The password was written to the program. *)
Definition is_stdin_write (e : event) : bool :=
  match e with
  | StdinWrite _ => true
  | _ => false
  end.

(** The program was sent a signal. *)
Definition is_signal (e : event) : bool :=
  match e with
  | Signal _ => true
  | _ => false
  end.

(** No chunk of standard output tells of an expired password. *)
Definition no_expiry (output : list chunk) : Prop :=
  Forall (λ c, match c with
               | Out d => contains "Password expired" d = false
               | Err _ => True
               end) output.

(** What [save], [add_kdc] and [add_includedir] leave alone, however they
    end: the path of the file and the environment; and none of them makes
    a directory of the empty path. *)
Definition framed (w w' : world) : Prop :=
  path (config w') = path (config w) ∧ environ w' = environ w ∧
  ("" ∉ dirs w → "" ∉ dirs w').

(** The call of the kinit program for a user of a realm. *)
Definition kinit_call (prog user realm username : string) (w : world) : event :=
  Spawned (Some prog) [Some prog; Some (user +:+ "@" +:+ upper realm)]
    [("KRB5_CONFIG", path (config w));
     ("KRB5CCNAME", get_ccname (environ w) username)].

(** A machine with kinit installed and a home directory. *)
Definition workstation : world :=
  mkWorld no_realm {["/usr/bin/kinit" := ""]} ∅ {["HOME" := "/home/alice"]} [].

(** Two realms, one of them the realm of the documentation. *)
Definition two_realms : Config :=
  mkConfig "/opt/zenoss/var/krb5.conf" ∅
    {["EXAMPLE.COM" := {["10.10.10.10"; "kdc2.example.com"]};
      "OTHER.ORG" := {["kdc.other.org"]}]}
    {["EXAMPLE.COM" := Some "10.10.10.10"; "OTHER.ORG" := Some "kdc.other.org"]}.

(** * Properties *)

#[local] Arguments Ascii.eqb : simpl never.
#[local] Arguments isspace : simpl never.

(** ** Strings *)

Lemma lstrip_all_space s : all_space s = true → lstrip s = "".
Proof.
  induction s as [|c s IH]; simpl; [done|].
  intros [Hc Hs]%andb_true_iff. by rewrite Hc; apply IH.
Qed.

Lemma strip_all_space s : all_space s = true → strip s = "".
Proof. intros H. unfold strip. by rewrite lstrip_all_space. Qed.

Lemma rstrip_nil_all_space s : rstrip s = "" → all_space s = true.
Proof.
  unfold rstrip. induction s as [|c s IH]; simpl; [done|].
  destruct (rstrip_by isspace s); [|done].
  destruct (isspace c); [|done]. intros _. by apply IH.
Qed.

Lemma lstrip_space_all_space s : all_space (lstrip s) = true → all_space s = true.
Proof.
  induction s as [|c s IH]; simpl; [done|].
  destruct (isspace c) eqn:Hc; simpl; [done|]. by rewrite Hc.
Qed.

Lemma strip_nil_all_space s : strip s = "" → all_space s = true.
Proof.
  intros H. by apply lstrip_space_all_space, rstrip_nil_all_space.
Qed.

Lemma split_all_space sep s :
  isspace sep = false → all_space s = true → split sep s = [s].
Proof.
  intros Hsep. induction s as [|c s IH]; simpl; [done|].
  intros [Hc Hs]%andb_true_iff.
  destruct (Ascii.eqb_spec c sep) as [->|_]; [congruence|].
  by rewrite IH.
Qed.

(** ** The regular-expression matcher *)

(** A repetition whose longest run lets the rest match takes that run. *)
Lemma greedy_longest {A} p (k : string → string → option A) s r :
  k (span p s).1 (span p s).2 = Some r → Re.greedy p k s = Some r.
Proof.
  revert k. induction s as [|c s IH]; intros k; simpl; [done|].
  destruct (p c); [|done]. intros Hk.
  rewrite (IH (λ taken rest, k (String c taken) rest)); [done|].
  by destruct (span p s).
Qed.

(** ** [add_kdc]: the delta *)

Lemma delta_step_minus d t rest :
  strip t = String "-" rest →
  delta_step d t =
    mkDelta (valid_kdcs d)
      (remove_kdcs d ++ [strip (group2 (Re.re_match delta_re (strip t)))])
      (admin_server d).
Proof.
  intros Ht. unfold delta_step. rewrite Ht.
  assert (∃ g, Re.re_match delta_re (String "-" rest) = Some ["-"; g]) as [g Hg].
  { unfold Re.re_match, delta_re. simpl.
    destruct (span (Re.cmatch Re.Dot) rest) as [run rest'] eqn:Hsp.
    exists run. erewrite greedy_longest; [done|]. by rewrite Hsp. }
  by rewrite Hg.
Qed.

Lemma startswith_minus s :
  startswith s "-" = true → ∃ rest, s = String "-" rest.
Proof.
  destruct s as [|c s]; simpl; [done|].
  intros [->%Ascii.eqb_eq _]%andb_true_iff. by eexists.
Qed.

(** A delta of removals only adds nothing and names no admin server. *)
Lemma parse_removals_only tokens d :
  Forall (λ t, startswith (strip t) "-" = true) tokens →
  valid_kdcs d = [] → admin_server d = None →
  valid_kdcs (fold_left delta_step tokens d) = [] ∧
  admin_server (fold_left delta_step tokens d) = None.
Proof.
  intros Htok. revert d. induction Htok as [|t tokens Ht _ IH]; intros d Hv Ha.
  - done.
  - simpl. destruct (startswith_minus _ Ht) as [rest Hrest].
    apply IH; by rewrite (delta_step_minus _ _ _ Hrest).
Qed.

Lemma removals_only_not_blank kdcs :
  Forall (λ t, startswith (strip t) "-" = true) (split "," kdcs) →
  String.eqb kdcs "" || String.eqb (strip kdcs) "" = false.
Proof.
  intros Htok.
  assert (strip kdcs ≠ "") as Hne.
  { intros Hs. pose proof (strip_nil_all_space _ Hs) as Hsp.
    rewrite (split_all_space ","%char _ eq_refl Hsp) in Htok.
    apply Forall_cons in Htok as [Ht _]. by rewrite Hs in Ht. }
  apply orb_false_iff. split; apply String.eqb_neq; [|done].
  intros ->. by apply Hne.
Qed.

(** ** [add_kdc]: what one call does *)

(** Running the monad's plumbing, leaving [save] and the delta folded. *)
Ltac run_monad :=
  repeat progress
    (unfold mbind, M_bind, bind, mret, M_ret, ret, raise, lift, get_config,
       get_world, set_config, set_realms, set_admin_servers, set_includedirs,
       realms_getitem, admin_servers_getitem, emit_event, emit_events;
     cbn beta iota zeta delta
       [config files dirs environ log path includedirs realms admin_servers
        fst snd]).

Lemma add_kdc_blank realm kdcs w :
  strip kdcs = "" → add_kdc realm kdcs w = (Ret tt, w).
Proof.
  intros H. unfold add_kdc. rewrite H. simpl. by rewrite orb_true_r.
Qed.

Lemma add_kdc_unfold realm kdcs w :
  String.eqb kdcs "" || String.eqb (strip kdcs) "" = false →
  add_kdc realm kdcs w =
    let c := config w in
    let d := parse_delta kdcs in
    if is_empty (new_kdcs_of c realm d) && is_empty (bad_kdcs_of c realm d) then
      match admin_servers c !! realm with
      | None => (Raise (KeyError realm), with_config (touched realm c) w)
      | Some a =>
          if bool_decide (choose_admin d = a)
          then (Ret tt, with_config (touched realm c) w)
          else save (with_config (merged realm d c) w)
      end
    else save (with_config (merged realm d c) w).
Proof.
  intros Hnb. unfold add_kdc. rewrite Hnb.
  destruct w as [[p incs rs ads] fs ds env lg].
  unfold merged, touched, with_config, new_kdcs_of, bad_kdcs_of, kdcs_of.
  run_monad.
  destruct (rs !! realm) as [cur|] eqn:Hcur; run_monad;
    rewrite ?Hcur, ?lookup_insert_eq; run_monad.
  - destruct (is_empty _ && is_empty _); run_monad;
      [destruct (ads !! realm) as [a|]; run_monad;
       [destruct (bool_decide _); run_monad|]|];
      rewrite ?Hcur; run_monad; done.
  - destruct (is_empty _ && is_empty _); run_monad;
      [destruct (ads !! realm) as [a|]; run_monad;
       [destruct (bool_decide _); run_monad|]|];
      rewrite ?lookup_insert_eq; run_monad; rewrite ?insert_insert_eq; done.
Qed.

(** C9. An empty or whitespace-only delta makes [add_kdc] a no-op: the
    world after the call is the world before it, so the realms, the admin
    servers and the include directories are unchanged and nothing is
    written (the log of effects and the files are the same). *)
Theorem add_kdc_blank_noop realm kdcs w :
  all_space kdcs = true → add_kdc realm kdcs w = (Ret tt, w).
Proof. intros H. by apply add_kdc_blank, strip_all_space. Qed.

Lemma add_kdc_blank_noop_witness :
  all_space "  " = true ∧
  add_kdc "EXAMPLE.COM" "  "
    (mkWorld (mkConfig "/etc/krb5.conf" ∅ ∅ ∅) ∅ ∅ ∅ []) =
  (Ret tt, mkWorld (mkConfig "/etc/krb5.conf" ∅ ∅ ∅) ∅ ∅ ∅ []).
Proof. split; [reflexivity | by apply add_kdc_blank_noop]. Defined.

(** C10. For a realm that was never merged or loaded (no admin-server
    entry and no KDC), a delta whose tokens are all removals makes
    [add_kdc] raise [KeyError]: the no-change check reads
    [admin_servers[realm]] on the plain dict.  Nothing is written; the only
    trace is the empty entry the defaultdict made for the realm. *)
Theorem add_kdc_removals_unknown_realm_KeyError realm kdcs w :
  admin_servers (config w) !! realm = None →
  kdcs_of (config w) realm = ∅ →
  Forall (λ t, startswith (strip t) "-" = true) (split "," kdcs) →
  add_kdc realm kdcs w =
    (Raise (KeyError realm), with_config (touched realm (config w)) w).
Proof.
  intros Hadm Hcur Htok.
  rewrite add_kdc_unfold; [|by apply removals_only_not_blank].
  destruct (parse_removals_only _ (mkDelta [] [] None) Htok eq_refl eq_refl)
    as [Hv _].
  fold (parse_delta kdcs) in Hv.
  cbn zeta. unfold new_kdcs_of, bad_kdcs_of. rewrite Hcur, Hv, Hadm.
  assert (is_empty (symmetric_difference ∅ (list_to_set [])) = true) as ->.
  { apply bool_decide_eq_true. unfold symmetric_difference. set_solver. }
  assert (is_empty (∅ ∩ list_to_set (remove_kdcs (parse_delta kdcs))) = true)
    as ->.
  { apply bool_decide_eq_true. set_solver. }
  done.
Qed.

Lemma add_kdc_removals_unknown_realm_KeyError_witness :
  add_kdc "EXAMPLE.COM" "-10.10.10.40, -10.10.10.50"
    (mkWorld (mkConfig "/etc/krb5.conf" ∅ ∅ ∅) ∅ ∅ ∅ []) =
  (Raise (KeyError "EXAMPLE.COM"),
   with_config (touched "EXAMPLE.COM" (mkConfig "/etc/krb5.conf" ∅ ∅ ∅))
     (mkWorld (mkConfig "/etc/krb5.conf" ∅ ∅ ∅) ∅ ∅ ∅ [])).
Proof.
  apply add_kdc_removals_unknown_realm_KeyError.
  - reflexivity.
  - reflexivity.
  - vm_compute. repeat constructor.
Defined.

(** ** [save]: what a successful call leaves behind *)

Lemma union_twice (x : string) (s : gset string) :
  {[x]} ∪ ({[x]} ∪ s) = {[x]} ∪ s.
Proof. set_solver. Qed.

Lemma saved_idemp c : saved (saved c) = saved c.
Proof. unfold saved, config_dir. simpl. by rewrite union_twice. Qed.

Lemma rendered_saved c rl dl : rendered (saved c) rl dl = rendered c rl dl.
Proof. unfold rendered, saved, config_dir. simpl. by rewrite union_twice. Qed.

Lemma ensure_dir_present d w : d ∈ dirs w → ensure_dir d w = (Ret tt, w).
Proof.
  intros Hd. unfold ensure_dir, isdir. run_monad.
  by rewrite bool_decide_eq_true_2.
Qed.

Lemma ensure_dir_ok d w w' :
  ensure_dir d w = (Ret tt, w') →
  config w' = config w ∧ files w' = files w ∧ environ w' = environ w ∧
  d ∈ dirs w' ∧ dirs w ⊆ dirs w' ∧ ∃ made, log w' = log w ++ made.
Proof.
  unfold ensure_dir, isdir. run_monad. case_bool_decide as Hd.
  - intros [= <-]. repeat split; [done..|]. exists []. by rewrite app_nil_r.
  - unfold makedirs. destruct (String.eqb d ""); [done|].
    intros [= <-]. simpl. repeat split; [set_solver..|]. by eexists.
Qed.

(** With both directories in place [save] only rewrites the file. *)
Lemma save_in_place w rl dl :
  let c := config w in
  save_realms (admin_servers c) (map_to_list (realms c)) = Ret (rl, dl) →
  OsPath.dirname (path c) ∈ dirs w → config_dir c ∈ dirs w →
  save w =
    (Ret tt,
     mkWorld (saved c) (<[path c := rendered c rl dl]> (files w)) (dirs w)
       (environ w) (log w ++ [Wrote (path c) (rendered c rl dl)])).
Proof.
  intros c Hr Hd Hc. unfold save. run_monad. fold c. rewrite Hr. run_monad.
  rewrite (ensure_dir_present _ _ Hd).
  fold (config_dir c). rewrite (ensure_dir_present _ _ Hc).
  by unfold write_file.
Qed.

Lemma save_ok w w1 :
  save w = (Ret tt, w1) →
  let c := config w in
  ∃ rl dl made,
    save_realms (admin_servers c) (map_to_list (realms c)) = Ret (rl, dl) ∧
    config w1 = saved c ∧
    files w1 = <[path c := rendered c rl dl]> (files w) ∧
    environ w1 = environ w ∧
    OsPath.dirname (path c) ∈ dirs w1 ∧ config_dir c ∈ dirs w1 ∧
    log w1 = log w ++ made ++ [Wrote (path c) (rendered c rl dl)].
Proof.
  intros Hs c. unfold save in Hs. revert Hs. run_monad. fold c.
  destruct (save_realms _ _) as [[rl dl]|e]; [|done]. run_monad.
  destruct (ensure_dir (OsPath.dirname (path c)) w) as [[[]|e] w2] eqn:E1;
    [|done].
  apply ensure_dir_ok in E1 as (Hc2 & Hf2 & He2 & Hd2 & Hsub2 & made2 & Hl2).
  fold (config_dir c).
  destruct (ensure_dir (config_dir c) w2) as [[[]|e] w3] eqn:E2; [|done].
  apply ensure_dir_ok in E2 as (Hc3 & Hf3 & He3 & Hd3 & Hsub3 & made3 & Hl3).
  unfold write_file. run_monad. intros [= <-]. simpl.
  exists rl, dl, (made2 ++ made3).
  rewrite Hc3, Hc2, Hf3, Hf2, He3, He2, Hl3, Hl2. fold c.
  repeat split; [set_solver..|]. by rewrite <- !app_assoc.
Qed.

(** ** [add_kdc]: the admin server *)

Lemma blank_iff kdcs :
  String.eqb kdcs "" || String.eqb (strip kdcs) "" = true ↔ strip kdcs = "".
Proof.
  rewrite orb_true_iff, !String.eqb_eq. split; [|by right].
  by intros [->|?].
Qed.

Lemma parse_delta_blank kdcs :
  strip kdcs = "" → parse_delta kdcs = mkDelta [] [] None.
Proof.
  intros Hs. unfold parse_delta.
  rewrite (split_all_space ","%char _ eq_refl (strip_nil_all_space _ Hs)).
  simpl. unfold delta_step. by rewrite Hs.
Qed.

Lemma group1_star s :
  group1_is (Re.re_match delta_re s) "*" = true → startswith s "*" = true.
Proof.
  unfold Re.re_match, delta_re. destruct s as [|c s]; simpl; [done|].
  destruct (_ || _); [|done].
  destruct (Re.greedy _ _ _) as [g|]; simpl; [|done].
  destruct (Ascii.eqb_spec c "*") as [->|]; [|done]. by destruct s.
Qed.

Lemma delta_step_no_star d t :
  startswith (strip t) "*" = false →
  admin_server (delta_step d t) = admin_server d.
Proof.
  intros Ht. unfold delta_step.
  destruct (group1_is _ "+"); [done|].
  destruct (group1_is _ "-"); [done|].
  destruct (group1_is _ "*") eqn:Hstar.
  - apply group1_star in Hstar. congruence.
  - by destruct (negb _).
Qed.

(** Without a starred token the delta names no admin server. *)
Lemma parse_no_star tokens d :
  Forall (λ t, startswith (strip t) "*" = false) tokens →
  admin_server (fold_left delta_step tokens d) = admin_server d.
Proof.
  intros Htok. revert d. induction Htok as [|t tokens Ht _ IH]; intros d.
  - done.
  - simpl. by rewrite IH, delta_step_no_star.
Qed.

(** A call that returns normally either found nothing to do or saved the
    merged configuration. *)
Lemma add_kdc_ok realm kdcs w w' :
  add_kdc realm kdcs w = (Ret tt, w') →
  strip kdcs ≠ "" →
  let c := config w in
  let d := parse_delta kdcs in
  (new_kdcs_of c realm d = ∅ ∧ bad_kdcs_of c realm d = ∅ ∧
   admin_servers c !! realm = Some (choose_admin d) ∧
   w' = with_config (touched realm c) w)
  ∨ (¬ (new_kdcs_of c realm d = ∅ ∧ bad_kdcs_of c realm d = ∅ ∧
        admin_servers c !! realm = Some (choose_admin d)) ∧
     save (with_config (merged realm d c) w) = (Ret tt, w')).
Proof.
  intros Hrun Hnb c d.
  rewrite add_kdc_unfold in Hrun.
  2: { destruct (_ || _) eqn:E; [|done]. by apply blank_iff in E. }
  cbn zeta in Hrun. fold c d in Hrun. unfold is_empty in Hrun.
  do 2 case_bool_decide; simpl in Hrun.
  - destruct (admin_servers c !! realm) as [a|]; [|done].
    case_bool_decide; [subst a; left; split_and!; congruence|].
    right. split; [|done]. intros (_ & _ & [=]). congruence.
  - right. split; [|done]. by intros (_ & ? & _).
  - right. split; [|done]. by intros (? & _).
  - right. split; [|done]. by intros (? & _).
Qed.

Lemma add_kdc_ok_admin realm kdcs w w' :
  add_kdc realm kdcs w = (Ret tt, w') →
  strip kdcs ≠ "" →
  admin_servers (config w') !! realm = Some (choose_admin (parse_delta kdcs)).
Proof.
  intros Hrun Hnb.
  destruct (add_kdc_ok _ _ _ _ Hrun Hnb) as [(_ & _ & Ha & ->)|[_ Hs]].
  - done.
  - apply save_ok in Hs as (rl & dl & made & _ & -> & _). simpl.
    apply lookup_insert_eq.
Qed.

(** C2, as stated, fails: on KDCs A, B with admin server A the delta
    [+C,-B] does not leave the admin server at A. *)
Lemma add_kdc_admin_not_retained :
  ¬ (admin_servers (config (add_kdc "R" "+C,-B" (example_world realm_AB)).2)
       !! "R" = Some (Some "A")).
Proof. by vm_compute. Qed.

(** C2, amended.  When no token of the delta is starred and the delta adds
    at least one host, a call that returns normally leaves the realm's
    admin server at the first added host of the delta, whether or not the
    realm had an admin server before.  On KDCs A, B with admin server A the
    delta [+C,-B] yields KDCs A, C with admin server C; on a realm without
    KDCs the delta [*D,E] yields KDCs D, E with admin server D. *)
Theorem add_kdc_admin_first_added :
  (∀ realm kdcs w w' first rest,
     Forall (λ t, startswith (strip t) "*" = false) (split "," kdcs) →
     valid_kdcs (parse_delta kdcs) = first :: rest →
     add_kdc realm kdcs w = (Ret tt, w') →
     admin_servers (config w') !! realm = Some (Some first)) ∧
  (let r := add_kdc "R" "+C,-B" (example_world realm_AB) in
   r.1 = Ret tt ∧ kdcs_of (config r.2) "R" = {["A"; "C"]} ∧
   admin_servers (config r.2) !! "R" = Some (Some "C")) ∧
  (let r := add_kdc "R" "*D,E" (example_world no_realm) in
   r.1 = Ret tt ∧ kdcs_of (config r.2) "R" = {["D"; "E"]} ∧
   admin_servers (config r.2) !! "R" = Some (Some "D")).
Proof.
  split; [|by vm_compute].
  intros realm kdcs w w' first rest Hstar Hvalid Hrun.
  assert (strip kdcs ≠ "") as Hnb.
  { intros Hb. by rewrite (parse_delta_blank _ Hb) in Hvalid. }
  rewrite (add_kdc_ok_admin _ _ _ _ Hrun Hnb). f_equal.
  unfold choose_admin.
  assert (admin_server (parse_delta kdcs) = None) as ->.
  { unfold parse_delta. by rewrite parse_no_star. }
  by rewrite Hvalid.
Qed.

Lemma add_kdc_admin_first_added_witness :
  admin_servers
    (config (add_kdc "R" "-B, C ,+D" (example_world realm_AB)).2) !! "R" =
  Some (Some "C").
Proof.
  apply (proj1 add_kdc_admin_first_added "R" "-B, C ,+D"
           (example_world realm_AB) _ "C" ["D"]).
  - vm_compute. repeat constructor.
  - reflexivity.
  - vm_compute. reflexivity.
Defined.

(** ** [add_kdc]: the admin server and the KDC set *)

Lemma realm_AB_admin_among_kdcs : admin_among_kdcs realm_AB.
Proof.
  intros realm Hne. destruct (decide (realm = "R")) as [->|Hr].
  - exists "A". split; [done|]. unfold kdcs_of, realm_AB. simpl.
    rewrite lookup_singleton_eq. simpl. set_solver.
  - exfalso. apply Hne. unfold kdcs_of, realm_AB. simpl.
    by rewrite lookup_singleton_ne.
Qed.

(** C1.  The code at the failing input: on KDCs A, B with admin server A
    (the invariant holds) the delta [-B] returns normally and leaves the
    realm with the KDC A and [None] as its admin server, so the invariant
    no longer holds. *)
Theorem add_kdc_removal_drops_admin :
  admin_among_kdcs realm_AB ∧
  let r := add_kdc "R" "-B" (example_world realm_AB) in
  r.1 = Ret tt ∧ kdcs_of (config r.2) "R" = {["A"]} ∧
  admin_servers (config r.2) !! "R" = Some None ∧
  ¬ admin_among_kdcs (config r.2).
Proof.
  split; [apply realm_AB_admin_among_kdcs|].
  assert (kdcs_of (config (add_kdc "R" "-B" (example_world realm_AB)).2) "R"
          = {["A"]}) as Hk by by vm_compute.
  assert (admin_servers (config (add_kdc "R" "-B" (example_world realm_AB)).2)
            !! "R" = Some None) as Ha by by vm_compute.
  cbn zeta. split_and!; [by vm_compute|done|done|].
  intros Hinv. destruct (Hinv "R") as (a & Ha' & _).
  - rewrite Hk. set_solver.
  - congruence.
Qed.

(** ** [add_kdc] twice *)

(** The set algebra of one merge followed by the same merge. *)
Section MergeSets.
Context (cur V Rm : gset string).
Hypothesis disjoint : V ## Rm.

Let cur1 : gset string := (cur ∪ symmetric_difference cur V) ∖ (cur ∩ Rm).

Lemma merged_no_bad : cur1 ∩ Rm = ∅.
Proof.
  apply set_eq. intros x. subst cur1. unfold symmetric_difference.
  set_unfold. specialize (disjoint x). tauto.
Qed.

Lemma merged_fixed :
  (cur1 ∪ symmetric_difference cur1 V) ∖ ∅ = cur1.
Proof.
  apply set_eq. intros x. subst cur1. unfold symmetric_difference.
  set_unfold. specialize (disjoint x).
  destruct (decide (x ∈ cur)), (decide (x ∈ V)), (decide (x ∈ Rm)); tauto.
Qed.

Lemma merged_no_new : cur ⊆ V ∪ Rm → symmetric_difference cur1 V = ∅.
Proof.
  intros Hsub. apply set_eq. intros x. subst cur1.
  unfold symmetric_difference. set_unfold.
  specialize (disjoint x). specialize (Hsub x).
  destruct (decide (x ∈ cur)), (decide (x ∈ V)), (decide (x ∈ Rm)); tauto.
Qed.
(** The second check finds nothing new only when the delta names every
    host the realm had. *)
Lemma merged_new_empty : symmetric_difference cur1 V = ∅ → cur ⊆ V ∪ Rm.
Proof.
  intros He x Hx. subst cur1. unfold symmetric_difference in He.
  apply (f_equal (λ s : gset string, bool_decide (x ∈ s))) in He.
  rewrite (bool_decide_eq_false_2 (x ∈ (∅ : gset string))) in He by set_solver.
  apply bool_decide_eq_false in He. set_unfold.
  destruct (decide (x ∈ V)), (decide (x ∈ Rm)); tauto.
Qed.

Lemma nothing_new_within : symmetric_difference cur V = ∅ → cur ⊆ V ∪ Rm.
Proof.
  intros He x Hx. unfold symmetric_difference in He.
  apply (f_equal (λ s : gset string, bool_decide (x ∈ s))) in He.
  rewrite (bool_decide_eq_false_2 (x ∈ (∅ : gset string))) in He by set_solver.
  apply bool_decide_eq_false in He. set_unfold.
  destruct (decide (x ∈ V)); tauto.
Qed.
End MergeSets.

Lemma kdcs_of_touched realm c r : kdcs_of (touched realm c) r = kdcs_of c r.
Proof.
  unfold kdcs_of, touched. simpl.
  destruct (realms c !! realm) eqn:E; [done|].
  destruct (decide (realm = r)) as [<-|Hne].
  - by rewrite lookup_insert_eq, E.
  - by rewrite lookup_insert_ne.
Qed.

Lemma touched_idemp realm c : touched realm (touched realm c) = touched realm c.
Proof.
  unfold touched. simpl. destruct (realms c !! realm) eqn:E; simpl.
  - by rewrite E.
  - by rewrite lookup_insert_eq.
Qed.

Lemma touched_present realm c :
  is_Some (realms c !! realm) → touched realm c = c.
Proof. intros [s Hs]. unfold touched. rewrite Hs. by destruct c. Qed.

Lemma is_empty_true (s : gset string) : s = ∅ → is_empty s = true.
Proof. intros ->. by apply bool_decide_eq_true_2. Qed.

Lemma config_with_config c w : config (with_config c w) = c.
Proof. done. Qed.

Lemma with_config_id w : with_config (config w) w = w.
Proof. by destruct w. Qed.

(** C3, as stated, fails: on KDCs A, B the delta [C], applied a second
    time, changes nothing in the configuration and writes the file again. *)
Lemma add_kdc_twice_writes_again :
  let w1 := (add_kdc "R" "C" (example_world realm_AB)).2 in
  let w2 := (add_kdc "R" "C" w1).2 in
  ¬ (config w2 = config w1 ∧ log w2 = log w1).
Proof.
  cbn zeta. intros [_ Hlog]. apply (f_equal length) in Hlog.
  vm_compute in Hlog. discriminate.
Qed.

(** A delta that both adds and removes a host is not even idempotent on
    the configuration: the realm flips between no KDC and the KDC A. *)
Lemma add_kdc_twice_flips :
  let c := mkConfig "/opt/zenoss/var/krb5.conf" ∅ {["R" := {["A"]}]}
             {["R" := Some "A"]} in
  let w1 := (add_kdc "R" "A,-A" (example_world c)).2 in
  let w2 := (add_kdc "R" "A,-A" w1).2 in
  kdcs_of (config w1) "R" = ∅ ∧ kdcs_of (config w2) "R" = {["A"]}.
Proof. by vm_compute. Qed.

(** C3, amended.  When the delta names no host both as an addition and as
    a removal and the first call returns normally, the second call with the
    same arguments returns normally too and leaves the configuration, the
    directories, the environment and every file but the configuration file
    as the first call left them.  If the delta is blank or names every KDC
    the realm had before the first call, the second call changes nothing at
    all: no file is written.  Otherwise the check does not short-circuit
    and the second call writes the configuration file once more, and does
    nothing else.  The text of that write is left open: the KDC lines come
    in the iteration order of a set the first call has rebuilt, so they
    need not be in the order of the first write. *)
Theorem add_kdc_twice realm kdcs w w1 :
  let d := parse_delta kdcs in
  let V : gset string := list_to_set (valid_kdcs d) in
  let Rm : gset string := list_to_set (remove_kdcs d) in
  add_kdc realm kdcs w = (Ret tt, w1) →
  V ## Rm →
  ∃ w2, add_kdc realm kdcs w1 = (Ret tt, w2) ∧
        config w2 = config w1 ∧
        dirs w2 = dirs w1 ∧ environ w2 = environ w1 ∧
        (∀ f, f ≠ path (config w1) → files w2 !! f = files w1 !! f) ∧
        (strip kdcs = "" ∨ kdcs_of (config w) realm ⊆ V ∪ Rm → w2 = w1) ∧
        (strip kdcs ≠ "" → ¬ kdcs_of (config w) realm ⊆ V ∪ Rm →
         ∃ text,
           files w2 = <[path (config w1) := text]> (files w1) ∧
           log w2 = log w1 ++ [Wrote (path (config w1)) text]).
Proof.
  intros d V Rm Hrun Hdisj.
  destruct (decide (strip kdcs = "")) as [Hb|Hnb].
  { rewrite add_kdc_blank in Hrun by done. injection Hrun as <-.
    exists w. rewrite add_kdc_blank by done. by split_and!. }
  assert (String.eqb kdcs "" || String.eqb (strip kdcs) "" = false) as Hnb'.
  { destruct (_ || _) eqn:E; [|done]. by apply blank_iff in E. }
  destruct (add_kdc_ok _ _ _ _ Hrun Hnb) as [(Hn & Hbd & Ha & ->)|[_ Hs]].
  - (* the first call found nothing to do *)
    exists (with_config (touched realm (config w)) w).
    rewrite add_kdc_unfold by done. cbn zeta. rewrite !config_with_config.
    unfold new_kdcs_of, bad_kdcs_of in *. rewrite !kdcs_of_touched.
    rewrite (is_empty_true _ Hn), (is_empty_true _ Hbd). simpl. rewrite Ha.
    rewrite bool_decide_eq_true_2 by done.
    rewrite touched_idemp. split_and!; [done..|].
    intros _ Hnot. destruct Hnot.
    by apply (nothing_new_within (kdcs_of (config w) realm) V Rm).
  - (* the first call saved *)
    set (c := config w) in *. set (m := merged realm d c) in *.
    apply save_ok in Hs as (rl & dl & made & Hrl & Hc1 & Hf1 & He1 & Hd1 & Hcd1 & Hl1).
    simpl in Hrl, Hc1, Hf1, He1, Hd1, Hcd1, Hl1. fold m in Hrl, Hc1, Hf1.
    set (cur1 := (kdcs_of c realm ∪ new_kdcs_of c realm d) ∖ bad_kdcs_of c realm d).
    assert (kdcs_of (config w1) realm = cur1) as Hcur1.
    { rewrite Hc1. unfold kdcs_of at 1. simpl. by rewrite lookup_insert_eq. }
    assert (bad_kdcs_of (config w1) realm d = ∅) as Hbad1.
    { unfold bad_kdcs_of. rewrite Hcur1.
      by apply (merged_no_bad (kdcs_of c realm) V Rm). }
    assert (admin_servers (config w1) !! realm = Some (choose_admin d)) as Ha1.
    { rewrite Hc1. simpl. apply lookup_insert_eq. }
    assert (merged realm d (config w1) = config w1) as Hm1.
    { unfold merged at 1. rewrite Hbad1. unfold new_kdcs_of at 1.
      rewrite Hcur1, Hc1. unfold saved, merged.
      cbn [path includedirs realms admin_servers].
      rewrite !insert_insert_eq. do 2 f_equal.
      by apply (merged_fixed (kdcs_of c realm) V Rm). }
    rewrite add_kdc_unfold by done. cbn zeta. fold d.
    rewrite (is_empty_true _ Hbad1), Ha1, Hm1, with_config_id.
    rewrite (bool_decide_eq_true_2 (choose_admin d = choose_admin d)) by done.
    rewrite andb_true_r.
    destruct (is_empty (new_kdcs_of (config w1) realm d)) eqn:Hnew1.
    + exists (with_config (touched realm (config w1)) w1).
      rewrite touched_present, with_config_id;
        [|rewrite Hc1; simpl; by rewrite lookup_insert_eq].
      split_and!; [done..|].
      intros _ Hnot. destruct Hnot.
      apply bool_decide_eq_true in Hnew1.
      unfold new_kdcs_of in Hnew1. rewrite Hcur1 in Hnew1.
      by apply (merged_new_empty (kdcs_of c realm) V Rm).
    + assert (saved (config w1) = config w1) as Hsaved.
      { rewrite Hc1. apply saved_idemp. }
      eexists. split.
      { apply (save_in_place w1 rl dl); rewrite Hc1; done. }
      cbn [config files dirs environ log]. split_and!.
      * done.
      * done.
      * done.
      * intros f Hf. by rewrite lookup_insert_ne.
      * intros [Hb|Hsub]; [done|]. exfalso.
        apply (bool_decide_eq_false_1 _ Hnew1).
        unfold new_kdcs_of. rewrite Hcur1.
        by apply (merged_no_new (kdcs_of c realm) V Rm).
      * intros _ _. by eexists.
Qed.

Lemma add_kdc_twice_witness :
  let w1 := (add_kdc "R" "C" (example_world realm_AB)).2 in
  ∃ w2, add_kdc "R" "C" w1 = (Ret tt, w2) ∧
        config w2 = config w1 ∧
        dirs w2 = dirs w1 ∧ environ w2 = environ w1 ∧
        (∀ f, f ≠ path (config w1) → files w2 !! f = files w1 !! f) ∧
        (strip "C" = "" ∨
         kdcs_of (config (example_world realm_AB)) "R" ⊆
           list_to_set (valid_kdcs (parse_delta "C")) ∪
           list_to_set (remove_kdcs (parse_delta "C")) → w2 = w1) ∧
        (strip "C" ≠ "" →
         ¬ kdcs_of (config (example_world realm_AB)) "R" ⊆
             list_to_set (valid_kdcs (parse_delta "C")) ∪
             list_to_set (remove_kdcs (parse_delta "C")) →
         ∃ text,
           files w2 = <[path (config w1) := text]> (files w1) ∧
           log w2 = log w1 ++ [Wrote (path (config w1)) text]).
Proof.
  apply (add_kdc_twice "R" "C" (example_world realm_AB)).
  - vm_compute. reflexivity.
  - vm_compute. set_solver.
Defined.

(** ** [add_kdc]: where the invariant is kept *)

(** The admin server a delta names is one of the hosts it adds. *)
Lemma delta_step_admin_valid d t :
  (∀ a, admin_server d = Some a → a ∈ valid_kdcs d) →
  ∀ a, admin_server (delta_step d t) = Some a → a ∈ valid_kdcs (delta_step d t).
Proof.
  intros Hd a. unfold delta_step.
  repeat (destruct (group1_is _ _) || destruct (negb _)); cbn [admin_server valid_kdcs];
    try (intros Ha; apply Hd in Ha; set_solver); try by apply Hd.
  intros [= <-]. set_solver.
Qed.

Lemma parse_delta_admin_valid kdcs a :
  admin_server (parse_delta kdcs) = Some a → a ∈ valid_kdcs (parse_delta kdcs).
Proof.
  unfold parse_delta.
  assert (∀ tokens d, (∀ a, admin_server d = Some a → a ∈ valid_kdcs d) →
          ∀ a, admin_server (fold_left delta_step tokens d) = Some a →
               a ∈ valid_kdcs (fold_left delta_step tokens d)) as Hfold.
  { induction tokens as [|t tokens IH]; intros d Hd; [done|].
    cbn [fold_left]. by apply IH, delta_step_admin_valid. }
  by apply Hfold.
Qed.

Lemma choose_admin_valid d :
  (∀ a, admin_server d = Some a → a ∈ valid_kdcs d) → valid_kdcs d ≠ [] →
  ∃ a, choose_admin d = Some a ∧ a ∈ valid_kdcs d.
Proof.
  intros Hd Hne. unfold choose_admin.
  destruct (truthy (admin_server d)) eqn:Ht.
  - destruct (admin_server d) as [a|]; [|done]. exists a. auto.
  - destruct (valid_kdcs d) as [|first rest]; [done|].
    exists first. split; [done|]. set_solver.
Qed.

Lemma kdcs_of_saved_merged realm d c r :
  kdcs_of (saved (merged realm d c)) r =
  if decide (r = realm)
  then (kdcs_of c realm ∪ new_kdcs_of c realm d) ∖ bad_kdcs_of c realm d
  else kdcs_of c r.
Proof.
  unfold kdcs_of at 1. cbn [saved merged realms]. case_decide as E.
  - subst r. by rewrite lookup_insert_eq.
  - by rewrite lookup_insert_ne.
Qed.

(** X22.  Where the code does keep the invariant: a call that returns
    normally preserves it when the delta adds at least one host and the
    admin server it settles on is not a current KDC the same delta
    removes. *)
Lemma add_kdc_keeps_admin_among_kdcs realm kdcs w w' :
  let d := parse_delta kdcs in
  admin_among_kdcs (config w) →
  add_kdc realm kdcs w = (Ret tt, w') →
  valid_kdcs d ≠ [] →
  (∀ a, choose_admin d = Some a → a ∉ bad_kdcs_of (config w) realm d) →
  admin_among_kdcs (config w').
Proof.
  intros d Hinv Hrun Hvalid Hkeep.
  assert (strip kdcs ≠ "") as Hnb.
  { intros Hb. unfold d in Hvalid. by rewrite (parse_delta_blank _ Hb) in Hvalid. }
  destruct (add_kdc_ok _ _ _ _ Hrun Hnb) as [(_ & _ & _ & ->)|[_ Hs]].
  - intros r. rewrite config_with_config, kdcs_of_touched. apply Hinv.
  - apply save_ok in Hs as (_ & _ & _ & _ & -> & _).
    rewrite config_with_config. fold d.
    intros r. rewrite !kdcs_of_saved_merged. cbn [saved merged admin_servers].
    destruct (decide (r = realm)) as [->|Hne].
    + rewrite !lookup_insert_eq. intros _.
      destruct (choose_admin_valid d) as (a & Ha & Hin);
        [apply parse_delta_admin_valid|done|].
      exists a. split; [by rewrite Ha|]. specialize (Hkeep a Ha).
      apply elem_of_difference. split; [|done].
      unfold new_kdcs_of, symmetric_difference.
      assert (a ∈ (list_to_set (valid_kdcs d) : gset string)) as HV
        by by apply elem_of_list_to_set.
      destruct (decide (a ∈ kdcs_of (config w) realm)); set_solver.
    + rewrite !lookup_insert_ne by done. apply Hinv.
Qed.

(** ** [get_ccname] *)

Lemma append_cons x (a b : string) : String x a +:+ b = String x (a +:+ b).
Proof. done. Qed.

Lemma append_assoc (a b c : string) : (a +:+ b) +:+ c = a +:+ (b +:+ c).
Proof. induction a as [|x a IH]; [done|]. by rewrite !append_cons, IH. Qed.

Lemma endswith_app_slash a b :
  b ≠ "" → endswith (a +:+ b) "/" = endswith b "/".
Proof.
  intros Hb. induction a as [|c a IH]; [done|].
  rewrite append_cons. cbn [endswith]. rewrite IH.
  destruct (String.eqb_spec (String c (a +:+ b)) "/") as [E|_]; [|done].
  injection E as _ E. destruct a; simpl in E; [done|discriminate].
Qed.

(** Joining a relative name to a path that ends in a name puts one slash
    between them. *)
Lemma join2_relative root name u :
  name ≠ "" → endswith name "/" = false → startswith u "/" = false →
  OsPath.join2 (root +:+ name) u = (root +:+ name) +:+ "/" +:+ u.
Proof.
  intros Hname Hend Hu. unfold OsPath.join2. rewrite Hu.
  rewrite endswith_app_slash, Hend by done.
  destruct (String.eqb_spec (root +:+ name) "") as [E|_]; simpl.
  - destruct root; [done|discriminate].
  - done.
Qed.

Lemma join2_name_shape a name :
  startswith name "/" = false →
  ∃ root, OsPath.join2 a name = root +:+ name.
Proof.
  intros Hn. unfold OsPath.join2. rewrite Hn.
  destruct (_ || _); [by exists a|].
  exists (a +:+ "/"). by rewrite append_assoc.
Qed.

Lemma join_private_root home sub u :
  startswith u "/" = false →
  OsPath.join home [sub; "krb5cc"; u] = private_root home sub +:+ "/" +:+ u.
Proof.
  intros Hu. unfold private_root, OsPath.join. cbn [fold_left].
  destruct (join2_name_shape (OsPath.join2 home sub) "krb5cc" eq_refl)
    as [root ->].
  by apply join2_relative.
Qed.

(** C8, as stated, fails: with neither ZENHOME nor HOME set the
    configuration path falls back to the system default, but the cache
    path is the empty string, which is no path of the form
    root/username. *)
Lemma get_ccname_no_default :
  get_path ∅ = "/etc/krb5.conf" ∧ get_ccname ∅ "bob" = "" ∧
  ¬ ∃ root, get_ccname ∅ "bob" = root +:+ "/" +:+ "bob".
Proof.
  split_and!; [done..|]. intros [root H]. by destruct root.
Qed.

(** The explicit override of the configuration path is not consulted. *)
Lemma get_ccname_ignores_override :
  let env : gmap string string :=
    {["KRB5_CONFIG" := "/srv/krb5.conf"; "ZENHOME" := "/opt/zenoss"]} in
  get_path env = "/srv/krb5.conf" ∧
  get_ccname env "bob" = "/opt/zenoss/var/krb5cc/bob".
Proof. by vm_compute. Qed.

(** C8, amended.  For every username that does not start with a slash the
    cache path is private-root/username, where the private root is
    $ZENHOME/var/krb5cc when ZENHOME is set, else $HOME/.txwinrm/krb5cc
    when HOME is set; with neither set the result is the empty string.
    No explicit override is consulted and there is no system default. *)
Theorem get_ccname_private_root env username :
  startswith username "/" = false →
  get_ccname env username =
    match env !! "ZENHOME", env !! "HOME" with
    | Some z, _ => private_root z "var" +:+ "/" +:+ username
    | None, Some h => private_root h ".txwinrm" +:+ "/" +:+ username
    | None, None => ""
    end.
Proof.
  intros Hu. unfold get_ccname.
  destruct (env !! "ZENHOME") as [z|]; [by apply join_private_root|].
  destruct (env !! "HOME") as [h|]; [by apply join_private_root|done].
Qed.

Lemma get_ccname_private_root_witness :
  get_ccname {["HOME" := "/home/alice"; "ZENHOME" := "/opt/zenoss"]}
    "alice@EXAMPLE.COM" =
  "/opt/zenoss/var/krb5cc" +:+ "/" +:+ "alice@EXAMPLE.COM".
Proof.
  rewrite (get_ccname_private_root _ "alice@EXAMPLE.COM" eq_refl).
  reflexivity.
Defined.

(** ** The kinit protocol *)


(** A chunk whose first line is empty records an empty fragment, and the
    outcome is a success although the process was killed. *)
Lemma outReceived_empty_first_line :
  let data := nl +:+ "Password expired" in
  let r := Kinit.outReceived data (Kinit.init "secret") in
  r.2 = [Signal "KILL"] ∧ Kinit.processEnded r.1 = None.
Proof. by vm_compute. Qed.



(** ** [kinit]: the username *)

Lemma find_program_pure candidates w :
  ∃ found, find_program candidates w = (Ret found, w).
Proof.
  induction candidates as [|p rest [found IH]]; [by exists None|].
  cbn [find_program]. unfold isfile. run_monad.
  destruct (bool_decide _); [by exists (Some p)|by exists found].
Qed.

(** C7.  For every username whose split at the at-sign does not give
    exactly two parts, [kinit] raises, whatever the reactor, and the world
    is left as it was: no process was spawned, no include directory was
    registered and no KDC was merged. *)
Theorem kinit_malformed_username reactor username password kdc includedir w :
  length (split "@" username) ≠ 2 →
  ∃ msg, kinit reactor username password kdc includedir w
         = (Raise (Exception msg), w).
Proof.
  intros Hparts. unfold kinit.
  destruct (find_program_pure ["/usr/bin/kinit"; "/usr/kerberos/bin/kinit"] w)
    as [found Hfound].
  unfold mbind at 1, M_bind at 1, bind at 1. rewrite Hfound.
  destruct found as [prog|]; [|by eexists].
  destruct (split "@" username) as [|user [|realm [|extra parts]]];
    [by eexists..|done|by eexists].
Qed.

Lemma kinit_malformed_username_witness :
  ∃ msg,
    kinit (λ _ _ _ _, Ran []) "baduser" "secret" "10.10.10.10" None
      (mkWorld no_realm {["/usr/bin/kinit" := ""]} ∅ ∅ []) =
    (Raise (Exception msg),
     mkWorld no_realm {["/usr/bin/kinit" := ""]} ∅ ∅ []).
Proof.
  apply kinit_malformed_username. vm_compute. discriminate.
Defined.

(** ** [add_includedir] without klist *)

Lemma ensure_dir_log d w : ∃ more, log (ensure_dir d w).2 = log w ++ more.
Proof.
  unfold ensure_dir, isdir, makedirs. run_monad.
  destruct (bool_decide _); [by exists []; rewrite app_nil_r|].
  destruct (String.eqb d ""); [by exists []; rewrite app_nil_r|].
  by eexists.
Qed.

(** [save] only ever adds to the log of effects. *)
Lemma save_log w : ∃ more, log (save w).2 = log w ++ more.
Proof.
  unfold save. run_monad.
  destruct (save_realms _ _) as [[rl dl]|e]; run_monad;
    [|by exists []; rewrite app_nil_r].
  destruct (ensure_dir_log (OsPath.dirname (path (config w))) w) as [m1 H1].
  destruct (ensure_dir _ w) as [[[]|e] w1]; cbn [snd] in H1; [|by exists m1].
  destruct (ensure_dir_log
              (OsPath.join (OsPath.dirname (path (config w))) ["config"]) w1)
    as [m2 H2].
  destruct (ensure_dir _ w1) as [[[]|e] w2]; cbn [snd] in H2.
  - unfold write_file. run_monad. rewrite H2, H1, <- !app_assoc. by eexists.
  - cbn [snd]. rewrite H2, H1, <- !app_assoc. by eexists.
Qed.

(** With no klist at either candidate path [add_includedir] does not skip
    the validation: once the directory is registered and saved it asks the
    reactor to spawn [None] with the argument list [[None]]. *)
Lemma add_includedir_no_klist reactor dir w w1 :
  dir ∉ includedirs (config w) →
  save (with_config (registered dir (config w)) w) = (Ret tt, w1) →
  files w1 !! "/usr/bin/klist" = None →
  files w1 !! "/usr/kerberos/bin/klist" = None →
  Spawned None [None] [("KRB5_CONFIG", path (config w))]
    ∈ log (add_includedir reactor dir w).2.
Proof.
  intros Hnew Hsave Hk1 Hk2. unfold add_includedir. run_monad.
  rewrite bool_decide_eq_false_2 by done. run_monad.
  fold (registered dir (config w)). fold (with_config (registered dir (config w)) w).
  rewrite Hsave. run_monad.
  cbn [find_program]. unfold isfile. run_monad.
  rewrite Hk1, bool_decide_eq_false_2 by (by intros [? ?]). run_monad.
  unfold isfile. run_monad.
  rewrite Hk2, bool_decide_eq_false_2 by (by intros [? ?]). run_monad.
  unfold spawnProcess. run_monad.
  apply save_ok in Hsave as (_ & _ & _ & _ & Hc1 & _).
  rewrite Hc1. cbn [path saved registered with_config config].
  set (ev := Spawned None [None] [("KRB5_CONFIG", path (config w))]).
  destruct (reactor _ _ _ _) as [e|output]; run_monad.
  { set_solver. }
  destruct (truthy _); run_monad; [|set_solver].
  match goal with |- _ ∈ log (save ?w').2 =>
    destruct (save_log w') as [more ->] end.
  cbn [log]. set_solver.
Qed.

(** C5.  The code at the failing input: in a world with no file at all
    (so no klist at either path) [add_includedir] registers the
    directory, saves, and asks the reactor to spawn [None] with the
    arguments [[None]], whatever the reactor; the validation is not
    skipped.  Under a reactor that refuses such a request the call raises
    and the directory stays registered, unvalidated. *)
Theorem add_includedir_spawns_None :
  let w := example_world no_realm in
  (∀ reactor,
     Spawned None [None] [("KRB5_CONFIG", "/opt/zenoss/var/krb5.conf")]
       ∈ log (add_includedir reactor "/etc/krb5.d" w).2) ∧
  (add_includedir strict_reactor "/etc/krb5.d" w).1 = Raise TypeError ∧
  "/etc/krb5.d" ∈ includedirs (config (add_includedir strict_reactor "/etc/krb5.d" w).2).
Proof.
  cbn zeta. split_and!.
  - intros reactor.
    eapply (add_includedir_no_klist reactor "/etc/krb5.d" (example_world no_realm)).
    + set_solver.
    + vm_compute. reflexivity.
    + by vm_compute.
    + by vm_compute.
  - by vm_compute.
  - apply (bool_decide_unpack _). by vm_compute.
Qed.

(** ** Round trip: strings *)

Lemma append_nil_l (s : string) : "" +:+ s = s.
Proof. done. Qed.

Lemma append_nil_r (s : string) : s +:+ "" = s.
Proof. induction s as [|c s IH]; [done|]. by rewrite append_cons, IH. Qed.

(** Unfolding [+:+] on a literal left operand. *)
Ltac push_app := rewrite ?append_cons, ?append_nil_l.

(** Concatenations nested to the right, literals unfolded. *)
Ltac norm_app :=
  repeat (rewrite append_assoc || rewrite append_cons || rewrite append_nil_l).

Lemma all_nonspace_app a b :
  all_nonspace (a +:+ b) = all_nonspace a && all_nonspace b.
Proof.
  induction a as [|c a IH]; [done|].
  rewrite append_cons. cbn [all_nonspace]. by rewrite IH, andb_assoc.
Qed.

Lemma no_nl_app a b : no_nl (a +:+ b) = no_nl a && no_nl b.
Proof.
  induction a as [|c a IH]; [done|].
  rewrite append_cons. cbn [no_nl]. by rewrite IH, andb_assoc.
Qed.

Lemma isspace_nl : isspace nl_char = true.
Proof. done. Qed.

Lemma all_nonspace_no_nl s : all_nonspace s = true → no_nl s = true.
Proof.
  induction s as [|c s IH]; [done|]. cbn [all_nonspace no_nl].
  intros [Hc Hs]%andb_true_iff. rewrite IH by done.
  destruct (Ascii.eqb_spec c nl_char) as [->|]; [|done].
  by rewrite isspace_nl in Hc.
Qed.

Lemma word_no_nl s : word s → no_nl s = true.
Proof. intros [_ H]. by apply all_nonspace_no_nl. Qed.

Lemma word_cons s : word s → ∃ c s', s = String c s' ∧ isspace c = false ∧ all_nonspace s' = true.
Proof.
  intros [Hne Hs]. destruct s as [|c s']; [done|].
  cbn [all_nonspace] in Hs. apply andb_true_iff in Hs as [Hc Hs].
  exists c, s'. by rewrite <- negb_true_iff.
Qed.

(** *** [strip] *)

Lemma rstrip_cons c s :
  rstrip (String c s) =
  match rstrip s with
  | "" => if isspace c then "" else String c ""
  | r => String c r
  end.
Proof. done. Qed.

Lemma rstrip_all_space t : all_space t = true → rstrip t = "".
Proof.
  induction t as [|c t IH]; [done|]. cbn [all_space].
  intros [Hc Ht]%andb_true_iff. by rewrite rstrip_cons, IH, Hc.
Qed.

Lemma rstrip_app_space s t : all_space t = true → rstrip (s +:+ t) = rstrip s.
Proof.
  intros Ht. induction s as [|c s IH]; [by apply rstrip_all_space|].
  by rewrite append_cons, !rstrip_cons, IH.
Qed.

Lemma rstrip_word w : all_nonspace w = true → rstrip w = w.
Proof.
  induction w as [|c w IH]; [done|]. cbn [all_nonspace].
  intros [Hc Hw]%andb_true_iff. apply negb_true_iff in Hc.
  rewrite rstrip_cons, IH, Hc by done. by destruct w.
Qed.

Lemma rstrip_app_word s w : word w → rstrip (s +:+ w) = s +:+ w.
Proof.
  intros [Hne Hw]. induction s as [|c s IH]; [by apply rstrip_word|].
  rewrite append_cons, rstrip_cons, IH.
  destruct (s +:+ w) eqn:E; [|done].
  destruct s; [|done]. by rewrite append_nil_l in E.
Qed.

(** A line that ends in a word and a newline loses only the newline. *)
Lemma rstrip_line s w : word w → rstrip (s +:+ w +:+ nl) = s +:+ w.
Proof.
  intros Hw. rewrite <- append_assoc, rstrip_app_space by done.
  by apply rstrip_app_word.
Qed.

Lemma lstrip_nonspace c s : isspace c = false → lstrip (String c s) = String c s.
Proof. intros Hc. cbn [lstrip]. by rewrite Hc. Qed.

Lemma lstrip_space c s : isspace c = true → lstrip (String c s) = lstrip s.
Proof. intros Hc. cbn [lstrip]. by rewrite Hc. Qed.

Lemma rstrip_head c s :
  isspace c = false → ∃ r, rstrip (String c s) = String c r.
Proof.
  intros Hc. rewrite rstrip_cons, Hc. destruct (rstrip s); by eexists.
Qed.

Lemma strip_head c s :
  isspace c = false → ∃ r, strip (String c s) = String c r.
Proof.
  intros Hc. unfold strip. rewrite lstrip_nonspace by done.
  by apply rstrip_head.
Qed.

(** ** Round trip: the matcher on words *)

Lemma span_nonspace w rest :
  all_nonspace w = true →
  (rest = "" ∨ ∃ c r, rest = String c r ∧ isspace c = true) →
  span (Re.cmatch Re.NonSpace) (w +:+ rest) = (w, rest).
Proof.
  intros Hw Hrest. induction w as [|c w IH].
  - rewrite append_nil_l. destruct Hrest as [->|(c & r & -> & Hc)]; [done|].
    cbn [span Re.cmatch]. by rewrite Hc.
  - cbn [all_nonspace] in Hw. apply andb_true_iff in Hw as [Hc Hw].
    rewrite append_cons. cbn [span Re.cmatch]. by rewrite Hc, IH.
Qed.

Lemma span_space_stop p c s : p c = false → span p (String c s) = ("", String c s).
Proof. intros Hc. cbn [span]. by rewrite Hc. Qed.

(** A repetition fails when the rest of the pattern fails after every
    prefix. *)
Lemma greedy_none {A} p (k : string → string → option A) s :
  (∀ taken rest, s = taken +:+ rest → k taken rest = None) →
  Re.greedy p k s = None.
Proof.
  revert k. induction s as [|c s IH]; intros k Hk; cbn [Re.greedy].
  - by apply Hk.
  - destruct (p c); [|by apply Hk].
    rewrite IH; [by apply Hk|].
    intros taken rest ->. by apply Hk.
Qed.

Lemma emit_none grp taken : Re.emit grp taken None = None.
Proof. by destruct grp. Qed.

(** Literal text matches itself. *)
Lemma match_lit k r s : Re.match_here (Re.lit k ++ r) (k +:+ s) = Re.match_here r s.
Proof.
  induction k as [|c k IH]; [done|].
  rewrite append_cons. cbn [Re.lit app Re.match_here Re.cmatch Re.emit].
  by rewrite Ascii.eqb_refl.
Qed.

Lemma all_nonspace_suffix taken rest :
  all_nonspace (taken +:+ rest) = true → all_nonspace rest = true.
Proof. rewrite all_nonspace_app. by intros [_ ?]%andb_true_iff. Qed.

Lemma needs_space_cons cl q grp r :
  needs_space (Re.Piece cl q grp :: r) = true →
  (cl = Re.Space ∧ q ≠ Re.Star) ∨ needs_space r = true.
Proof. destruct cl, q; cbn [needs_space]; auto. Qed.

Lemma match_here_no_space r s :
  needs_space r = true → all_nonspace s = true → Re.match_here r s = None.
Proof.
  revert s. induction r as [|[cl q grp] r IH]; intros s Hr Hs; [done|].
  apply needs_space_cons in Hr as [[-> Hq]|Hr].
  - destruct s as [|c s]; [by destruct q|].
    cbn [all_nonspace] in Hs. apply andb_true_iff in Hs as [Hc _].
    apply negb_true_iff in Hc.
    destruct q; cbn [Re.match_here Re.cmatch]; by rewrite ?Hc.
  - assert (∀ taken rest, s = taken +:+ rest →
            Re.match_here r rest = None) as Hrest.
    { intros taken rest ->. apply IH; [done|]. by eapply all_nonspace_suffix. }
    destruct q; cbn [Re.match_here].
    + destruct s as [|c s]; [done|]. destruct (Re.cmatch cl c); [|done].
      rewrite (Hrest (String c "") s eq_refl). apply emit_none.
    + destruct s as [|c s]; [done|]. destruct (Re.cmatch cl c); [|done].
      apply greedy_none. intros taken rest ->.
      rewrite (Hrest (String c taken) rest eq_refl). apply emit_none.
    + apply greedy_none. intros taken rest E.
      rewrite (Hrest taken rest E). apply emit_none.
Qed.

Lemma re_search_no_space r s :
  needs_space r = true → all_nonspace s = true → Re.re_search r s = None.
Proof.
  intros Hr. induction s as [|c s IH]; intros Hs.
  - cbn [Re.re_search]. by rewrite match_here_no_space.
  - cbn [Re.re_search]. rewrite match_here_no_space by done.
    cbn [all_nonspace] in Hs. apply andb_true_iff in Hs as [_ Hs]. by apply IH.
Qed.

Lemma forall_suffix_impl (P Q : string → Prop) s :
  (∀ x, P x → Q x) → forall_suffix P s → forall_suffix Q s.
Proof.
  intros HPQ. induction s as [|c s IH]; cbn [forall_suffix].
  - intros [? _]. auto.
  - intros [? ?]. auto.
Qed.

Lemma forall_suffix_tail P c s : forall_suffix P (String c s) → forall_suffix P s.
Proof. by intros [_ ?]. Qed.

Lemma forall_suffix_head P s : forall_suffix P s → P s.
Proof. destruct s; by intros [? _]. Qed.

Lemma greedy_none_suffix {A} p (k : string → string → option A) s :
  forall_suffix (λ rest, ∀ taken, k taken rest = None) s →
  Re.greedy p k s = None.
Proof.
  revert k. induction s as [|c s IH]; intros k; cbn [forall_suffix Re.greedy].
  - intros [Hk _]. apply Hk.
  - intros [Hk Hs]. destruct (p c); [|apply Hk].
    rewrite IH; [apply Hk|].
    eapply forall_suffix_impl; [|exact Hs]. intros x Hx taken. apply Hx.
Qed.

Lemma re_search_none r s :
  forall_suffix (λ rest, Re.match_here r rest = None) s →
  Re.re_search r s = None.
Proof.
  induction s as [|c s IH]; cbn [forall_suffix Re.re_search].
  - by intros [-> _].
  - intros [-> Hs]. by apply IH.
Qed.

Lemma forall_suffix_no_space r s :
  needs_space r = true → all_nonspace s = true →
  forall_suffix (λ rest, Re.match_here r rest = None) s.
Proof.
  intros Hr. induction s as [|c s IH]; intros Hs; cbn [forall_suffix].
  - split; [|done]. by apply match_here_no_space.
  - split; [by apply match_here_no_space|].
    cbn [all_nonspace] in Hs. apply andb_true_iff in Hs as [_ Hs]. by apply IH.
Qed.

(** *** One-character steps of the matcher *)

Lemma match_one_lit a r c s grp :
  Re.match_here (Re.Piece (Re.Lit a) Re.One grp :: r) (String c s) =
  if Ascii.eqb a c then Re.emit grp (String c "") (Re.match_here r s) else None.
Proof. done. Qed.

Lemma match_plus_space_fail r grp c s :
  isspace c = false →
  Re.match_here (Re.Piece Re.Space Re.Plus grp :: r) (String c s) = None.
Proof. intros Hc. cbn [Re.match_here Re.cmatch]. by rewrite Hc. Qed.

Lemma match_plus_nonspace_fail r grp c s :
  isspace c = true →
  Re.match_here (Re.Piece Re.NonSpace Re.Plus grp :: r) (String c s) = None.
Proof. intros Hc. cbn [Re.match_here Re.cmatch]. by rewrite Hc. Qed.

Lemma match_plus_nil cl r grp :
  Re.match_here (Re.Piece cl Re.Plus grp :: r) "" = None.
Proof. done. Qed.

(** One blank, then a character that is none: [\s+] takes the blank. *)
Lemma match_one_space r c s :
  isspace c = false →
  Re.match_here (Re.Piece Re.Space Re.Plus false :: r) (String " " (String c s))
  = Re.match_here r (String c s).
Proof.
  intros Hc. cbn [Re.match_here Re.cmatch Re.greedy Re.emit].
  change (isspace " ") with true. cbn iota. by rewrite Hc.
Qed.

(** [\S+] as the last piece takes a whole word. *)
Lemma match_word_group w : word w → Re.match_here Re.word_group w = Some [w].
Proof.
  intros Hw. destruct (word_cons _ Hw) as (c & w' & -> & Hc & Hw').
  unfold Re.word_group. cbn [Re.match_here Re.cmatch]. rewrite Hc. cbn [negb].
  assert (span (Re.cmatch Re.NonSpace) w' = (w', "")) as Hsp.
  { rewrite <- (append_nil_r w') at 1. apply span_nonspace; auto. }
  apply greedy_longest. by rewrite Hsp.
Qed.

(** [\S+] followed by more pattern takes the word in front of a blank when
    the rest matches there. *)
Lemma match_word_then w r rest g :
  word w → (∃ c s, rest = String c s ∧ isspace c = true) →
  Re.match_here r rest = Some g →
  Re.match_here (Re.word_group ++ r) (w +:+ rest) = Some (w :: g).
Proof.
  intros Hw Hrest Hg. destruct (word_cons _ Hw) as (c & w' & -> & Hc & Hw').
  unfold Re.word_group. rewrite append_cons.
  cbn [app Re.match_here Re.cmatch]. rewrite Hc. cbn [negb].
  apply greedy_longest.
  rewrite span_nonspace by auto. cbn [fst snd]. by rewrite Hg.
Qed.

(** ** Round trip: the patterns of [load] on the lines of [save] *)

Lemma re_search_hit r s g : Re.match_here r s = Some g → Re.re_search r s = Some g.
Proof. intros H. destruct s; cbn [Re.re_search]; by rewrite H. Qed.

Lemma kv_tail_match w : word w → Re.match_here kv_tail (" = " +:+ w) = Some [w].
Proof.
  intros Hw. destruct (word_cons _ Hw) as (c & w' & E & Hc & Hw').
  rewrite E in *. push_app. unfold kv_tail, Re.spaces.
  cbn [app Re.lit]. rewrite match_one_space by done.
  rewrite match_one_lit, Ascii.eqb_refl. cbn [Re.emit].
  rewrite match_one_space by done. by apply match_word_group.
Qed.

Lemma kv_hit key w :
  word w → Re.re_search (Re.lit key ++ kv_tail) (key +:+ " = " +:+ w) = Some [w].
Proof.
  intros Hw. apply re_search_hit. rewrite match_lit. by apply kv_tail_match.
Qed.

Lemma lit_first_miss a k r s :
  startswith s (String a "") = false →
  Re.match_here (Re.lit (String a k) ++ r) s = None.
Proof.
  destruct s as [|c s]; [done|]. cbn [startswith Re.lit app].
  rewrite match_one_lit. by destruct (Ascii.eqb a c), s.
Qed.

Lemma kdc_re_miss a :
  all_nonspace a = true →
  Re.re_search kdc_re ("admin_server = " +:+ a) = None.
Proof.
  intros Ha. apply re_search_none. push_app. cbn [forall_suffix].
  split_and!; try (by apply (lit_first_miss "k")).
  by apply forall_suffix_no_space.
Qed.

Lemma admin_server_re_miss k :
  all_nonspace k = true →
  Re.re_search admin_server_re ("kdc = " +:+ k) = None.
Proof.
  intros Hk. apply re_search_none. push_app. cbn [forall_suffix].
  split_and!; try (by apply (lit_first_miss "a")).
  by apply forall_suffix_no_space.
Qed.

Lemma open_tail_match : Re.match_here open_tail " = {" = Some [].
Proof. reflexivity. Qed.

Lemma realm_open_hit name :
  word name → Re.re_search realm_open_re (name +:+ " = {") = Some [name].
Proof.
  intros Hn. apply re_search_hit.
  apply (match_word_then name open_tail " = {" []); [done| |done].
  by exists " "%char, "= {".
Qed.

Lemma open_tail_after_eq w :
  all_nonspace w = true → startswith w "{" = false →
  Re.match_here (Re.spaces ++ Re.lit "{") (String " " w) = None.
Proof.
  intros Hw Hb. destruct w as [|c w]; [done|].
  cbn [all_nonspace] in Hw. apply andb_true_iff in Hw as [Hc _].
  apply negb_true_iff in Hc.
  unfold Re.spaces. cbn [app Re.lit]. rewrite match_one_space by done.
  rewrite match_one_lit. cbn [startswith] in Hb.
  by destruct (Ascii.eqb "{" c), w.
Qed.

Lemma open_tail_before_eq w :
  all_nonspace w = true → Re.match_here open_tail (String " " w) = None.
Proof.
  intros Hw. destruct w as [|c w]; [done|].
  cbn [all_nonspace] in Hw. apply andb_true_iff in Hw as [Hc Hw].
  apply negb_true_iff in Hc.
  unfold open_tail, Re.spaces. cbn [app Re.lit].
  rewrite match_one_space by done. rewrite match_one_lit.
  destruct (Ascii.eqb "=" c); [|done]. cbn [Re.emit].
  destruct w as [|c2 w]; [done|].
  cbn [all_nonspace] in Hw. apply andb_true_iff in Hw as [Hc2 _].
  apply negb_true_iff in Hc2. by apply match_plus_space_fail.
Qed.

Lemma open_tail_none v w :
  all_nonspace v = true → all_nonspace w = true → startswith w "{" = false →
  forall_suffix (λ rest, Re.match_here open_tail rest = None)
    (v +:+ " = " +:+ w).
Proof.
  intros Hv Hw Hb. induction v as [|c v IH].
  - push_app. cbn [forall_suffix]. split_and!.
    + unfold open_tail, Re.spaces. cbn [app Re.lit].
      rewrite match_one_space by done.
      rewrite match_one_lit, Ascii.eqb_refl. cbn [Re.emit].
      by apply open_tail_after_eq.
    + by apply match_plus_space_fail.
    + by apply open_tail_before_eq.
    + by apply forall_suffix_no_space.
  - cbn [all_nonspace] in Hv. apply andb_true_iff in Hv as [Hc Hv].
    apply negb_true_iff in Hc. rewrite append_cons. cbn [forall_suffix].
    split; [by apply match_plus_space_fail|by apply IH].
Qed.

Lemma realm_open_miss v w :
  all_nonspace v = true → all_nonspace w = true → startswith w "{" = false →
  Re.re_search realm_open_re (v +:+ " = " +:+ w) = None.
Proof.
  intros Hv Hw Hb. apply re_search_none.
  assert (∀ x c, forall_suffix (λ rest, Re.match_here open_tail rest = None) x →
          Re.greedy (Re.cmatch Re.NonSpace)
            (λ taken rest,
               Re.emit true (String c taken) (Re.match_here open_tail rest)) x
          = None) as Hgreedy.
  { intros x c Hx. apply greedy_none_suffix.
    eapply forall_suffix_impl; [|exact Hx].
    intros rest -> taken. done. }
  induction v as [|c v IH].
  - pose proof (open_tail_none "" w eq_refl Hw Hb) as Hnone.
    revert Hnone. push_app. cbn [forall_suffix].
    intros (_ & _ & Hsp & Hrest). split_and!.
    + by apply match_plus_nonspace_fail.
    + unfold realm_open_re, Re.word_group. cbn [app Re.match_here Re.cmatch].
      change (isspace "=") with false. cbn [negb]. apply Hgreedy.
      cbn [forall_suffix]. done.
    + by apply match_plus_nonspace_fail.
    + by apply forall_suffix_no_space.
  - cbn [all_nonspace] in Hv. apply andb_true_iff in Hv as [Hc Hv].
    rewrite append_cons. cbn [forall_suffix]. split; [|by apply IH].
    unfold realm_open_re, Re.word_group. cbn [app Re.match_here Re.cmatch].
    rewrite Hc. apply Hgreedy. by apply open_tail_none.
Qed.

(** ** Round trip: [load_line] on the lines of [save] *)

Lemma startswith_head_false c s a pre :
  Ascii.eqb a c = false → startswith (String c s) (String a pre) = false.
Proof. intros H. cbn [startswith]. by rewrite H. Qed.

Lemma startswith_head c s a :
  startswith (String c s) (String a "") = Ascii.eqb a c.
Proof. cbn [startswith]. destruct s; by rewrite andb_true_r. Qed.

(** Outside the realms section a line that does not open it leaves the
    realms alone. *)
Lemma load_line_outside realm ks ads incs line :
  startswith (strip line) "[realms]" = false →
  ∃ incs',
    load_line (mkLoad false realm ks ads incs) line =
    mkLoad false realm ks ads incs'.
Proof.
  intros H. unfold load_line. rewrite H.
  destruct (startswith _ "["); [by eexists|].
  destruct (startswith _ "includedir"); [|by eexists].
  destruct (Re.re_search _ _); by eexists.
Qed.

Lemma strip_indented_line (indent body w : string) :
  all_space indent = true → word body ∨ (∃ c s, body = String c s ∧ isspace c = false) →
  word w →
  strip (indent +:+ body +:+ w +:+ nl) = body +:+ w.
Proof.
  intros Hind Hbody Hw. unfold strip.
  assert (lstrip (indent +:+ body +:+ w +:+ nl) = body +:+ w +:+ nl) as ->.
  { induction indent as [|c indent IH]; [|].
    - rewrite append_nil_l.
      destruct Hbody as [Hb|(c & s & -> & Hc)].
      + destruct (word_cons _ Hb) as (c & s & -> & Hc & _).
        rewrite append_cons. by apply lstrip_nonspace.
      + rewrite append_cons. by apply lstrip_nonspace.
    - cbn [all_space] in Hind. apply andb_true_iff in Hind as [Hc Hind].
      rewrite append_cons, lstrip_space by done. by apply IH. }
  by apply rstrip_line.
Qed.

Section Lines.

Context (realm : string) (ks : gmap string (gset string))
  (ads : gmap string (option string)) (incs : gset string).

Lemma load_line_realm_open old name :
  word name → startswith name "[" = false → startswith name "i" = false →
  load_line (mkLoad true old ks ads incs) (" " +:+ name +:+ " = {" +:+ nl) =
  mkLoad true (Some name) ks ads incs.
Proof.
  intros Hn Hb Hi. unfold load_line.
  assert (strip (" " +:+ name +:+ " = {" +:+ nl) = name +:+ " = {") as ->.
  { pose proof (strip_indented_line " " (name +:+ " = ") "{" eq_refl) as H.
    rewrite !append_assoc in H. apply H; [|done].
    right. destruct (word_cons _ Hn) as (c & s & -> & Hc & _).
    rewrite append_cons. by eexists _, _. }
  destruct (word_cons _ Hn) as (c & s & -> & Hc & Hs).
  rewrite startswith_head in Hb, Hi.
  rewrite append_cons, !startswith_head_false by done.
  rewrite <- append_cons. cbn [String.eqb].
  rewrite (realm_open_hit (String c s)) by done. done.
Qed.

Hypothesis realm_nonempty : realm ≠ "".

Lemma load_line_kdc k :
  word k → startswith k "{" = false →
  load_line (mkLoad true (Some realm) ks ads incs) ("  kdc = " +:+ k +:+ nl) =
  mkLoad true (Some realm) (kdcs_add realm k ks) ads incs.
Proof.
  intros Hk Hb. unfold load_line.
  assert (strip ("  kdc = " +:+ k +:+ nl) = "kdc = " +:+ k) as ->.
  { apply (strip_indented_line "  " "kdc = " k); [done| |done].
    right. by eexists _, _. }
  destruct Hk as [Hk1 Hk2].
  change ("kdc = " +:+ k) with (String "k" ("dc = " +:+ k)) at 1 2 3 4.
  rewrite !startswith_head_false by done. cbn [String.eqb].
  change ("kdc = " +:+ k) with ("kdc" +:+ " = " +:+ k).
  rewrite realm_open_miss by done.
  change kdc_re with (Re.lit "kdc" ++ kv_tail). rewrite kv_hit by done.
  change ("kdc" +:+ " = " +:+ k) with ("kdc = " +:+ k).
  rewrite admin_server_re_miss by done.
  by destruct realm.
Qed.

Lemma load_line_admin_server a :
  word a → startswith a "{" = false →
  load_line (mkLoad true (Some realm) ks ads incs)
    ("  admin_server = " +:+ a +:+ nl) =
  mkLoad true (Some realm) ks (<[realm := Some a]> ads) incs.
Proof.
  intros Ha Hb. unfold load_line.
  assert (strip ("  admin_server = " +:+ a +:+ nl) = "admin_server = " +:+ a)
    as ->.
  { apply (strip_indented_line "  " "admin_server = " a); [done| |done].
    right. by eexists _, _. }
  destruct Ha as [Ha1 Ha2].
  change ("admin_server = " +:+ a)
    with (String "a" ("dmin_server = " +:+ a)) at 1 2 3 4.
  rewrite !startswith_head_false by done. cbn [String.eqb].
  change ("admin_server = " +:+ a) with ("admin_server" +:+ " = " +:+ a).
  rewrite realm_open_miss by done.
  change admin_server_re with (Re.lit "admin_server" ++ kv_tail).
  rewrite kv_hit by done.
  change ("admin_server" +:+ " = " +:+ a) with ("admin_server = " +:+ a).
  rewrite kdc_re_miss by done.
  by destruct realm.
Qed.

Lemma load_line_close :
  load_line (mkLoad true (Some realm) ks ads incs) (" }" +:+ nl) =
  mkLoad true (Some realm) ks ads incs.
Proof.
  unfold load_line.
  change (strip (" }" +:+ nl)) with "}".
  change (startswith "}" "[realms]") with false.
  change (startswith "}" "[") with false.
  change (startswith "}" "includedir") with false.
  change (Re.re_search realm_open_re "}") with (@None (list string)).
  change (Re.re_search kdc_re "}") with (@None (list string)).
  change (Re.re_search admin_server_re "}") with (@None (list string)).
  cbn [String.eqb]. by destruct realm.
Qed.

End Lines.

Lemma load_line_blank old ks ads incs :
  load_line (mkLoad true old ks ads incs) nl = mkLoad true old ks ads incs.
Proof. done. Qed.

Lemma load_line_domain_realm old ks ads incs :
  load_line (mkLoad true old ks ads incs) ("[domain_realm]" +:+ nl) =
  mkLoad false old ks ads incs.
Proof. done. Qed.

(** ** Round trip: scanning a text line by line *)

Lemma load_text_scan incs text :
  load_text incs text = scan (λ x, x) (mkLoad false None ∅ ∅ incs) text.
Proof. done. Qed.

Lemma lines_from_app cur a s :
  no_nl a = true →
  lines_from cur (a +:+ s) = lines_from (λ x, cur (a +:+ x)) s.
Proof.
  revert cur. induction a as [|c a IH]; intros cur Ha; [done|].
  cbn [no_nl] in Ha. apply andb_true_iff in Ha as [Hc Ha].
  apply negb_true_iff in Hc.
  rewrite append_cons. cbn [lines_from]. rewrite Hc.
  by rewrite IH.
Qed.

Lemma scan_app cur st a s :
  no_nl a = true → scan cur st (a +:+ s) = scan (λ x, cur (a +:+ x)) st s.
Proof. intros Ha. unfold scan. by rewrite lines_from_app. Qed.

Lemma scan_nl cur st s :
  scan cur st (nl +:+ s) = scan (λ x, x) (load_line st (cur nl)) s.
Proof.
  unfold scan. change (nl +:+ s) with (String nl_char s).
  cbn [lines_from]. by rewrite Ascii.eqb_refl.
Qed.

Lemma scan_nil st : scan (λ x, x) st "" = st.
Proof. done. Qed.

Lemma no_nl_lit_nl : no_nl nl = false.
Proof. done. Qed.

(** ** Round trip: what may be written and read back *)

Lemma upper_not_i name : upper name = name → startswith name "i" = false.
Proof.
  destruct name as [|c name]; [done|]. intros [= Hc _].
  rewrite startswith_head. destruct (Ascii.eqb_spec "i" c) as [<-|]; [|done].
  discriminate.
Qed.

(** Stepping the scan over a text written as nested concatenations. *)
Ltac scan_piece :=
  first [ rewrite scan_nl
        | rewrite scan_app by (first [reflexivity | by apply word_no_nl | assumption]) ];
  cbv beta.

Section Block.

Context (incs : gset string).

Lemma scan_kdc_lines R realm hosts ks ads :
  realm ≠ "" → hosts ≠ [] → Forall safe_host hosts →
  scan (λ x, x) (mkLoad true (Some realm) ks ads incs)
    (join nl (KDC_TEMPLATE <$> hosts) +:+ nl +:+ R) =
  scan (λ x, x)
    (mkLoad true (Some realm)
       (fold_left (λ m k, kdcs_add realm k m) hosts ks) ads incs) R.
Proof.
  intros Hrealm Hne Hsafe. revert ks.
  induction Hsafe as [|k hosts [Hk Hb] Hrest IH]; intros ks; [done|].
  destruct hosts as [|k2 hosts].
  - cbn [fmap list_fmap join fold_left]. unfold KDC_TEMPLATE.
    rewrite append_assoc. do 3 scan_piece.
    by rewrite load_line_kdc.
  - change (join nl (KDC_TEMPLATE <$> k :: k2 :: hosts))
      with (KDC_TEMPLATE k +:+ nl +:+ join nl (KDC_TEMPLATE <$> k2 :: hosts)).
    unfold KDC_TEMPLATE at 1. rewrite !append_assoc. do 3 scan_piece.
    rewrite load_line_kdc by done. by rewrite IH.
Qed.

Lemma scan_realm_block R old name hosts a ks ads :
  safe_realm_name name → hosts ≠ [] → Forall safe_host hosts → safe_host a →
  scan (λ x, x) (mkLoad true old ks ads incs)
    (REALM_TEMPLATE name (join nl (KDC_TEMPLATE <$> hosts)) a +:+ R) =
  scan (λ x, x)
    (mkLoad true (Some name)
       (fold_left (λ m k, kdcs_add name k m) hosts ks)
       (<[name := Some a]> ads) incs) R.
Proof.
  intros (Hw & Hup & Hb) Hne Hsafe [Ha Hab].
  assert (name ≠ "") as Hname by apply Hw.
  unfold REALM_TEMPLATE. rewrite !append_assoc.
  do 4 scan_piece.
  rewrite load_line_realm_open by auto using upper_not_i.
  rewrite scan_kdc_lines by done.
  do 3 scan_piece. rewrite load_line_admin_server by done.
  do 2 scan_piece. by rewrite load_line_close.
Qed.

End Block.

Lemma kdcs_add_fold_lookup name hosts ks r :
  default ∅ (fold_left (λ m k, kdcs_add name k m) hosts ks !! r) =
  if decide (r = name) then list_to_set hosts ∪ default ∅ (ks !! r)
  else default ∅ (ks !! r).
Proof.
  revert ks. induction hosts as [|k hosts IH]; intros ks; cbn [fold_left].
  - case_decide; [|done]. cbn [list_to_set]. set_solver.
  - rewrite IH. unfold kdcs_add. case_decide as E.
    + subst r. rewrite lookup_insert_eq. cbn [default list_to_set]. set_solver.
    + by rewrite lookup_insert_ne.
Qed.

(** ** Round trip: text that leaves the realms alone *)

Lemma quiet_nil : quiet_text "".
Proof. intros old ks ads incs R. by exists incs. Qed.

Lemma quiet_app a b : quiet_text a → quiet_text b → quiet_text (a +:+ b).
Proof.
  intros Ha Hb old ks ads incs R. rewrite append_assoc.
  destruct (Ha old ks ads incs (b +:+ R)) as [incs1 ->].
  destruct (Hb old ks ads incs1 R) as [incs2 ->]. by exists incs2.
Qed.

Lemma quiet_concat l : Forall quiet_text l → quiet_text (concat l).
Proof.
  induction 1 as [|t l Ht _ IH]; [apply quiet_nil|].
  by apply quiet_app.
Qed.

Lemma quiet_line l :
  no_nl l = true → startswith (strip (l +:+ nl)) "[realms]" = false →
  quiet_text (l +:+ nl).
Proof.
  intros Hl Hq old ks ads incs R. rewrite append_assoc.
  rewrite scan_app by done. rewrite scan_nl.
  destruct (load_line_outside old ks ads incs (l +:+ nl) Hq) as [incs' ->].
  by exists incs'.
Qed.

(** A line whose first visible character is not a bracket is quiet. *)
Lemma strip_first_visible indent c s :
  all_space indent = true → isspace c = false →
  ∃ r, strip (indent +:+ String c s) = String c r.
Proof.
  intros Hi Hc. unfold strip.
  assert (lstrip (indent +:+ String c s) = String c s) as ->.
  { induction indent as [|x indent IH]; [by apply lstrip_nonspace|].
    cbn [all_space] in Hi. apply andb_true_iff in Hi as [Hx Hi].
    rewrite append_cons, lstrip_space by done. by apply IH. }
  by apply rstrip_head.
Qed.

Lemma quiet_line_visible indent c s :
  all_space indent = true → isspace c = false → Ascii.eqb "[" c = false →
  no_nl (indent +:+ String c s) = true →
  quiet_text ((indent +:+ String c s) +:+ nl).
Proof.
  intros Hi Hc Hb Hnl. apply quiet_line; [done|].
  rewrite append_assoc, append_cons.
  destruct (strip_first_visible indent c (s +:+ nl) Hi Hc) as [r ->].
  by apply startswith_head_false.
Qed.

Lemma all_space_no_nl_indent : no_nl " " = true.
Proof. done. Qed.

Lemma quiet_includedir d : no_nl d = true → quiet_text (INCLUDEDIR_TEMPLATE d).
Proof.
  intros Hd. unfold INCLUDEDIR_TEMPLATE.
  change ("includedir " +:+ d +:+ nl)
    with (String "i" ("ncludedir " +:+ d +:+ nl)).
  rewrite <- (append_nil_l (String "i" _)).
  change ("ncludedir " +:+ d +:+ nl) with ("ncludedir " +:+ (d +:+ nl)).
  rewrite <- (append_assoc "ncludedir " d nl), <- append_cons, <- append_assoc.
  apply (quiet_line_visible "" "i" ("ncludedir " +:+ d)); [done..|].
  rewrite append_nil_l. cbn [no_nl]. by rewrite no_nl_app, Hd.
Qed.

(** *** Lower case keeps what matters of a character *)

Lemma lower_char_space c : isspace (lower_char c) = isspace c.
Proof. by destruct c as [[] [] [] [] [] [] [] []]. Qed.

Lemma lower_char_nl c : Ascii.eqb (lower_char c) nl_char = Ascii.eqb c nl_char.
Proof. by destruct c as [[] [] [] [] [] [] [] []]. Qed.

Lemma lower_char_bracket c :
  Ascii.eqb "[" (lower_char c) = Ascii.eqb "[" c.
Proof. by destruct c as [[] [] [] [] [] [] [] []]. Qed.

Lemma no_nl_lower s : no_nl (lower s) = no_nl s.
Proof.
  induction s as [|c s IH]; [done|].
  unfold lower in *. cbn [map_chars no_nl]. by rewrite IH, lower_char_nl.
Qed.

Lemma quiet_domain_realm name :
  safe_realm_name name → quiet_text (DOMAIN_REALM_TEMPLATE (lower name) name).
Proof.
  intros (Hw & _ & Hb).
  destruct (word_cons _ Hw) as (c & s & E & Hc & Hs).
  pose proof (word_no_nl _ Hw) as Hnl.
  set (tail := " = " +:+ name).
  assert (no_nl tail = true) as Htail.
  { unfold tail. by rewrite no_nl_app, Hnl. }
  assert (DOMAIN_REALM_TEMPLATE (lower name) name =
          ((" " +:+ String "." (lower name +:+ tail)) +:+ nl) +:+
          ((" " +:+ String (lower_char c) (lower s +:+ tail)) +:+ nl)) as ->.
  { unfold DOMAIN_REALM_TEMPLATE, tail. rewrite E. unfold lower.
    cbn [map_chars]. by norm_app. }
  apply quiet_app.
  - apply quiet_line_visible; [done..|].
    rewrite no_nl_app. cbn [no_nl]. by rewrite no_nl_app, no_nl_lower, Hnl, Htail.
  - rewrite E in Hb, Hnl. rewrite startswith_head in Hb.
    cbn [no_nl] in Hnl. apply andb_true_iff in Hnl as [Hcn Hsn].
    apply quiet_line_visible.
    + done.
    + by rewrite lower_char_space.
    + by rewrite lower_char_bracket.
    + rewrite no_nl_app. cbn [no_nl].
      by rewrite lower_char_nl, Hcn, no_nl_app, no_nl_lower, Hsn, Htail.
Qed.

(** ** Round trip: the realm blocks *)

Lemma scan_blocks adm incs R (l : list (string * gset string)) :
  NoDup l.*1 → Forall (safe_entry adm) l →
  ∀ old ks ads,
  ∃ rl dl old' ks' ads',
    save_realms adm l = Ret (rl, dl) ∧
    scan (λ x, x) (mkLoad true old ks ads incs) (concat rl +:+ R) =
      scan (λ x, x) (mkLoad true old' ks' ads' incs) R ∧
    (∀ r, default ∅ (ks' !! r) =
          default ∅ (ks !! r) ∪
          default ∅ ((list_to_map l : gmap string (gset string)) !! r)) ∧
    (∀ r, ads' !! r =
          match (list_to_map l : gmap string (gset string)) !! r with
          | Some kdcs => if decide (kdcs = ∅) then ads !! r else adm !! r
          | None => ads !! r
          end) ∧
    quiet_text (concat dl).
Proof.
  induction l as [|[realm kdcs] l IH]; intros Hnd Hsafe old ks ads.
  - exists [], [], old, ks, ads. split_and!; [done..| | |apply quiet_nil].
    + intros r. cbn [list_to_map foldr]. rewrite lookup_empty. set_solver.
    + intros r. cbn [list_to_map foldr]. by rewrite lookup_empty.
  - cbn [fmap list_fmap fst] in Hnd. apply NoDup_cons in Hnd as [Hfresh Hnd].
    apply Forall_cons in Hsafe as [He Hsafe].
    assert ((list_to_map l : gmap string (gset string)) !! realm = None)
      as Hnone by by apply not_elem_of_list_to_map_1.
    cbn [save_realms]. case_bool_decide as Hempty.
    + (* a realm without KDCs is not written *)
      destruct (IH Hnd Hsafe old ks ads)
        as (rl & dl & old' & ks' & ads' & -> & Hscan & Hks & Hads & Hq).
      exists rl, dl, old', ks', ads'. split_and!; [done..| | |done].
      * intros r. rewrite Hks. cbn [list_to_map foldr uncurry].
        destruct (decide (r = realm)) as [->|Hne].
        -- by rewrite lookup_insert_eq, Hnone, Hempty.
        -- by rewrite lookup_insert_ne.
      * intros r. rewrite Hads. cbn [list_to_map foldr uncurry].
        destruct (decide (r = realm)) as [->|Hne].
        -- rewrite lookup_insert_eq, Hnone. by rewrite decide_True.
        -- by rewrite lookup_insert_ne.
    + destruct (He Hempty) as ((Hw & Hup & Hb) & Hhosts & a & Ha & Hin).
      cbn [fst snd] in *. rewrite Hup, Ha.
      set (hosts := elements kdcs).
      set (ks1 := fold_left (λ m k, kdcs_add realm k m) hosts ks).
      set (ads1 := <[realm := Some a]> ads).
      destruct (IH Hnd Hsafe (Some realm) ks1 ads1)
        as (rl & dl & old' & ks' & ads' & -> & Hscan & Hks & Hads & Hq).
      eexists _, _, old', ks', ads'. split_and!; [done| | | |].
      * cbn [concat foldr]. rewrite append_assoc.
        rewrite scan_realm_block; [exact Hscan|done| | |by auto].
        -- unfold hosts. intros E. by apply elements_empty_inv, leibniz_equiv in E.
        -- apply Forall_forall. intros k Hk. apply Hhosts.
           by apply elem_of_elements.
      * intros r. rewrite Hks. unfold ks1. rewrite kdcs_add_fold_lookup.
        cbn [list_to_map foldr uncurry].
        destruct (decide (r = realm)) as [->|Hne].
        -- rewrite lookup_insert_eq, Hnone. unfold hosts.
           rewrite list_to_set_elements_L. cbn [default]. set_solver.
        -- by rewrite lookup_insert_ne.
      * intros r. rewrite Hads. unfold ads1. cbn [list_to_map foldr uncurry].
        destruct (decide (r = realm)) as [->|Hne].
        -- rewrite lookup_insert_eq, Hnone, lookup_insert_eq.
           by rewrite decide_False.
        -- by rewrite !(lookup_insert_ne _ realm r) by done.
      * cbn [concat foldr]. apply quiet_app; [|done].
        by apply quiet_domain_realm.
Qed.

(** ** Round trip: the fixed parts of the file *)

Lemma lines_from_prefix cur p rest :
  ends_nl p = true →
  lines_from cur (p +:+ rest) = lines_from cur p ++ lines_from (λ x, x) rest.
Proof.
  revert cur. induction p as [|c p IH]; intros cur Hp; [done|].
  rewrite append_cons. cbn [lines_from].
  destruct p as [|c2 p].
  - cbn [ends_nl] in Hp. rewrite Hp. done.
  - change (ends_nl (String c (String c2 p))) with (ends_nl (String c2 p)) in Hp.
    destruct (Ascii.eqb c nl_char); by rewrite IH.
Qed.

(** Whole lines in front of a text are scanned first. *)
Lemma scan_prefix st p rest :
  ends_nl p = true →
  scan (λ x, x) st (p +:+ rest) =
  scan (λ x, x) (fold_left load_line (readlines p) st) rest.
Proof.
  intros Hp. unfold scan, readlines.
  by rewrite lines_from_prefix, fold_left_app.
Qed.

Lemma template_parts i r d :
  KRB5_CONF_TEMPLATE i r d =
  preamble +:+ i +:+ boilerplate +:+ r +:+ realms_end +:+ d.
Proof. reflexivity. Qed.

Lemma scan_preamble incs :
  fold_left load_line (readlines preamble) (mkLoad false None ∅ ∅ incs) =
  mkLoad false None ∅ ∅ incs.
Proof. reflexivity. Qed.

Lemma scan_boilerplate incs :
  fold_left load_line (readlines boilerplate) (mkLoad false None ∅ ∅ incs) =
  mkLoad true None ∅ ∅ incs.
Proof. reflexivity. Qed.

Lemma scan_realms_end old ks ads incs :
  fold_left load_line (readlines realms_end) (mkLoad true old ks ads incs) =
  mkLoad false old ks ads incs.
Proof. reflexivity. Qed.

(** ** Round trip: the theorem *)

Lemma no_nl_head_of p : no_nl p = true → no_nl (OsPath.head_of p) = true.
Proof.
  induction p as [|c p IH]; [done|]. cbn [no_nl OsPath.head_of].
  intros [Hc Hp]%andb_true_iff.
  destruct (contains "/" p); [cbn [no_nl]; by rewrite Hc, IH|].
  by destruct (Ascii.eqb c OsPath.slash).
Qed.

Lemma no_nl_rstrip_by f s : no_nl s = true → no_nl (rstrip_by f s) = true.
Proof.
  induction s as [|c s IH]; [done|]. cbn [no_nl rstrip_by].
  intros [Hc Hs]%andb_true_iff. specialize (IH Hs).
  destruct (rstrip_by f s).
  - destruct (f c); [done|]. cbn [no_nl]. by rewrite Hc.
  - cbn [no_nl] in *. by rewrite Hc, IH.
Qed.

Lemma no_nl_dirname p : no_nl p = true → no_nl (OsPath.dirname p) = true.
Proof.
  intros Hp. unfold OsPath.dirname.
  destruct (_ && _); [apply no_nl_rstrip_by|]; by apply no_nl_head_of.
Qed.

Lemma no_nl_config_dir c : no_nl (path c) = true → no_nl (config_dir c) = true.
Proof.
  intros Hp. unfold config_dir, OsPath.join. cbn [fold_left].
  unfold OsPath.join2. change (startswith "config" "/") with false. cbn iota.
  destruct (_ || _); rewrite !no_nl_app, no_nl_dirname by done; done.
Qed.

Lemma config_dir_nonempty c : config_dir c ≠ "".
Proof.
  unfold config_dir, OsPath.join. cbn [fold_left].
  unfold OsPath.join2. change (startswith "config" "/") with false. cbn iota.
  destruct (_ || _); by destruct (OsPath.dirname (path c)).
Qed.

Lemma ensure_dir_total d w : d ≠ "" → ∃ w', ensure_dir d w = (Ret tt, w').
Proof.
  intros Hd. unfold ensure_dir, isdir, makedirs. run_monad.
  destruct (bool_decide _); [by eexists|].
  destruct (String.eqb_spec d ""); [done|by eexists].
Qed.

(** [save] returns normally when every written realm has an admin server
    under its upper-case name and the file has a directory. *)
Lemma save_total w rl dl :
  let c := config w in
  save_realms (admin_servers c) (map_to_list (realms c)) = Ret (rl, dl) →
  OsPath.dirname (path c) ≠ "" →
  ∃ w1, save w = (Ret tt, w1).
Proof.
  intros c Hr Hd. unfold save. run_monad. fold c. rewrite Hr. run_monad.
  destruct (ensure_dir_total _ w Hd) as [w2 E2]. rewrite E2. run_monad.
  fold (config_dir c).
  destruct (ensure_dir_total _ w2 (config_dir_nonempty c)) as [w3 E3].
  rewrite E3. unfold write_file. run_monad. by eexists.
Qed.

Lemma safe_entries c :
  admin_among_kdcs c → round_trip_safe c →
  Forall (safe_entry (admin_servers c)) (map_to_list (realms c)).
Proof.
  intros Hinv (_ & _ & Hsafe). apply Forall_forall.
  intros [realm kdcs] Hin%elem_of_map_to_list Hne. cbn [fst snd] in *.
  destruct (Hsafe realm kdcs Hin Hne) as [Hname Hhosts].
  split_and!; [done..|].
  destruct (Hinv realm) as (a & Ha & Hmem).
  - unfold kdcs_of. by rewrite Hin.
  - exists a. split; [done|]. unfold kdcs_of in Hmem. by rewrite Hin in Hmem.
Qed.

(** C4, as stated, fails: a configuration whose only host has a blank
    inside satisfies the invariant, [save] and [load] return normally, and
    the KDC set read back is not the one that was saved (it holds the first
    word of the host). *)
Lemma load_save_loses_host :
  let r := load (save (example_world blank_host)).2 in
  admin_among_kdcs blank_host ∧
  ∃ ks ads, r.1 = Ret (ks, ads) ∧
            default ∅ (ks !! "R") ≠ kdcs_of blank_host "R".
Proof.
  cbn zeta. split.
  { intros realm Hne. destruct (decide (realm = "R")) as [->|Hr].
    - exists "a b". split; [done|]. unfold kdcs_of, blank_host.
      cbn [realms]. rewrite lookup_singleton_eq. cbn [default]. set_solver.
    - exfalso. apply Hne. unfold kdcs_of, blank_host. cbn [realms].
      by rewrite lookup_singleton_ne. }
  assert (match (load (save (example_world blank_host)).2).1 with
          | Ret (ks, _) => elements (default ∅ (ks !! "R")) = ["a"]
          | Raise _ => False
          end) as Hread by by vm_compute.
  destruct (load (save (example_world blank_host)).2).1 as [[ks ads]|e];
    [|done].
  exists ks, ads. split; [done|]. intros Heq. rewrite Heq in Hread.
  revert Hread. by vm_compute.
Qed.

(** C4, amended.  Take a configuration that satisfies the invariant and
    in which every realm with KDCs has an upper-case name that is one word
    and does not start with an opening bracket, every KDC is one word that
    does not start with an opening brace, and neither the path nor an
    include directory holds a newline; let the file have a directory.
    Then [save] returns normally, and [load] on what it wrote yields the
    same KDC set for every realm and the same admin server for every realm
    that has KDCs; a realm without KDCs is not written and has no admin
    server after the load. *)
Theorem load_save_round_trip w :
  let c := config w in
  admin_among_kdcs c → round_trip_safe c → OsPath.dirname (path c) ≠ "" →
  ∃ w1 w2 ks ads,
    save w = (Ret tt, w1) ∧ load w1 = (Ret (ks, ads), w2) ∧
    (∀ r, default ∅ (ks !! r) = kdcs_of c r) ∧
    (∀ r, ads !! r =
          if decide (kdcs_of c r = ∅) then None else admin_servers c !! r).
Proof.
  intros c Hinv Hsafe Hdir.
  pose proof (safe_entries c Hinv Hsafe) as Hentries.
  pose proof (NoDup_fst_map_to_list (realms c)) as Hnd.
  destruct Hsafe as (Hpath & Hincs & _).
  destruct (scan_blocks (admin_servers c) ∅ "" _ Hnd Hentries None ∅ ∅)
    as (rl & dl & _ & _ & _ & Hrl & _ & _ & _ & Hquiet).
  destruct (save_total w rl dl Hrl Hdir) as [w1 Hsave].
  destruct (save_ok _ _ Hsave) as (rl' & dl' & made & Hrl' & Hc1 & Hf1 & _).
  fold c in Hrl', Hc1, Hf1. rewrite Hrl in Hrl'. injection Hrl' as <- <-.
  (* the scan of the written text *)
  set (incs0 := includedirs (saved c)).
  assert (∃ old ks ads incs,
            load_text incs0 (rendered c rl dl) = mkLoad false old ks ads incs ∧
            (∀ r, default ∅ (ks !! r) = kdcs_of c r) ∧
            (∀ r, ads !! r = if decide (kdcs_of c r = ∅) then None
                             else admin_servers c !! r))
    as (old & ks & ads & incs & Hscan & Hks & Hads).
  { rewrite load_text_scan. unfold rendered. rewrite template_parts.
    rewrite scan_prefix, scan_preamble by done.
    assert (quiet_text
              (concat (INCLUDEDIR_TEMPLATE <$>
                         elements ({[config_dir c]} ∪ includedirs c))))
      as Hq_incs.
    { apply quiet_concat, Forall_fmap, Forall_forall.
      intros d Hd%elem_of_elements. apply quiet_includedir.
      apply elem_of_union in Hd as [->%elem_of_singleton|Hd]; [|by auto].
      by apply no_nl_config_dir. }
    destruct (Hq_incs None ∅ ∅ incs0
                (boilerplate +:+ concat rl +:+ realms_end +:+ concat dl))
      as [incs1 ->].
    rewrite scan_prefix, scan_boilerplate by done.
    destruct (scan_blocks (admin_servers c) incs1
                (realms_end +:+ concat dl) _ Hnd Hentries None ∅ ∅)
      as (rl2 & dl2 & old' & ks' & ads' & Hrl2 & Hblocks & Hks & Hads & _).
    rewrite Hrl in Hrl2. injection Hrl2 as <- <-. rewrite Hblocks.
    rewrite scan_prefix, scan_realms_end by done.
    rewrite <- (append_nil_r (concat dl)).
    destruct (Hquiet old' ks' ads' incs1 "") as [incs2 ->].
    exists old', ks', ads', incs2. split; [done|].
    rewrite list_to_map_to_list in Hks, Hads. split.
    - intros r. rewrite Hks, lookup_empty. unfold kdcs_of.
      cbn [default]. set_solver.
    - intros r. rewrite Hads, lookup_empty. unfold kdcs_of.
      destruct (realms c !! r) as [kdcs|]; cbn [default];
        repeat case_decide; done. }
  (* [load] reads the file [save] wrote *)
  exists w1. eexists _, ks, ads. split; [done|]. split; [|done].
  unfold load. run_monad. rewrite Hf1, Hc1. cbn [path saved].
  rewrite lookup_insert_eq. fold incs0. rewrite Hscan. run_monad. done.
Qed.

Lemma example_realm_invariant : admin_among_kdcs example_realm.
Proof.
  intros realm Hne. destruct (decide (realm = "EXAMPLE.COM")) as [->|Hr].
  - exists "10.10.10.10". split; [done|]. unfold kdcs_of, example_realm.
    cbn [realms]. rewrite lookup_singleton_eq. cbn [default]. set_solver.
  - exfalso. apply Hne. unfold kdcs_of, example_realm. cbn [realms].
    by rewrite lookup_singleton_ne.
Qed.

Lemma example_realm_safe : round_trip_safe example_realm.
Proof.
  split_and!; [done|set_solver|].
  intros realm kdcs Hlook _. unfold example_realm in Hlook. cbn [realms] in Hlook.
  apply lookup_singleton_Some in Hlook as [<- <-]. split.
  - by repeat split.
  - intros k [Hk|Hk]%elem_of_union; apply elem_of_singleton in Hk as ->;
      by repeat split.
Qed.

Lemma load_save_round_trip_witness :
  ∃ w1 w2 ks ads,
    save (example_world example_realm) = (Ret tt, w1) ∧
    load w1 = (Ret (ks, ads), w2) ∧
    (∀ r, default ∅ (ks !! r) = kdcs_of example_realm r) ∧
    (∀ r, ads !! r =
          if decide (kdcs_of example_realm r = ∅) then None
          else admin_servers example_realm !! r).
Proof.
  apply (load_save_round_trip (example_world example_realm)).
  - apply example_realm_invariant.
  - apply example_realm_safe.
  - vm_compute. discriminate.
Defined.

(** * Further properties of the module *)

(** ** [save] *)

Lemma save_realms_raise adm l e :
  save_realms adm l = Raise e →
  ∃ realm kdcs, (realm, kdcs) ∈ l ∧ kdcs ≠ ∅ ∧ e = KeyError (upper realm) ∧
                adm !! upper realm = None.
Proof.
  induction l as [|[realm kdcs] l IH]; [done|]. cbn [save_realms].
  case_bool_decide as Hempty.
  - intros (r & k & Hin & ?)%IH. exists r, k. split; [by right|done].
  - destruct (adm !! upper realm) as [a|] eqn:Ha.
    + destruct (save_realms adm l) as [[rl dl]|e'] eqn:E; [done|].
      intros [= <-]. destruct (IH eq_refl) as (r & k & Hin & ?).
      exists r, k. split; [by right|done].
    + intros [= <-]. exists realm, kdcs. split; [by left|done].
Qed.

Lemma save_realms_missing adm l realm kdcs :
  (realm, kdcs) ∈ l → kdcs ≠ ∅ → adm !! upper realm = None →
  ∃ k, save_realms adm l = Raise (KeyError k).
Proof.
  intros Hin Hne Hnone. induction l as [|[r ks] l IH]; [by apply elem_of_nil in Hin|].
  cbn [save_realms]. apply elem_of_cons in Hin as [[= <- <-]|Hin].
  - rewrite bool_decide_eq_false_2 by done. rewrite Hnone. by eexists.
  - destruct (IH Hin) as [k Hk]. case_bool_decide; [by eexists|].
    destruct (adm !! upper r); [|by eexists]. rewrite Hk. by eexists.
Qed.


(** After a [save] that returned normally the file holds the text of the
    configuration in memory. *)
Lemma save_ok_persisted w w1 : save w = (Ret tt, w1) → persisted w1.
Proof.
  intros Hs.
  apply save_ok in Hs as (rl & dl & made & Hrl & Hc1 & Hf1 & _).
  exists rl, dl. rewrite Hc1. cbn [saved admin_servers realms path].
  split; [done|]. fold (saved (config w)). rewrite rendered_saved, Hf1.
  apply lookup_insert_eq.
Qed.

(** X1.  A [save] that returns normally leaves the path, the realms and
    the admin servers as they were, registers the configuration directory
    beside the file among the include directories, has that directory on
    disk, and leaves the file holding exactly the text of the configuration
    now in memory. *)
Theorem save_persists w w1 :
  save w = (Ret tt, w1) →
  let c := config w in
  path (config w1) = path c ∧ realms (config w1) = realms c ∧
  admin_servers (config w1) = admin_servers c ∧
  includedirs (config w1) = {[config_dir c]} ∪ includedirs c ∧
  config_dir c ∈ dirs w1 ∧ environ w1 = environ w ∧ persisted w1.
Proof.
  intros Hs c. pose proof (save_ok_persisted _ _ Hs) as Hp.
  apply save_ok in Hs as (rl & dl & made & Hrl & Hc1 & Hf1 & He1 & _ & Hcd & _).
  fold c in Hrl, Hc1, Hf1, Hcd. rewrite Hc1. by split_and!.
Qed.

Lemma save_persists_witness :
  let w1 := (save (example_world example_realm)).2 in
  path (config w1) = path example_realm ∧
  realms (config w1) = realms example_realm ∧
  admin_servers (config w1) = admin_servers example_realm ∧
  includedirs (config w1) =
    {[config_dir example_realm]} ∪ includedirs example_realm ∧
  config_dir example_realm ∈ dirs w1 ∧
  environ w1 = environ (example_world example_realm) ∧ persisted w1.
Proof.
  apply (save_persists (example_world example_realm)).
  vm_compute. reflexivity.
Defined.

(** X2.  [save] raises [KeyError] exactly for a realm that has KDCs and no
    admin-server entry under its upper-case name, and it raises before it
    touches anything: the world is left as it was.  A lower-case realm
    name read from a hand-written file is such a realm. *)
Theorem save_KeyError w :
  let c := config w in
  (∀ k w', save w = (Raise (KeyError k), w') →
     w' = w ∧
     ∃ realm kdcs, realms c !! realm = Some kdcs ∧ kdcs ≠ ∅ ∧
                   k = upper realm ∧ admin_servers c !! k = None) ∧
  (∀ realm kdcs, realms c !! realm = Some kdcs → kdcs ≠ ∅ →
     admin_servers c !! upper realm = None →
     ∃ k, save w = (Raise (KeyError k), w)).
Proof.
  intros c. split.
  - intros k w'. unfold save. run_monad. fold c.
    destruct (save_realms _ _) as [[rl dl]|e] eqn:E; run_monad.
    + unfold ensure_dir, isdir, makedirs, write_file. run_monad.
      repeat (destruct (bool_decide _) || destruct (String.eqb _ "")
              || run_monad); done.
    + intros [= -> <-]. split; [done|].
      apply save_realms_raise in E
        as (realm & kdcs & Hin%elem_of_map_to_list & Hne & [= ->] & Hnone).
      by exists realm, kdcs.
  - intros realm kdcs Hin%elem_of_map_to_list Hne Hnone.
    destruct (save_realms_missing _ _ _ _ Hin Hne Hnone) as [k Hk].
    exists k. unfold save. run_monad. fold c. by rewrite Hk.
Qed.

Lemma save_KeyError_witness :
  ∃ k, save (example_world lower_case_realm)
       = (Raise (KeyError k), example_world lower_case_realm).
Proof.
  apply (proj2 (save_KeyError (example_world lower_case_realm))
           "example.com" {["10.10.10.10"]}).
  - reflexivity.
  - set_solver.
  - reflexivity.
Defined.

(** X3.  Saving twice: after a [save] that returned normally a second
    [save] returns normally, creates no directory, and writes the same
    text to the same file; configuration, files and directories are as the
    first call left them. *)
Theorem save_twice w w1 :
  save w = (Ret tt, w1) →
  ∃ text,
    files w1 !! path (config w1) = Some text ∧
    save w1 =
      (Ret tt,
       mkWorld (config w1) (files w1) (dirs w1) (environ w1)
         (log w1 ++ [Wrote (path (config w1)) text])).
Proof.
  intros Hs.
  apply save_ok in Hs as (rl & dl & made & Hrl & Hc1 & Hf1 & He1 & Hd & Hcd & _).
  set (c := config w) in *.
  exists (rendered c rl dl). split.
  { rewrite Hc1, Hf1. apply lookup_insert_eq. }
  rewrite (save_in_place w1 rl dl).
  - rewrite Hc1. rewrite saved_idemp, rendered_saved. cbn [path saved].
    rewrite Hf1, insert_insert_eq. done.
  - by rewrite Hc1.
  - by rewrite Hc1.
  - by rewrite Hc1.
Qed.

Lemma save_twice_witness :
  ∃ text,
    files (save (example_world example_realm)).2
      !! path (config (save (example_world example_realm)).2) = Some text ∧
    save (save (example_world example_realm)).2 =
      (Ret tt,
       mkWorld (config (save (example_world example_realm)).2)
         (files (save (example_world example_realm)).2)
         (dirs (save (example_world example_realm)).2)
         (environ (save (example_world example_realm)).2)
         (log (save (example_world example_realm)).2 ++
          [Wrote (path (config (save (example_world example_realm)).2)) text])).
Proof.
  apply (save_twice (example_world example_realm)).
  vm_compute. reflexivity.
Defined.

(** ** [load] *)

Lemma load_line_includedirs st line :
  seen_includedirs st ⊆ seen_includedirs (load_line st line).
Proof.
  destruct st as [sec realm ks ads incs]. unfold load_line.
  repeat (destruct (startswith _ _)); cbn [seen_includedirs]; try done.
  - destruct (Re.re_search _ _); cbn [seen_includedirs]; set_solver.
  - destruct sec; [|done]. destruct (String.eqb _ _); [done|].
    destruct (Re.re_search realm_open_re _); [done|].
    by destruct realm as [[|? ?]|].
Qed.

Lemma load_lines_includedirs lines st :
  seen_includedirs st ⊆ seen_includedirs (fold_left load_line lines st).
Proof.
  revert st. induction lines as [|l lines IH]; intros st; [done|].
  cbn [fold_left]. etrans; [apply (load_line_includedirs st l)|apply IH].
Qed.

(** X4.  [load] only reads: it returns normally, it leaves the files, the
    directories, the environment, the log, and the path, realms and admin
    servers of the configuration as they were, and it never drops an
    include directory: the ones already registered stay. *)
Theorem load_only_adds_includedirs w :
  ∃ ks ads incs,
    load w =
      (Ret (ks, ads),
       with_config
         (mkConfig (path (config w)) incs (realms (config w))
            (admin_servers (config w))) w) ∧
    includedirs (config w) ⊆ incs.
Proof.
  unfold load. run_monad. destruct w as [[p incs rs adm] fs ds env lg].
  cbn [config files path includedirs realms admin_servers].
  destruct (fs !! p) as [text|]; run_monad.
  - eexists _, _, _. split; [done|]. unfold load_text.
    apply (load_lines_includedirs _ (mkLoad false None ∅ ∅ incs)).
  - by exists ∅, ∅, incs.
Qed.

Lemma load_lines_outside lines old ks ads incs :
  Forall (λ line, startswith (strip line) "[realms]" = false) lines →
  ∃ incs',
    fold_left load_line lines (mkLoad false old ks ads incs) =
    mkLoad false old ks ads incs'.
Proof.
  intros Hl. revert incs. induction Hl as [|l lines Hq _ IH]; intros incs.
  - by exists incs.
  - cbn [fold_left].
    destruct (load_line_outside old ks ads incs l Hq) as [incs1 ->].
    apply IH.
Qed.

(** X5.  Without a line that opens the realms section nothing is read as a
    realm: whatever else the file holds (kdc lines, admin_server lines,
    brace blocks), [load] returns no KDC and no admin server. *)
Theorem load_without_realms_header w text :
  files w !! path (config w) = Some text → no_realms_header text →
  ∃ w', load w = (Ret (∅, ∅), w').
Proof.
  intros Hfile Hq. unfold load. run_monad. rewrite Hfile. run_monad.
  unfold load_text.
  destruct (load_lines_outside _ None ∅ ∅ (includedirs (config w)) Hq)
    as [incs' ->].
  by eexists.
Qed.

Lemma load_without_realms_header_witness :
  ∃ w', load (mkWorld no_realm {["/opt/zenoss/var/krb5.conf" := headerless_text]}
                ∅ ∅ []) = (Ret (∅, ∅), w').
Proof.
  apply (load_without_realms_header _ headerless_text).
  - reflexivity.
  - vm_compute. repeat constructor.
Defined.

(** ** [Config.__init__] and [get_path] *)

(** X6.  Building the singleton: [Config()] returns normally, takes its
    path from [get_path], starts from no include directory, writes nothing,
    and exports the path as KRB5_CONFIG, so that every later [get_path]
    answers the path of the singleton whatever ZENHOME and HOME become. *)
Theorem Config_init_exports_path w :
  ∃ w', Config_init w = (Ret tt, w') ∧
        path (config w') = get_path (environ w) ∧
        environ w' = <["KRB5_CONFIG" := path (config w')]> (environ w) ∧
        (∀ z h, get_path (<["ZENHOME" := z]> (<["HOME" := h]> (environ w')))
                = path (config w')) ∧
        files w' = files w ∧ dirs w' = dirs w ∧ log w' = log w.
Proof.
  unfold Config_init, load, environ_setitem. run_monad.
  destruct (files w !! get_path (environ w)) as [text|]; run_monad.
  - eexists. split; [done|]. cbn [config path environ files dirs log].
    split_and!; [done..| |done|done|done].
    intros z h. unfold get_path.
    by rewrite lookup_insert_ne, lookup_insert_ne, lookup_insert_eq.
  - eexists. split; [done|]. cbn [config path environ files dirs log].
    split_and!; [done..| |done|done|done].
    intros z h. unfold get_path.
    by rewrite lookup_insert_ne, lookup_insert_ne, lookup_insert_eq.
Qed.

(** ** What [load] can return *)

Lemma all_chars_nonspace s : all_chars (Re.cmatch Re.NonSpace) s = all_nonspace s.
Proof. induction s as [|c s IH]; [done|]. cbn [all_chars all_nonspace]. by rewrite IH. Qed.

(** What a repetition took is in its class. *)
Lemma greedy_some {A} p (k : string → string → option A) s r :
  Re.greedy p k s = Some r →
  ∃ taken rest, s = taken +:+ rest ∧ all_chars p taken = true ∧
                k taken rest = Some r.
Proof.
  revert k. induction s as [|c s IH]; intros k; cbn [Re.greedy].
  - intros Hk. by exists "", "".
  - destruct (p c) eqn:Hc; [|intros Hk; by exists "", (String c s)].
    destruct (Re.greedy p _ s) as [r'|] eqn:E.
    + intros [= ->]. apply IH in E as (taken & rest & -> & Hall & Hk).
      exists (String c taken), rest. cbn [all_chars]. by rewrite Hc, Hall.
    + intros Hk. by exists "", (String c s).
Qed.

Lemma emit_some grp taken o g :
  Re.emit grp taken o = Some g →
  ∃ g', o = Some g' ∧ g = if grp then taken :: g' else g'.
Proof.
  destruct grp, o as [g'|]; cbn; try done; intros [= <-]; by eexists.
Qed.

(** The groups of a match of a pattern whose groups are all [(\S+)] are
    words, one for each group. *)
Lemma match_here_words r s g :
  groups_are_words r = true → Re.match_here r s = Some g →
  Forall word g ∧ length g = group_count r.
Proof.
  revert s g. induction r as [|[cl q grp] r IH]; intros s g Hr.
  - intros [= <-]. by split.
  - assert (groups_are_words r = true ∧
            (grp = true → cl = Re.NonSpace ∧ q = Re.Plus)) as [Hr' Hgrp].
    { destruct cl, q, grp; cbn [groups_are_words] in Hr; try done; by split. }
    assert (group_count (Re.Piece cl q grp :: r) =
            if grp then S (group_count r) else group_count r) as ->.
    { by destruct grp. }
    destruct q; cbn [Re.match_here].
    + destruct s as [|c s]; [done|]. destruct (Re.cmatch cl c); [|done].
      intros (g' & Hg' & ->)%emit_some. destruct grp; [by destruct Hgrp|].
      by apply (IH s).
    + destruct s as [|c s]; [done|]. destruct (Re.cmatch cl c) eqn:Hc; [|done].
      intros (taken & rest & -> & Hall & (g' & Hg' & ->)%emit_some)%greedy_some.
      destruct (IH rest g' Hr' Hg') as [Hw Hlen].
      destruct grp; [|done]. destruct Hgrp as [-> _]; [done|].
      split; [|by cbn; rewrite Hlen]. constructor; [|done].
      split; [done|]. cbn [all_nonspace]. cbn [Re.cmatch] in Hc.
      by rewrite Hc, <- all_chars_nonspace.
    + intros (taken & rest & -> & Hall & (g' & Hg' & ->)%emit_some)%greedy_some.
      destruct grp; [by destruct Hgrp|]. by apply (IH rest).
Qed.

Lemma re_search_words r s g :
  groups_are_words r = true → Re.re_search r s = Some g →
  Forall word g ∧ length g = group_count r.
Proof.
  intros Hr. induction s as [|c s IH]; cbn [Re.re_search].
  - destruct (Re.match_here r "") eqn:E; [|done].
    intros [= <-]. by apply (match_here_words r "").
  - destruct (Re.match_here r (String c s)) eqn:E; [|done].
    intros [= <-]. by apply (match_here_words r (String c s)).
Qed.

(** The one group of a pattern of [load] is a word. *)
Lemma re_search_group1 r s m :
  groups_are_words r = true → group_count r = 1 →
  Re.re_search r s = Some m → word (Re.group 1 m).
Proof.
  intros Hr Hn Hm. destruct (re_search_words r s m Hr Hm) as [Hw Hlen].
  rewrite Hn in Hlen. destruct m as [|x [|y m]]; [done| |done].
  by apply Forall_cons in Hw as [Hx _].
Qed.

Lemma load_line_holds_words known st line :
  holds_words known st → holds_words known (load_line st line).
Proof.
  destruct st as [sec realm ks ads incs]. intros (Hrealm & Hks & Hads & Hincs).
  cbn [in_realm realm_kdcs realm_adminservers seen_includedirs] in *.
  unfold load_line.
  destruct (startswith _ "[realms]"); [done|].
  destruct (startswith _ "["); [done|].
  destruct (startswith _ "includedir").
  { destruct (Re.re_search includedir_re line) as [m|] eqn:E; [|done].
    split_and!; [done..|]. cbn [seen_includedirs].
    intros d [->%elem_of_singleton|Hd]%elem_of_union; [right|by auto].
    by apply (re_search_group1 includedir_re line m). }
  destruct sec; [|done]. destruct (String.eqb _ ""); [done|].
  destruct (Re.re_search realm_open_re _) as [m|] eqn:Eopen.
  { split_and!; [|done..]. cbn [in_realm]. intros r [= <-].
    by apply (re_search_group1 realm_open_re (strip line) m). }
  destruct realm as [[|c realm]|]; [done| |done].
  assert (word (String c realm)) as Hw by by apply Hrealm.
  split_and!; [done| | |done].
  - cbn [realm_kdcs].
    destruct (Re.re_search kdc_re _) as [m|] eqn:E; [|done].
    pose proof (re_search_group1 kdc_re (strip line) m eq_refl eq_refl E) as Hk.
    unfold kdcs_add. intros r kd.
    destruct (decide (r = String c realm)) as [->|Hne].
    + rewrite lookup_insert_eq. intros [= <-]. split; [done|].
      intros k [->%elem_of_singleton|Hin]%elem_of_union; [done|].
      destruct (ks !! String c realm) as [old|] eqn:Eold; [|set_solver].
      by apply (Hks _ _ Eold).
    + rewrite lookup_insert_ne by done. apply Hks.
  - cbn [realm_adminservers].
    destruct (Re.re_search admin_server_re _) as [m|] eqn:E; [|done].
    pose proof (re_search_group1 admin_server_re (strip line) m eq_refl eq_refl E)
      as Ha.
    intros r a. destruct (decide (r = String c realm)) as [->|Hne].
    + rewrite lookup_insert_eq. intros [= <-]. split; [done|]. by eexists.
    + rewrite lookup_insert_ne by done. apply Hads.
Qed.

Lemma load_lines_hold_words known lines st :
  holds_words known st → holds_words known (fold_left load_line lines st).
Proof.
  revert st. induction lines as [|l lines IH]; intros st Hst; [done|].
  cbn [fold_left]. by apply IH, load_line_holds_words.
Qed.

(** X7.  Whatever the file holds, everything [load] returns is a word, not
    empty and free of whitespace: every realm name, every KDC, every admin
    server (never [None]) and every include directory it adds. *)
Theorem load_yields_words w ks ads w' :
  load w = (Ret (ks, ads), w') →
  (∀ r kd, ks !! r = Some kd → word r ∧ ∀ k, k ∈ kd → word k) ∧
  (∀ r a, ads !! r = Some a → word r ∧ ∃ s, a = Some s ∧ word s) ∧
  (∀ d, d ∈ includedirs (config w') →
        d ∈ includedirs (config w) ∨ word d).
Proof.
  unfold load. run_monad.
  destruct (files w !! path (config w)) as [text|]; run_monad.
  - intros [= <- <- <-]. cbn [config includedirs].
    unfold load_text.
    destruct (load_lines_hold_words (includedirs (config w)) (readlines text)
                (mkLoad false None ∅ ∅ (includedirs (config w))))
      as (_ & Hks & Hads & Hincs); [|done].
    split_and!; cbn; try done. auto.
  - intros [= <- <- <-]. split_and!; try done. auto.
Qed.

Lemma load_yields_words_witness :
  let r := load untidy_world in
  (∀ x kd, (loaded r.1).1 !! x = Some kd → word x ∧ ∀ k, k ∈ kd → word k) ∧
  (∀ x a, (loaded r.1).2 !! x = Some a → word x ∧ ∃ s, a = Some s ∧ word s) ∧
  (∀ d, d ∈ includedirs (config r.2) →
        d ∈ includedirs (config untidy_world) ∨ word d).
Proof.
  apply (load_yields_words untidy_world). vm_compute. reflexivity.
Defined.

(** ** The klist protocol and [add_includedir] *)

Lemma klist_feed_result output p :
  Klist.processEnded (fold_left klist_feed output p) =
  match last (marked_errs output) with
  | Some data => Some data
  | None => Klist.processEnded p
  end.
Proof.
  revert p. induction output as [|c output IH]; intros p; [done|].
  cbn [fold_left]. rewrite IH. unfold marked_errs. cbn [omap list_omap].
  fold (marked_errs output).
  destruct c as [data|data]; cbn [klist_feed]; [done|].
  unfold Klist.errReceived.
  destruct (contains Klist.marker data) eqn:Hm; [|done].
  rewrite last_cons. destruct (last (marked_errs output)); [done|].
  unfold Klist.processEnded. cbn [Klist._error].
  by destruct data.
Qed.

(** X8.  The klist protocol reports the last standard-error chunk that
    carries the marker, whole and unchanged, and reports success when no
    chunk carries it; standard output and other standard-error text are
    ignored. *)
Theorem klist_reports_last_marked output :
  Klist.processEnded (fold_left klist_feed output Klist.init) =
  last (marked_errs output).
Proof. rewrite klist_feed_result. by destruct (last _). Qed.

Lemma marked_errs_nonempty output data :
  last (marked_errs output) = Some data → truthy (Some data) = true.
Proof.
  intros Hin%last_Some_elem_of.
  apply list_elem_of_omap in Hin as (c & _ & Hc).
  destruct c as [d|d]; [done|].
  destruct (contains Klist.marker d) eqn:Hm; [|done].
  injection Hc as ->. by destruct data.
Qed.

(** [add_includedir] up to the verdict of klist. *)
Lemma add_includedir_run output dir w w1 :
  dir ∉ includedirs (config w) →
  save (with_config (registered dir (config w)) w) = (Ret tt, w1) →
  ∃ spawn,
    add_includedir (printing output) dir w =
    let ws := mkWorld (config w1) (files w1) (dirs w1) (environ w1)
                (log w1 ++ [spawn]) in
    if truthy (last (marked_errs output)) then
      save (with_config
              (mkConfig (path (config w1)) (includedirs (config w1) ∖ {[dir]})
                 (realms (config w1)) (admin_servers (config w1))) ws)
    else (Ret tt, ws).
Proof.
  intros Hnew Hsave. unfold add_includedir. run_monad.
  rewrite bool_decide_eq_false_2 by done. run_monad.
  fold (registered dir (config w)).
  fold (with_config (registered dir (config w)) w).
  rewrite Hsave. run_monad.
  destruct (find_program_pure ["/usr/bin/klist"; "/usr/kerberos/bin/klist"] w1)
    as [klist ->].
  unfold spawnProcess, printing. run_monad.
  rewrite klist_feed_result.
  assert (match last (marked_errs output) with
          | Some data => Some data
          | None => Klist.processEnded Klist.init
          end = last (marked_errs output)) as -> by by destruct (last _).
  eexists. destruct (truthy _); run_monad; done.
Qed.

(** X9.  An include directory klist does not complain about is kept: the
    call returns normally, the directory is registered, the file holds the
    configuration in memory, and registering the same directory again does
    nothing at all, whatever the reactor. *)
Theorem add_includedir_accepted output dir w w1 :
  dir ∉ includedirs (config w) →
  save (with_config (registered dir (config w)) w) = (Ret tt, w1) →
  last (marked_errs output) = None →
  ∃ w', add_includedir (printing output) dir w = (Ret tt, w') ∧
        dir ∈ includedirs (config w') ∧
        realms (config w') = realms (config w) ∧
        admin_servers (config w') = admin_servers (config w) ∧
        persisted w' ∧
        ∀ reactor, add_includedir reactor dir w' = (Ret tt, w').
Proof.
  intros Hnew Hsave Hlast.
  destruct (add_includedir_run output dir w w1 Hnew Hsave) as [spawn ->].
  rewrite Hlast. cbn [truthy]. cbn zeta. eexists. split; [done|].
  pose proof (save_ok_persisted _ _ Hsave) as Hp.
  destruct (save_ok _ _ Hsave) as (? & ? & ? & _ & Hc1 & _).
  assert (realms (config w1) = realms (config w)) as Hr by by rewrite Hc1.
  assert (admin_servers (config w1) = admin_servers (config w)) as Ha
    by by rewrite Hc1.
  assert (dir ∈ includedirs (config w1)) as Hi by (rewrite Hc1; set_solver).
  cbn [config with_config registered realms admin_servers includedirs] in *.
  split_and!; [set_solver|done|done|done|].
  intros reactor. unfold add_includedir. run_monad.
  rewrite bool_decide_eq_true_2 by set_solver. done.
Qed.

Lemma add_includedir_accepted_witness :
  ∃ w', add_includedir (printing [Out "Ticket cache: FILE:/tmp/krb5cc_0"])
          "/etc/krb5.d" (example_world example_realm) = (Ret tt, w') ∧
        "/etc/krb5.d" ∈ includedirs (config w') ∧
        realms (config w') = realms (config (example_world example_realm)) ∧
        admin_servers (config w') =
          admin_servers (config (example_world example_realm)) ∧
        persisted w' ∧
        ∀ reactor, add_includedir reactor "/etc/krb5.d" w' = (Ret tt, w').
Proof.
  apply (add_includedir_accepted _ "/etc/krb5.d" (example_world example_realm)
           (save (with_config (registered "/etc/krb5.d" example_realm)
                    (example_world example_realm))).2).
  - set_solver.
  - vm_compute. reflexivity.
  - reflexivity.
Defined.

(** X10.  An include directory klist complains about is dropped again:
    the call still returns normally, the directory (unless it is the
    configuration directory [save] always registers) is no longer
    registered, realms and admin servers are untouched, and the file has
    been rewritten to hold the configuration without it. *)
Theorem add_includedir_rejected output data dir w w1 :
  dir ∉ includedirs (config w) →
  dir ≠ config_dir (config w) →
  save (with_config (registered dir (config w)) w) = (Ret tt, w1) →
  last (marked_errs output) = Some data →
  ∃ w', add_includedir (printing output) dir w = (Ret tt, w') ∧
        includedirs (config w') =
          {[config_dir (config w)]} ∪ includedirs (config w) ∧
        (dir ∉ includedirs (config w')) ∧
        realms (config w') = realms (config w) ∧
        admin_servers (config w') = admin_servers (config w) ∧
        persisted w'.
Proof.
  intros Hnew Hcfg Hsave Hlast.
  destruct (add_includedir_run output dir w w1 Hnew Hsave) as [spawn ->].
  rewrite Hlast, (marked_errs_nonempty _ _ Hlast). cbn zeta.
  destruct (save_ok _ _ Hsave)
    as (rl & dl & made & Hrl & Hc1 & Hf1 & He1 & Hd & Hcd & _).
  cbn [config with_config registered realms admin_servers includedirs path]
    in Hrl, Hc1, Hd, Hcd.
  set (c := config w) in *.
  match goal with |- ∃ w', save ?ws = _ ∧ _ => set (w2 := ws) end.
  assert (save_realms (admin_servers (config w2)) (map_to_list (realms (config w2)))
          = Ret (rl, dl)) as Hrl2.
  { unfold w2. cbn [config with_config admin_servers realms]. by rewrite Hc1. }
  assert (path (config w2) = path c) as Hp2.
  { unfold w2. cbn [config with_config path]. by rewrite Hc1. }
  assert (config_dir (config w2) = config_dir c) as Hcd2.
  { unfold config_dir. by rewrite Hp2. }
  rewrite (save_in_place w2 rl dl Hrl2).
  2: { rewrite Hp2. exact Hd. }
  2: { rewrite Hcd2. unfold config_dir. cbn [path registered] in Hcd. exact Hcd. }
  eexists. split; [done|]. cbn [config].
  assert (includedirs (saved (config w2)) = {[config_dir c]} ∪ includedirs c)
    as Hincs.
  { unfold saved. cbn [includedirs]. rewrite Hcd2. unfold w2.
    cbn [config with_config includedirs]. rewrite Hc1.
    cbn [saved registered includedirs path]. fold c.
    change (config_dir (registered dir c)) with (config_dir c).
    set_solver. }
  split_and!.
  - done.
  - rewrite Hincs. set_solver.
  - unfold saved, w2. cbn [realms config with_config]. by rewrite Hc1.
  - unfold saved, w2. cbn [admin_servers config with_config]. by rewrite Hc1.
  - exists rl, dl. cbn [config files]. split.
    + unfold saved. cbn [admin_servers realms]. exact Hrl2.
    + rewrite rendered_saved. cbn [saved path]. apply lookup_insert_eq.
Qed.

Lemma add_includedir_rejected_witness :
  ∃ w', add_includedir
          (printing [Err ("klist: " +:+ Klist.marker +:+ nl)])
          "/etc/krb5.d" (example_world example_realm) = (Ret tt, w') ∧
        includedirs (config w') =
          {[config_dir (config (example_world example_realm))]} ∪
          includedirs (config (example_world example_realm)) ∧
        ("/etc/krb5.d" ∉ includedirs (config w')) ∧
        realms (config w') = realms (config (example_world example_realm)) ∧
        admin_servers (config w') =
          admin_servers (config (example_world example_realm)) ∧
        persisted w'.
Proof.
  apply (add_includedir_rejected _ ("klist: " +:+ Klist.marker +:+ nl)
           "/etc/krb5.d" (example_world example_realm)
           (save (with_config (registered "/etc/krb5.d" example_realm)
                    (example_world example_realm))).2).
  - set_solver.
  - vm_compute. discriminate.
  - vm_compute. reflexivity.
  - reflexivity.
Defined.

(** ** The kinit protocol *)

Lemma startswith_app s t sub :
  startswith s sub = true → startswith (s +:+ t) sub = true.
Proof.
  revert s. induction sub as [|a sub IH]; intros s; [by destruct s, t|].
  destruct s as [|c s]; [done|]. rewrite append_cons. cbn [startswith].
  intros [-> Hs]%andb_true_iff. by rewrite IH.
Qed.

(** What a text contains, a longer text contains. *)
Lemma contains_app_l sub s t :
  contains sub s = true → contains sub (s +:+ t) = true.
Proof.
  induction s as [|c s IH].
  - cbn [contains]. rewrite orb_false_r. intros Hs.
    destruct sub; [by destruct t|done].
  - rewrite append_cons. cbn [contains].
    intros [Hs|Hs]%orb_true_iff.
    + pose proof (startswith_app (String c s) t sub Hs) as Hst.
      rewrite append_cons in Hst. by rewrite Hst.
    + by rewrite IH, orb_true_r.
Qed.

Lemma no_contains_prefix sub s t :
  contains sub (s +:+ t) = false → contains sub s = false.
Proof.
  intros H. destruct (contains sub s) eqn:E; [|done].
  by rewrite (contains_app_l _ _ t E) in H.
Qed.

Lemma stdout_of_cons_out d output :
  stdout_of (Out d :: output) = d +:+ stdout_of output.
Proof. done. Qed.

Lemma stdout_of_cons_err d output :
  stdout_of (Err d :: output) = stdout_of output.
Proof. done. Qed.

(** X11.  The password is written only to a prompt: if all the program
    prints on standard output, after what is already buffered, lacks the
    text "Password for" or lacks a colon, the protocol writes nothing to
    the program, however the output is cut into chunks. *)
Theorem kinit_feed_no_prompt_no_write output p w :
  contains "Password for" (Kinit._data p +:+ stdout_of output) = false ∨
  contains ":" (Kinit._data p +:+ stdout_of output) = false →
  ∃ p' events,
    kinit_feed p output w =
      (Ret p', mkWorld (config w) (files w) (dirs w) (environ w)
                 (log w ++ events)) ∧
    forallb (λ e, negb (is_stdin_write e)) events = true.
Proof.
  revert p w. induction output as [|[d|d] output IH]; intros p w Hno.
  - exists p, []. rewrite app_nil_r. by destruct w.
  - rewrite stdout_of_cons_out, <- append_assoc in Hno.
    cbn [kinit_feed]. unfold Kinit.outReceived.
    assert (contains "Password for" (Kinit._data p +:+ d)
            && contains ":" (Kinit._data p +:+ d) = false) as ->.
    { apply andb_false_iff.
      destruct Hno as [H|H]; [left|right]; by eapply no_contains_prefix. }
    destruct (contains "Password expired" d); run_monad.
    + destruct (IH (Kinit.mkProtocol (Kinit._password p) (Kinit._data p +:+ d)
                      (hd "" (split nl_char d)))
                  (mkWorld (config w) (files w) (dirs w) (environ w)
                     (log w ++ [Signal "KILL"])) Hno)
        as (p' & events & -> & Hev).
      exists p', (Signal "KILL" :: events). cbn [config files dirs environ log].
      by rewrite <- app_assoc.
    + destruct (IH (Kinit.mkProtocol (Kinit._password p) (Kinit._data p +:+ d)
                      (Kinit._error p))
                  (mkWorld (config w) (files w) (dirs w) (environ w)
                     (log w ++ [])) Hno)
        as (p' & events & -> & Hev).
      exists p', events. cbn [config files dirs environ log].
      by rewrite app_nil_r.
  - rewrite stdout_of_cons_err in Hno. cbn [kinit_feed].
    apply (IH (Kinit.errReceived d p) w Hno).
Qed.

Lemma kinit_feed_no_prompt_no_write_witness :
  ∃ p' events,
    kinit_feed (Kinit.init "secret")
      [Out "kinit: Cannot contact any KDC"; Err "for realm"; Out " EXAMPLE.COM"]
      (example_world no_realm) =
      (Ret p', mkWorld no_realm ∅ ∅ ∅ ([] ++ events)) ∧
    forallb (λ e, negb (is_stdin_write e)) events = true.
Proof.
  apply (kinit_feed_no_prompt_no_write _ (Kinit.init "secret")
           (example_world no_realm)).
  left. reflexivity.
Defined.

Lemma kinit_feed_quiet output p w :
  no_expiry output →
  ∃ p' events,
    kinit_feed p output w =
      (Ret p', mkWorld (config w) (files w) (dirs w) (environ w)
                 (log w ++ events)) ∧
    forallb (λ e, negb (is_signal e)) events = true ∧
    Kinit._error p' = Kinit._error p +:+ stderr_of output.
Proof.
  intros Hout. revert p w.
  induction Hout as [|[d|d] output Hd _ IH]; intros p w.
  - exists p, []. rewrite app_nil_r, append_nil_r. by destruct w.
  - cbn [kinit_feed]. unfold Kinit.outReceived. rewrite Hd.
    destruct (_ && _); run_monad.
    + destruct (IH (Kinit.mkProtocol (Kinit._password p) "" (Kinit._error p))
                  (mkWorld (config w) (files w) (dirs w) (environ w)
                     (log w ++ [StdinWrite (Kinit._password p +:+ nl)])))
        as (p' & events & -> & Hev & Herr).
      eexists p', (_ :: events). cbn [config files dirs environ log].
      rewrite <- app_assoc. by split_and!.
    + destruct (IH (Kinit.mkProtocol (Kinit._password p) (Kinit._data p +:+ d)
                      (Kinit._error p))
                  (mkWorld (config w) (files w) (dirs w) (environ w)
                     (log w ++ [])))
        as (p' & events & -> & Hev & Herr).
      exists p', events. cbn [config files dirs environ log].
      rewrite app_nil_r. by split_and!.
  - cbn [kinit_feed].
    destruct (IH (Kinit.errReceived d p) w) as (p' & events & -> & Hev & Herr).
    exists p', events. split_and!; [done..|].
    rewrite Herr. unfold Kinit.errReceived. cbn [Kinit._error].
    unfold stderr_of. cbn [omap list_omap concat foldr].
    by rewrite append_assoc.
Qed.

(** X12.  The program is killed only for an expired password, and
    otherwise standard error is the verdict: when no standard-output chunk
    contains "Password expired", the protocol sends no signal, and what it
    reports at the end is all of standard error in order, after what was
    recorded before, or success when that is empty. *)
Theorem kinit_feed_stderr_verbatim output p w :
  no_expiry output →
  ∃ p' events,
    kinit_feed p output w =
      (Ret p', mkWorld (config w) (files w) (dirs w) (environ w)
                 (log w ++ events)) ∧
    forallb (λ e, negb (is_signal e)) events = true ∧
    Kinit.processEnded p' =
      let said := Kinit._error p +:+ stderr_of output in
      if String.eqb said "" then None else Some said.
Proof.
  intros Hq. destruct (kinit_feed_quiet output p w Hq) as (p' & events & ? & ? & He).
  exists p', events. split_and!; [done..|].
  unfold Kinit.processEnded. rewrite He. cbn zeta.
  by destruct (String.eqb _ "").
Qed.

Lemma kinit_feed_stderr_verbatim_witness :
  ∃ p' events,
    kinit_feed (Kinit.init "secret")
      [Out "Password for alice@EXAMPLE.COM: ";
       Err "kinit: Preauthentication failed ";
       Err "while getting initial credentials"]
      (example_world no_realm) =
      (Ret p', mkWorld no_realm ∅ ∅ ∅ ([] ++ events)) ∧
    forallb (λ e, negb (is_signal e)) events = true ∧
    Kinit.processEnded p' =
      Some "kinit: Preauthentication failed while getting initial credentials".
Proof.
  destruct (kinit_feed_stderr_verbatim
              [Out "Password for alice@EXAMPLE.COM: ";
               Err "kinit: Preauthentication failed ";
               Err "while getting initial credentials"]
              (Kinit.init "secret") (example_world no_realm))
    as (p' & events & H1 & H2 & H3); [repeat constructor|].
  exists p', events. split_and!; [exact H1 | exact H2 | exact H3].
Defined.

(** ** [kinit] *)

Lemma framed_refl w : framed w w.
Proof. by split_and!. Qed.

Lemma framed_trans w1 w2 w3 : framed w1 w2 → framed w2 w3 → framed w1 w3.
Proof.
  intros (Hp1 & He1 & Hd1) (Hp2 & He2 & Hd2).
  split_and!; [congruence..|auto].
Qed.

Lemma bind_ret_inv {A B} (m : M A) (k : A → M B) w b w' :
  (m ≫= k) w = (Ret b, w') →
  ∃ a w1, m w = (Ret a, w1) ∧ k a w1 = (Ret b, w').
Proof.
  unfold mbind, M_bind, bind. destruct (m w) as [[a|e] w1]; [|done].
  intros H. by exists a, w1.
Qed.

Lemma bind_framed {A B} (m : M A) (k : A → M B) w :
  framed w (m w).2 → (∀ a w1, framed w1 (k a w1).2) →
  framed w ((m ≫= k) w).2.
Proof.
  unfold mbind, M_bind, bind. destruct (m w) as [[a|e] w1]; cbn [snd]; [|done].
  intros H1 H2. eapply framed_trans; [exact H1|apply H2].
Qed.

Lemma ensure_dir_framed d w : framed w (ensure_dir d w).2.
Proof.
  unfold ensure_dir, isdir, makedirs. run_monad.
  destruct (bool_decide _); [apply framed_refl|].
  destruct (String.eqb_spec d "") as [|Hd]; [apply framed_refl|].
  split_and!; [done..|]. cbn [snd dirs]. set_solver.
Qed.

Lemma save_framed w : framed w (save w).2.
Proof.
  unfold save. run_monad.
  destruct (save_realms _ _) as [[rl dl]|e]; run_monad; [|apply framed_refl].
  pose proof (ensure_dir_framed (OsPath.dirname (path (config w))) w) as H1.
  destruct (ensure_dir _ w) as [[[]|e] w1]; cbn [snd] in H1; [|done].
  pose proof (ensure_dir_framed
                (OsPath.join (OsPath.dirname (path (config w))) ["config"]) w1)
    as H2.
  destruct (ensure_dir _ w1) as [[[]|e] w2]; cbn [snd] in H2;
    [|by eapply framed_trans].
  unfold write_file. run_monad. eapply framed_trans; [exact H1|].
  eapply framed_trans; [exact H2|]. by split_and!.
Qed.

Lemma with_config_framed c w : path c = path (config w) → framed w (with_config c w).
Proof. intros Hp. by split_and!. Qed.

Lemma add_kdc_framed realm kdcs w : framed w (add_kdc realm kdcs w).2.
Proof.
  destruct (String.eqb kdcs "" || String.eqb (strip kdcs) "") eqn:Hb.
  - apply blank_iff in Hb. rewrite (add_kdc_blank _ _ _ Hb). apply framed_refl.
  - rewrite (add_kdc_unfold _ _ _ Hb). cbn zeta.
    assert (framed w (save (with_config (merged realm (parse_delta kdcs) (config w)) w)).2)
      as Hsave.
    { eapply framed_trans; [|apply save_framed]. by apply with_config_framed. }
    destruct (_ && _); [|done].
    destruct (admin_servers (config w) !! realm) as [a|];
      [|by apply with_config_framed].
    destruct (bool_decide _); [by apply with_config_framed|done].
Qed.

Lemma find_program_two a b w :
  find_program [a; b] w =
    (Ret (if bool_decide (is_Some (files w !! a)) then Some a
          else if bool_decide (is_Some (files w !! b)) then Some b
          else None), w).
Proof.
  cbn [find_program]. unfold isfile. run_monad.
  destruct (bool_decide (is_Some (files w !! a))); [done|].
  by destruct (bool_decide (is_Some (files w !! b))).
Qed.

Lemma add_includedir_framed reactor dir w :
  framed w (add_includedir reactor dir w).2.
Proof.
  unfold add_includedir. run_monad.
  destruct (bool_decide _); [apply framed_refl|].
  match goal with
  | |- context [save ?w0] =>
      pose proof (save_framed w0) as H1; destruct (save w0) as [[[]|e] w1]
  end; cbn [snd] in H1.
  2:{ eapply framed_trans; [|exact H1]. by apply with_config_framed. }
  assert (framed w w1) as Hw1.
  { eapply framed_trans; [|exact H1]. by apply with_config_framed. }
  rewrite find_program_two. unfold spawnProcess. run_monad.
  match goal with
  | |- context [reactor ?wr ?exe ?args ?env] =>
      assert (framed w wr) as Hwr
        by (eapply framed_trans; [exact Hw1|by split_and!]);
      destruct (reactor wr exe args env) as [e|output]
  end; [done|].
  destruct (truthy _); [|done]. run_monad.
  eapply framed_trans; [|apply save_framed].
  eapply framed_trans; [exact Hwr|]. by split_and!.
Qed.

(** The protocol never raises: it only adds to the log. *)
Lemma kinit_feed_run output p w :
  ∃ p' events,
    kinit_feed p output w =
      (Ret p', mkWorld (config w) (files w) (dirs w) (environ w)
                 (log w ++ events)).
Proof.
  revert p w. induction output as [|[d|d] output IH]; intros p w.
  - exists p, []. rewrite app_nil_r. by destruct w.
  - cbn [kinit_feed]. destruct (Kinit.outReceived d p) as [p1 es]. run_monad.
    destruct (IH p1 (mkWorld (config w) (files w) (dirs w) (environ w)
                       (log w ++ es))) as (p' & events & ->).
    exists p', (es ++ events). cbn [config files dirs environ log].
    by rewrite app_assoc.
  - cbn [kinit_feed]. apply IH.
Qed.

(** What a normal return of [kinit] went through. *)
Lemma kinit_ret_inv reactor username password kdc includedir w r w' :
  kinit reactor username password kdc includedir w = (Ret r, w') →
  ∃ prog user realm w3 output p',
    find_program ["/usr/bin/kinit"; "/usr/kerberos/bin/kinit"] w
      = (Ret (Some prog), w) ∧
    split "@" username = [user; realm] ∧
    framed w w3 ∧
    OsPath.dirname (get_ccname (environ w) username) ∈ dirs w3 ∧
    let call := kinit_call prog user realm username w in
    let asked := mkWorld (config w3) (files w3) (dirs w3) (environ w3)
                   (log w3 ++ [call]) in
    reactor asked (Some prog) [Some prog; Some (user +:+ "@" +:+ upper realm)]
      [("KRB5_CONFIG", path (config w));
       ("KRB5CCNAME", get_ccname (environ w) username)] = Ran output ∧
    kinit_feed (Kinit.init password) output asked = (Ret p', w') ∧
    r = Kinit.processEnded p'.
Proof.
  intros H. unfold kinit in H.
  apply bind_ret_inv in H as (found & w0 & Hfound & H).
  destruct (find_program_pure ["/usr/bin/kinit"; "/usr/kerberos/bin/kinit"] w)
    as [found' Hf'].
  rewrite Hf' in Hfound. injection Hfound as -> <-.
  destruct found as [prog|]; [|done].
  destruct (split "@" username) as [|user [|realm [|extra parts]]] eqn:Hsplit;
    [done..| |done].
  apply bind_ret_inv in H as ([] & w1 & Hinc & H).
  apply bind_ret_inv in H as ([] & w2 & Hkdc & H).
  apply bind_ret_inv in H as (wx & w2' & Hget & H).
  injection Hget as <- <-.
  apply bind_ret_inv in H as ([] & w3 & Hdir & H).
  apply bind_ret_inv in H as (c3 & w3' & Hget & H).
  injection Hget as <- <-.
  apply bind_ret_inv in H as (output & w4 & Hspawn & H).
  apply bind_ret_inv in H as (p' & w5 & Hfeed & H).
  injection H as <- <-.
  assert (framed w w1) as F1.
  { destruct includedir as [[|c dir]|]; try (injection Hinc as <-; apply framed_refl).
    pose proof (add_includedir_framed reactor (String c dir) w) as F.
    by rewrite Hinc in F. }
  assert (framed w1 w2) as F2.
  { pose proof (add_kdc_framed (upper realm) kdc w1) as F. by rewrite Hkdc in F. }
  assert (framed w w2) as F12 by by eapply framed_trans.
  pose proof (ensure_dir_framed
                (OsPath.dirname (get_ccname (environ w2) username)) w2) as F3.
  rewrite Hdir in F3. cbn [snd] in F3.
  apply ensure_dir_ok in Hdir as (Hc3 & _ & He3 & Hin3 & _).
  assert (framed w w3) as F by by eapply framed_trans.
  destruct F12 as (Hp2 & He2 & _). destruct (F) as (Hp3 & He3' & _).
  rewrite He2 in *. clear He3.
  unfold spawnProcess in Hspawn. revert Hspawn. run_monad.
  rewrite Hp3, He3'.
  match goal with
  | |- context [reactor ?wr ?exe ?args ?env] =>
      destruct (reactor wr exe args env) as [e|out] eqn:Hr
  end; [done|].
  intros [= -> <-].
  exists prog, user, realm, w3, output, p'. unfold kinit_call. cbn zeta.
  rewrite He3'. split_and!; done.
Qed.

(** X13.  Without a kinit program at either of the two paths [kinit]
    raises before anything else, whatever its arguments and the reactor,
    a malformed username included: nothing is registered, merged, written
    or spawned. *)
Theorem kinit_not_installed reactor username password kdc includedir w :
  files w !! "/usr/bin/kinit" = None →
  files w !! "/usr/kerberos/bin/kinit" = None →
  kinit reactor username password kdc includedir w =
    (Raise (Exception "krb5-workstation is not installed"), w).
Proof.
  intros H1 H2. unfold kinit.
  unfold mbind at 1, M_bind at 1, bind at 1. rewrite find_program_two.
  rewrite H1, H2. by rewrite !bool_decide_eq_false_2 by by intros [? ?].
Qed.

Lemma kinit_not_installed_witness :
  kinit strict_reactor "baduser" "secret" "10.10.10.10" (Some "/etc/krb5.d")
    (example_world no_realm) =
  (Raise (Exception "krb5-workstation is not installed"),
   example_world no_realm).
Proof. apply kinit_not_installed; reflexivity. Defined.

(** X14.  A [kinit] that returns normally has asked the reactor for the
    program found first at the two paths, with the principal made of the
    user and the upper-cased realm, and with an environment of the path of
    the configuration file and the credential cache of the username, both
    as they were at the call; the directory of that cache exists, and the
    path and the environment are unchanged. *)
Theorem kinit_spawns reactor username password kdc includedir w r w' :
  kinit reactor username password kdc includedir w = (Ret r, w') →
  ∃ prog user realm,
    (prog = "/usr/bin/kinit" ∨
     prog = "/usr/kerberos/bin/kinit" ∧ files w !! "/usr/bin/kinit" = None) ∧
    is_Some (files w !! prog) ∧
    split "@" username = [user; realm] ∧
    kinit_call prog user realm username w ∈ log w' ∧
    OsPath.dirname (get_ccname (environ w) username) ∈ dirs w' ∧
    path (config w') = path (config w) ∧ environ w' = environ w.
Proof.
  intros H.
  apply kinit_ret_inv in H
    as (prog & user & realm & w3 & output & p' & Hf & Hsplit & F & Hdir & H).
  cbn zeta in H. destruct H as (_ & Hfeed & _).
  match type of Hfeed with
  | kinit_feed ?p ?o ?wa = _ =>
      destruct (kinit_feed_run o p wa) as (p1 & events & Hrun)
  end.
  rewrite Hrun in Hfeed. injection Hfeed as _ <-.
  cbn [config files dirs environ log].
  destruct F as (Hp & He & _).
  exists prog, user, realm. split_and!; [| |done| |done..].
  - rewrite find_program_two in Hf. injection Hf as Hf.
    case_bool_decide as H1; [left; congruence|].
    case_bool_decide as H2; [|done]. right. split; [congruence|].
    by apply eq_None_not_Some.
  - rewrite find_program_two in Hf. injection Hf as Hf.
    case_bool_decide as H1; [congruence|].
    case_bool_decide as H2; [congruence|done].
  - apply elem_of_app. left. apply elem_of_app. right. apply list_elem_of_singleton.
    done.
Qed.

Lemma kinit_spawns_witness :
  ∃ prog user realm,
    (prog = "/usr/bin/kinit" ∨
     prog = "/usr/kerberos/bin/kinit" ∧
     files workstation !! "/usr/bin/kinit" = None) ∧
    is_Some (files workstation !! prog) ∧
    split "@" "alice@example.com" = [user; realm] ∧
    kinit_call prog user realm "alice@example.com" workstation
      ∈ log (kinit (λ _ _ _ _, Ran []) "alice@example.com" "secret"
               "10.10.10.10" None workstation).2 ∧
    OsPath.dirname (get_ccname (environ workstation) "alice@example.com")
      ∈ dirs (kinit (λ _ _ _ _, Ran []) "alice@example.com" "secret"
                "10.10.10.10" None workstation).2 ∧
    path (config (kinit (λ _ _ _ _, Ran []) "alice@example.com" "secret"
                    "10.10.10.10" None workstation).2)
      = path (config workstation) ∧
    environ (kinit (λ _ _ _ _, Ran []) "alice@example.com" "secret"
               "10.10.10.10" None workstation).2
      = environ workstation.
Proof.
  apply (kinit_spawns (λ _ _ _ _, Ran []) "alice@example.com" "secret"
           "10.10.10.10" None workstation None).
  by vm_compute.
Defined.

(** X15.  The credential cache needs a home: with neither ZENHOME nor HOME
    in the environment the cache name is empty, its directory cannot be
    made, and [kinit] never returns normally, whatever its arguments and
    the reactor. *)
Theorem kinit_needs_home reactor username password kdc includedir w :
  environ w !! "ZENHOME" = None → environ w !! "HOME" = None →
  "" ∉ dirs w →
  ∃ e w', kinit reactor username password kdc includedir w = (Raise e, w').
Proof.
  intros Hz Hh Hd.
  destruct (kinit reactor username password kdc includedir w) as [[r|e] w'] eqn:H;
    [|by eexists _, _].
  apply kinit_ret_inv in H
    as (prog & user & realm & w3 & output & p' & _ & _ & F & Hdir & _).
  destruct F as (_ & _ & Hkeep).
  unfold get_ccname in Hdir. rewrite Hz, Hh in Hdir.
  by destruct (Hkeep Hd).
Qed.

Lemma kinit_needs_home_witness :
  ∃ e w',
    kinit strict_reactor "alice@example.com" "secret" "10.10.10.10" None
      (mkWorld no_realm {["/usr/bin/kinit" := ""]} ∅ ∅ []) = (Raise e, w').
Proof. apply kinit_needs_home; [reflexivity..|set_solver]. Defined.

(** X16.  The result of [kinit] is what the program said on standard
    error: when [kinit] returns normally the reactor ran the program, and
    if no chunk of its standard output tells of an expired password, the
    result is [None] when standard error was empty and all of standard
    error otherwise. *)
Theorem kinit_result reactor username password kdc includedir w r w' :
  kinit reactor username password kdc includedir w = (Ret r, w') →
  ∃ asked exe args env output,
    Spawned exe args env ∈ log w' ∧
    reactor asked exe args env = Ran output ∧
    (no_expiry output →
     r = if String.eqb (stderr_of output) "" then None
         else Some (stderr_of output)).
Proof.
  intros H.
  apply kinit_ret_inv in H
    as (prog & user & realm & w3 & output & p' & _ & _ & _ & _ & H).
  cbn zeta in H. destruct H as (Hr & Hfeed & ->).
  match type of Hr with
  | reactor ?asked ?exe ?args ?env = _ => exists asked, exe, args, env, output
  end.
  split_and!; [|done|].
  - match type of Hfeed with
    | kinit_feed ?p ?o ?wa = _ =>
        destruct (kinit_feed_run o p wa) as (p1 & events & Hrun)
    end.
    rewrite Hrun in Hfeed. injection Hfeed as _ <-. cbn [log].
    apply elem_of_app. left. apply elem_of_app. right.
    by apply list_elem_of_singleton.
  - intros Hq.
    match type of Hfeed with
    | kinit_feed ?p ?o ?wa = _ =>
        destruct (kinit_feed_quiet o p wa Hq) as (p1 & events & Hrun & _ & He)
    end.
    rewrite Hrun in Hfeed. injection Hfeed as <- _.
    unfold Kinit.processEnded. rewrite He. cbn [Kinit.init Kinit._error].
    rewrite append_nil_l. by destruct (String.eqb _ "").
Qed.

Lemma kinit_result_witness :
  ∃ asked exe args env output,
    Spawned exe args env
      ∈ log (kinit (printing [Out "Password for alice@EXAMPLE.COM: ";
                              Err "kinit: Preauthentication failed"])
               "alice@example.com" "secret" "10.10.10.10" None workstation).2 ∧
    printing [Out "Password for alice@EXAMPLE.COM: ";
              Err "kinit: Preauthentication failed"] asked exe args env
      = Ran output ∧
    (no_expiry output →
     Some "kinit: Preauthentication failed" =
       if String.eqb (stderr_of output) "" then None
       else Some (stderr_of output)).
Proof.
  apply (kinit_result
           (printing [Out "Password for alice@EXAMPLE.COM: ";
                      Err "kinit: Preauthentication failed"])
           "alice@example.com" "secret" "10.10.10.10" None workstation).
  by vm_compute.
Defined.

(** ** [add_kdc] and [add_trusted_realm] *)

Lemma ensure_dir_config d w : config (ensure_dir d w).2 = config w.
Proof.
  unfold ensure_dir, isdir, makedirs. run_monad.
  destruct (bool_decide _); [done|]. by destruct (String.eqb d "").
Qed.

(** However [save] ends, the configuration is as it was or has the
    configuration directory registered. *)
Lemma save_config w :
  config (save w).2 = config w ∨ config (save w).2 = saved (config w).
Proof.
  unfold save. run_monad.
  destruct (save_realms _ _) as [[rl dl]|e]; run_monad; [|by left].
  pose proof (ensure_dir_config (OsPath.dirname (path (config w))) w) as H1.
  destruct (ensure_dir _ w) as [[[]|e] w1]; cbn [snd] in H1 |- *; [|by left].
  pose proof (ensure_dir_config
                (OsPath.join (OsPath.dirname (path (config w))) ["config"]) w1)
    as H2.
  destruct (ensure_dir _ w1) as [[[]|e] w2]; cbn [snd] in H2 |- *;
    [|left; congruence].
  unfold write_file. run_monad. right. by rewrite H2, H1.
Qed.

Lemma kdcs_of_saved c r : kdcs_of (saved c) r = kdcs_of c r.
Proof. done. Qed.

Lemma kdcs_of_merged_ne realm d c r :
  r ≠ realm → kdcs_of (merged realm d c) r = kdcs_of c r.
Proof. intros Hne. unfold kdcs_of. cbn [merged realms]. by rewrite lookup_insert_ne. Qed.

Lemma touched_admin realm c : admin_servers (touched realm c) = admin_servers c.
Proof. done. Qed.

(** X17.  [add_kdc] touches one realm only: however the call ends, with
    an exception included, every other realm has the KDCs and the admin
    server it had. *)
Theorem add_kdc_other_realms realm kdcs w r :
  r ≠ realm →
  let w' := (add_kdc realm kdcs w).2 in
  kdcs_of (config w') r = kdcs_of (config w) r ∧
  admin_servers (config w') !! r = admin_servers (config w) !! r.
Proof.
  intros Hne. cbn zeta.
  destruct (String.eqb kdcs "" || String.eqb (strip kdcs) "") eqn:Hb.
  { apply blank_iff in Hb. by rewrite (add_kdc_blank _ _ _ Hb). }
  rewrite (add_kdc_unfold _ _ _ Hb). cbn zeta.
  set (d := parse_delta kdcs).
  assert (let w' := (save (with_config (merged realm d (config w)) w)).2 in
          kdcs_of (config w') r = kdcs_of (config w) r ∧
          admin_servers (config w') !! r = admin_servers (config w) !! r)
    as Hsave.
  { cbn zeta.
    destruct (save_config (with_config (merged realm d (config w)) w))
      as [-> | ->]; rewrite config_with_config, ?kdcs_of_saved,
                      kdcs_of_merged_ne by done;
      (split; [done|]); cbn [saved merged admin_servers];
      by rewrite lookup_insert_ne. }
  assert (let w' := with_config (touched realm (config w)) w in
          kdcs_of (config w') r = kdcs_of (config w) r ∧
          admin_servers (config w') !! r = admin_servers (config w) !! r)
    as Htouch.
  { cbn zeta. by rewrite config_with_config, kdcs_of_touched, touched_admin. }
  destruct (_ && _); [|exact Hsave].
  destruct (admin_servers (config w) !! realm) as [a|]; [|exact Htouch].
  destruct (bool_decide _); [exact Htouch|exact Hsave].
Qed.

Lemma add_kdc_other_realms_witness :
  let w' := (add_kdc "EXAMPLE.COM" "+10.10.10.30,-kdc2.example.com"
               (example_world two_realms)).2 in
  kdcs_of (config w') "OTHER.ORG" = kdcs_of two_realms "OTHER.ORG" ∧
  admin_servers (config w') !! "OTHER.ORG" = admin_servers two_realms !! "OTHER.ORG".
Proof.
  apply (add_kdc_other_realms "EXAMPLE.COM" "+10.10.10.30,-kdc2.example.com"
           (example_world two_realms) "OTHER.ORG").
  discriminate.
Defined.

Lemma merged_elem (cur V Rm : gset string) h :
  h ∈ (cur ∪ symmetric_difference cur V) ∖ (cur ∩ Rm) ↔
  (h ∈ cur ∨ h ∈ V) ∧ ¬ (h ∈ cur ∧ h ∈ Rm).
Proof.
  unfold symmetric_difference. set_unfold.
  destruct (decide (h ∈ cur)); tauto.
Qed.

Lemma symmetric_difference_empty (cur V : gset string) h :
  symmetric_difference cur V = ∅ → h ∈ cur ↔ h ∈ V.
Proof.
  unfold symmetric_difference. intros He.
  apply (f_equal (λ s : gset string, bool_decide (h ∈ s))) in He.
  rewrite (bool_decide_eq_false_2 (h ∈ (∅ : gset string))) in He by set_solver.
  apply bool_decide_eq_false in He. set_unfold.
  destruct (decide (h ∈ cur)), (decide (h ∈ V)); tauto.
Qed.

(** X18.  The KDCs of the realm after an [add_kdc] that returns normally:
    the hosts the realm had and the hosts the delta adds, but for the
    hosts the realm had that the delta removes.  A host the delta both
    adds and removes stays when the realm did not have it. *)
Theorem add_kdc_result realm kdcs w w' :
  add_kdc realm kdcs w = (Ret tt, w') →
  let d := parse_delta kdcs in
  ∀ h, h ∈ kdcs_of (config w') realm ↔
       (h ∈ kdcs_of (config w) realm ∨ h ∈ valid_kdcs d) ∧
       ¬ (h ∈ kdcs_of (config w) realm ∧ h ∈ remove_kdcs d).
Proof.
  intros Hrun d h.
  destruct (decide (strip kdcs = "")) as [Hb|Hnb].
  { rewrite (add_kdc_blank _ _ _ Hb) in Hrun. injection Hrun as <-.
    unfold d. rewrite (parse_delta_blank _ Hb). cbn [valid_kdcs remove_kdcs].
    set_solver. }
  destruct (add_kdc_ok _ _ _ _ Hrun Hnb) as [(Hnew & Hbad & _ & ->)|[_ Hs]].
  - rewrite config_with_config, kdcs_of_touched. fold d in Hnew, Hbad.
    unfold new_kdcs_of in Hnew. unfold bad_kdcs_of in Hbad.
    pose proof (symmetric_difference_empty _ _ h Hnew) as HV.
    rewrite elem_of_list_to_set in HV.
    assert (¬ (h ∈ kdcs_of (config w) realm ∧ h ∈ remove_kdcs d)) as Hno.
    { intros [H1 H2].
      assert (h ∈ kdcs_of (config w) realm ∩ list_to_set (remove_kdcs d)) as Hin
        by (apply elem_of_intersection; split; [done|by apply elem_of_list_to_set]).
      rewrite Hbad in Hin. by apply not_elem_of_empty in Hin. }
    tauto.
  - apply save_ok in Hs as (_ & _ & _ & _ & -> & _).
    rewrite config_with_config, kdcs_of_saved_merged. fold d.
    rewrite decide_True by done.
    unfold new_kdcs_of, bad_kdcs_of. rewrite merged_elem.
    by rewrite !elem_of_list_to_set.
Qed.

Lemma add_kdc_result_witness :
  "10.10.10.30" ∈ kdcs_of (config (add_kdc "EXAMPLE.COM"
                              "+10.10.10.30,-kdc2.example.com,-10.10.10.30"
                              (example_world example_realm)).2) "EXAMPLE.COM" ↔
  ("10.10.10.30" ∈ kdcs_of example_realm "EXAMPLE.COM" ∨
   "10.10.10.30" ∈ ["10.10.10.30"]) ∧
  ¬ ("10.10.10.30" ∈ kdcs_of example_realm "EXAMPLE.COM" ∧
     "10.10.10.30" ∈ ["kdc2.example.com"; "10.10.10.30"]).
Proof.
  refine (add_kdc_result "EXAMPLE.COM"
            "+10.10.10.30,-kdc2.example.com,-10.10.10.30"
            (example_world example_realm) _ _ "10.10.10.30").
  by vm_compute.
Defined.








Lemma saveable_no_realm : saveable no_realm.
Proof.
  intros r ks Hr. unfold no_realm in Hr. cbn [realms] in Hr.
  by rewrite lookup_empty in Hr.
Qed.


(** X20.  [add_kdc] itself does not change the case of the realm: for a
    realm name that is not in upper case and has no admin server under
    its upper-case name, on a configuration [save] can write, a delta that
    adds a host makes [save] raise [KeyError] for the upper-case name,
    after the realm was merged in memory: nothing is written, and [save]
    cannot write the configuration left behind. *)
Theorem add_kdc_realm_not_upper realm kdcs w :
  upper realm ≠ realm →
  saveable (config w) →
  admin_servers (config w) !! upper realm = None →
  valid_kdcs (parse_delta kdcs) ≠ [] →
  ∃ w', add_kdc realm kdcs w = (Raise (KeyError (upper realm)), w') ∧
        files w' = files w ∧ log w' = log w ∧
        ¬ saveable (config w').
Proof.
  intros Hup Hs Hadm Hvalid.
  assert (String.eqb kdcs "" || String.eqb (strip kdcs) "" = false) as Hb.
  { destruct (_ || _) eqn:E; [|done]. apply blank_iff in E.
    by rewrite (parse_delta_blank _ E) in Hvalid. }
  rewrite (add_kdc_unfold _ _ _ Hb). cbn zeta.
  set (d := parse_delta kdcs) in *.
  assert (kdcs_of (config w) realm = ∅) as Hcur.
  { unfold kdcs_of. destruct (realms (config w) !! realm) as [ks|] eqn:Hr; [|done].
    cbn [default]. destruct (decide (ks = ∅)) as [|Hne]; [done|].
    destruct (Hs realm ks Hr Hne) as [a Ha]. congruence. }
  destruct (valid_kdcs d) as [|h rest] eqn:Hv; [done|].
  assert (h ∈ new_kdcs_of (config w) realm d) as Hnew.
  { unfold new_kdcs_of, symmetric_difference. rewrite Hcur, Hv. set_solver. }
  assert (is_empty (new_kdcs_of (config w) realm d) = false) as ->.
  { apply bool_decide_eq_false_2. intros He. rewrite He in Hnew.
    by apply not_elem_of_empty in Hnew. }
  cbn [andb].
  set (c1 := merged realm d (config w)).
  assert (realms c1 !! realm =
          Some ((kdcs_of (config w) realm ∪ new_kdcs_of (config w) realm d)
                  ∖ bad_kdcs_of (config w) realm d)) as Hr1
    by (cbn [c1 merged realms]; apply lookup_insert_eq).
  assert ((kdcs_of (config w) realm ∪ new_kdcs_of (config w) realm d)
            ∖ bad_kdcs_of (config w) realm d ≠ ∅) as Hne1.
  { intros He.
    assert (h ∈ (kdcs_of (config w) realm ∪ new_kdcs_of (config w) realm d)
                  ∖ bad_kdcs_of (config w) realm d) as Hin.
    { unfold bad_kdcs_of. rewrite Hcur. set_solver. }
    rewrite He in Hin. by apply not_elem_of_empty in Hin. }
  assert (admin_servers c1 !! upper realm = None) as Ha1
    by (cbn [c1 merged admin_servers]; by rewrite lookup_insert_ne).
  assert (¬ saveable c1) as Hns.
  { intros Hs1. destruct (Hs1 realm _ Hr1 Hne1) as [a Ha]. congruence. }
  destruct (save_realms (admin_servers c1) (map_to_list (realms c1)))
    as [[rl dl]|e] eqn:Hsr.
  { destruct (save_realms_missing (admin_servers c1) (map_to_list (realms c1))
                realm _ (proj2 (elem_of_map_to_list _ _ _) Hr1) Hne1 Ha1)
      as [k Hk]. congruence. }
  assert (e = KeyError (upper realm)) as ->.
  { destruct (save_realms_raise _ _ _ Hsr)
      as (r & ks & Hin%elem_of_map_to_list & Hks & -> & Hnone).
    destruct (decide (r = realm)) as [->|Hne]; [done|].
    cbn [c1 merged realms admin_servers] in Hin, Hnone.
    rewrite lookup_insert_ne in Hin by done.
    destruct (Hs r ks Hin Hks) as [a Ha].
    destruct (decide (upper r = realm)) as [E|E].
    - by rewrite E, lookup_insert_eq in Hnone.
    - rewrite lookup_insert_ne in Hnone by done. congruence. }
  exists (with_config c1 w). split_and!; [|done..].
  unfold save. run_monad. rewrite config_with_config. by rewrite Hsr.
Qed.

Lemma add_kdc_realm_not_upper_witness :
  ∃ w', add_kdc "example.com" "10.10.10.10" (example_world no_realm)
          = (Raise (KeyError (upper "example.com")), w') ∧
        files w' = files (example_world no_realm) ∧
        log w' = log (example_world no_realm) ∧
        ¬ saveable (config w').
Proof.
  apply (add_kdc_realm_not_upper "example.com" "10.10.10.10"
           (example_world no_realm)).
  - by vm_compute.
  - apply saveable_no_realm.
  - reflexivity.
  - by vm_compute.
Defined.

(** ** [get_ccname] and [ccname] *)

Lemma append_inv_head (a b c : string) : a +:+ b = a +:+ c → b = c.
Proof.
  induction a as [|x a IH]; [done|]. rewrite !append_cons. intros [= H]. auto.
Qed.

(** X21.  Each username has a credential cache of its own: with ZENHOME
    or HOME in the environment, two different usernames that do not start
    with a slash have different cache names. *)
Theorem get_ccname_injective env u1 u2 :
  is_Some (env !! "ZENHOME") ∨ is_Some (env !! "HOME") →
  startswith u1 "/" = false → startswith u2 "/" = false →
  u1 ≠ u2 → get_ccname env u1 ≠ get_ccname env u2.
Proof.
  intros Hhome H1 H2 Hne. unfold get_ccname.
  destruct (env !! "ZENHOME") as [z|].
  - rewrite !join_private_root by done.
    intros H%append_inv_head. by apply (append_inv_head "/") in H.
  - destruct (env !! "HOME") as [h|].
    + rewrite !join_private_root by done.
      intros H%append_inv_head. by apply (append_inv_head "/") in H.
    + by destruct Hhome as [[? ?]|[? ?]].
Qed.

Lemma get_ccname_injective_witness :
  get_ccname {["HOME" := "/home/zenoss"]} "alice@example.com"
    ≠ get_ccname {["HOME" := "/home/zenoss"]} "bob@example.com".
Proof.
  apply (get_ccname_injective {["HOME" := "/home/zenoss"]});
    [right; vm_compute; by eexists|reflexivity|reflexivity|discriminate].
Defined.

(** ** The invariant of the data model *)

Lemma add_kdc_keeps_admin_among_kdcs_witness :
  admin_among_kdcs
    (config (add_kdc "EXAMPLE.COM" "+10.10.10.30, -kdc2.example.com"
               (example_world example_realm)).2).
Proof.
  apply (add_kdc_keeps_admin_among_kdcs "EXAMPLE.COM"
           "+10.10.10.30, -kdc2.example.com" (example_world example_realm)).
  - apply example_realm_invariant.
  - by vm_compute.
  - by vm_compute.
  - intros a Ha. vm_compute in Ha. injection Ha as <-.
    apply (bool_decide_unpack _). by vm_compute.
Defined.
